(** * Jarvis command-line engines: a shallow embedding and its properties

    The Go tools under [tools/go/cmd] (file indexer, text search, code
    analyzer, symbol resolver, diff engine, change watcher, parallel runner)
    are embedded here as Rocq functions.  What the operating system, the Go
    runtime or a Go library decides (the file tree, the order in which worker
    results arrive, how a subprocess ends, regular-expression matching) is an
    explicit argument of the embedded function. *)

From Stdlib Require Import ZArith List String Ascii Bool Lia Permutation.
From Stdlib Require Import DecimalString DecimalZ Sorted.
From stdpp Require Import gmap strings.
Import ListNotations.
Local Open Scope string_scope.
Local Open Scope list_scope.
Local Open Scope Z_scope.

(** * The Go libraries the engines rely on *)

(** ** Go's [time.Time] *)

Module GoTime.

(** A [time.Time] is a struct of three words, and [!=] on it compares all
    three of them. *)
Record Time := { wall : Z; ext : Z; loc : Z }.

#[global] Instance Time_eq_dec : EqDecision Time.
Proof. solve_decision. Defined.

(** The layout of the words, from the [time] package: the top bit of the
    unsigned 64-bit [wall] says whether the time carries a reading of the
    monotonic clock, its low 30 bits are the nanoseconds; without such a
    reading the signed 64-bit [ext] holds the seconds since year 1, with one
    the seconds since 1885 are the 33 bits of [wall] in between.  [loc] is
    the pointer to the location, nil for UTC. *)
Definition hasMonotonic : Z := 2 ^ 63.
Definition nsecMask : Z := 2 ^ 30 - 1.
Definition nsecShift : Z := 30.
Definition wallToInternal : Z :=
  (1884 * 365 + 1884 / 4 - 1884 / 100 + 1884 / 400) * 86400.

(** [t.nsec()] and [t.sec()]. *)
Definition nsec (t : Time) : Z := Z.land (wall t) nsecMask.

Definition sec (t : Time) : Z :=
  if Z.land (wall t) hasMonotonic =? 0 then ext t
  else wallToInternal
       + Z.shiftr (Z.shiftl (wall t) 1 mod 2 ^ 64) (nsecShift + 1).

(** [t.Equal(u)]: the two times are the same instant, whatever their
    locations are. *)
Definition Equal (t u : Time) : bool :=
  if negb (Z.land (Z.land (wall t) (wall u)) hasMonotonic =? 0)
  then ext t =? ext u
  else (sec t =? sec u) && (nsec t =? nsec u).

End GoTime.

(** ** Go's [strings] package, as far as the engines use it *)

Module GoStrings.

(** [strings.HasPrefix s prefix]. *)
Fixpoint HasPrefix (s prefix : string) : bool :=
  match prefix, s with
  | EmptyString, _ => true
  | String c prefix', String d s' => Ascii.eqb c d && HasPrefix s' prefix'
  | String _ _, EmptyString => false
  end.

(** [strings.Index s substr]: the byte offset of the first instance of
    [substr] in [s], or -1. *)
Fixpoint Index (s substr : string) : Z :=
  if HasPrefix s substr then 0
  else match s with
       | EmptyString => -1
       | String _ s' => let i := Index s' substr in if i <? 0 then -1 else i + 1
       end.

(** [strings.Contains s substr] is [Index(s, substr) >= 0]. *)
Definition Contains (s substr : string) : bool := 0 <=? Index s substr.

(** [s[n:]]. *)
Fixpoint drop (n : nat) (s : string) : string :=
  match n, s with
  | O, _ => s
  | S n', String _ s' => drop n' s'
  | S _, EmptyString => EmptyString
  end.

(** [s[:n]]. *)
Fixpoint take (n : nat) (s : string) : string :=
  match n, s with
  | O, _ => EmptyString
  | S n', String c s' => String c (take n' s')
  | S _, EmptyString => EmptyString
  end.

(** [%d] of [fmt.Sprintf]: a Go int in decimal. *)
Definition Itoa (n : Z) : string := NilZero.string_of_int (Z.to_int n).

(** [len(s)]. *)
Definition len (s : string) : nat := String.length s.

Definition byte (c : ascii) : nat := Ascii.nat_of_ascii c.

(** The first byte of [s] is a UTF-8 continuation byte between [lo] and
    [hi]. *)
Definition continuation (lo hi : nat) (s : string) : bool :=
  match s with
  | EmptyString => false
  | String c _ => (lo <=? byte c)%nat && (byte c <=? hi)%nat
  end.

(** The width [utf8.DecodeRuneInString] reports for the rune that starts
    [s]: the length of a well-formed encoding, 1 for an invalid or truncated
    one, 0 for the empty string. *)
Definition runeWidth (s : string) : nat :=
  match s with
  | EmptyString => 0
  | String c rest =>
      let b := byte c in
      if (b <? 194)%nat then 1
      else if (b <? 224)%nat then
        if continuation 128 191 rest then 2 else 1
      else if (b <? 240)%nat then
        if continuation (if (b =? 224)%nat then 160 else 128)
                        (if (b =? 237)%nat then 159 else 191) rest
           && continuation 128 191 (drop 1 rest)
        then 3 else 1
      else if (b <? 245)%nat then
        if continuation (if (b =? 240)%nat then 144 else 128)
                        (if (b =? 244)%nat then 143 else 191) rest
           && continuation 128 191 (drop 1 rest)
           && continuation 128 191 (drop 2 rest)
        then 4 else 1
      else 1
  end%nat.

(** [utf8.RuneCountInString]; [skip] bytes still belong to the rune counted
    last. *)
Fixpoint runeCountSkip (skip : nat) (s : string) : Z :=
  match s with
  | EmptyString => 0
  | String _ rest =>
      match skip with
      | S k => runeCountSkip k rest
      | O => 1 + runeCountSkip (runeWidth s - 1) rest
      end
  end.

Definition RuneCountInString (s : string) : Z := runeCountSkip 0 s.

(** The instances of a non-empty [substr] that [strings.Count] counts: it
    takes the first instance, then searches on behind it, so the instances
    counted do not overlap.  [skip] bytes still belong to the instance
    counted last. *)
Fixpoint countSkip (skip : nat) (s substr : string) : Z :=
  match s with
  | EmptyString => 0
  | String _ rest =>
      match skip with
      | S k => countSkip k rest substr
      | O =>
          if HasPrefix s substr
          then 1 + countSkip (len substr - 1) rest substr
          else countSkip 0 rest substr
      end
  end.

(** [strings.Count s substr]: the number of non-overlapping instances of
    [substr] in [s]; for the empty [substr], one more than the number of
    runes of [s]. *)
Definition Count (s substr : string) : Z :=
  if String.eqb substr "" then RuneCountInString s + 1
  else countSkip 0 s substr.

(** The replacement loop of [strings.Replace]: [n] replacements remain,
    [first] tells the first turn, [s] is what is left of the string. *)
Fixpoint replaceLoop (n : nat) (first : bool) (s old new : string) : string :=
  match n with
  | O => s
  | S n' =>
      let j :=
        if String.eqb old "" then (if first then O else runeWidth s)
        else Z.to_nat (Index s old) in
      take j s +:+ new +:+ replaceLoop n' false (drop (j + len old) s) old new
  end.

(** [strings.Replace s old new n]: the first [n] non-overlapping instances
    of [old] replaced by [new]; all of them if [n < 0]. *)
Definition Replace (s old new : string) (n : Z) : string :=
  if String.eqb old new || (n =? 0) then s
  else
    let m := Count s old in
    if m =? 0 then s
    else
      let n := if (n <? 0) || (m <? n) then m else n in
      replaceLoop (Z.to_nat n) true s old new.

(** [strings.ReplaceAll s old new] is [Replace(s, old, new, -1)]. *)
Definition ReplaceAll (s old new : string) : string := Replace s old new (-1).

(** [strings.Split s sep] for a separator of one byte. *)
Fixpoint splitOn (sep : ascii) (s : string) : list string :=
  match s with
  | EmptyString => [EmptyString]
  | String c rest =>
      match splitOn sep rest with
      | e :: es => if Ascii.eqb c sep then EmptyString :: e :: es
                   else String c e :: es
      | [] => []
      end
  end.

(** [strings.Join elems sep]. *)
Fixpoint joinWith (sep : string) (elems : list string) : string :=
  match elems with
  | [] => EmptyString
  | [e] => e
  | e :: rest => e +:+ sep +:+ joinWith sep rest
  end.

(** The number of byte offsets of [s] at which [substr] occurs. *)
Fixpoint occurrences (s substr : string) : nat :=
  ((if HasPrefix s substr then 1 else 0)
   + match s with
     | EmptyString => 0
     | String _ rest => occurrences rest substr
     end)%nat.

End GoStrings.

(** ** Go's [bufio.Scanner], as the engines use it *)

Module GoBufio.

(** [bufio.MaxScanTokenSize], the size up to which the buffer of a scanner
    grows when [Buffer] is not called. *)
Definition MaxScanTokenSize : Z := 64 * 1024.

(** [dropCR]: a line without its final carriage return. *)
Fixpoint dropCR (line : string) : string :=
  match line with
  | EmptyString => EmptyString
  | String c EmptyString => if Ascii.eqb c "013" then EmptyString else line
  | String c rest => String c (dropCR rest)
  end.

(** The lines of [data] as [bufio.ScanLines] cuts them, each without its
    newline: a line ends before a newline, or at the end of the data when
    bytes are left there. *)
Definition rawLines (data : string) : list string :=
  let pieces := GoStrings.splitOn "010" data in
  if String.eqb (List.last pieces "") "" then List.removelast pieces
  else pieces.

(** A line is found when it fits into the buffer together with what shows
    its end, the newline or the end of the data. *)
Definition fits (raw : string) : bool :=
  Z.of_nat (String.length raw) <? MaxScanTokenSize.

(** The lines before the first one that does not fit. *)
Fixpoint fitting (lines : list string) : list string :=
  match lines with
  | [] => []
  | raw :: rest => if fits raw then raw :: fitting rest else []
  end.

(** What the loop [for scanner.Scan() { ... scanner.Text() ... }] sees of
    [data] with [bufio.NewScanner] as it is: at the first line of 64 KiB or
    more [Scan] returns false, with [bufio.ErrTooLong] as the error of the
    scanner.  For a loop that does not read that error the data ends
    there. *)
Definition Scan (data : string) : list string :=
  map dropCR (fitting (rawLines data)).

End GoBufio.

(** ** Go's [path/filepath], as far as the engines use it *)

Module GoPath.

(** Whether the path has a separator. *)
Fixpoint hasSeparator (path : string) : bool :=
  match path with
  | EmptyString => false
  | String c rest => Ascii.eqb c "/" || hasSeparator rest
  end.

(** [filepath.Ext]: the suffix beginning at the final dot in the final
    element of [path]; empty if there is no dot. *)
Fixpoint Ext (path : string) : string :=
  match path with
  | EmptyString => EmptyString
  | String c rest =>
      match Ext rest with
      | String _ _ as ext => ext
      | EmptyString =>
          if hasSeparator rest then EmptyString
          else if Ascii.eqb c "." then path else EmptyString
      end
  end.

(** One path element in [filepath.Clean]; [stack] holds the elements kept so
    far, the last one first. *)
Definition cleanStep (rooted : bool) (stack : list string) (e : string)
    : list string :=
  if String.eqb e "" || String.eqb e "." then stack
  else if String.eqb e ".." then
    match stack with
    | top :: rest => if String.eqb top ".." then e :: stack else rest
    | [] => if rooted then [] else [e]
    end
  else e :: stack.

(** [filepath.Clean] (on Unix). *)
Definition Clean (path : string) : string :=
  if String.eqb path "" then "."
  else
    let rooted := GoStrings.HasPrefix path "/" in
    let body :=
      GoStrings.joinWith "/"
        (rev (fold_left (cleanStep rooted) (GoStrings.splitOn "/" path) [])) in
    if rooted then "/" +:+ body
    else if String.eqb body "" then "." else body.

(** [filepath.Join path name] for a non-empty [path]. *)
Definition Join (path name : string) : string := Clean (path +:+ "/" +:+ name).

(** The name [os.Lstat] reports for a path: trailing slashes removed, then
    what follows the last slash. *)
Fixpoint trimSlashes (reversed : list ascii) : list ascii :=
  match reversed with
  | c :: (_ :: _) as rest => if Ascii.eqb c "/" then trimSlashes rest else reversed
  | _ => reversed
  end.

Fixpoint untilSlash (reversed : list ascii) : list ascii :=
  match reversed with
  | [] => []
  | c :: rest => if Ascii.eqb c "/" then [] else c :: untilSlash rest
  end.

Definition Base (name : string) : string :=
  match trimSlashes (rev (list_ascii_of_string name)) with
  | [] => EmptyString
  | last :: before => string_of_list_ascii (rev (last :: untilSlash before))
  end.

(** ** The file tree and [filepath.Walk] *)

(** What [os.FileInfo] tells the engines. *)
Record FileInfo :=
  { Name : string; Size : Z; ModTime : GoTime.Time; IsDir : bool }.

(** A file tree in which every entry can be read: a file (or anything else
    that is not a directory), or a directory with its entries by name, in
    the order in which [Walk] reads them. *)
#[warnings="-register-all"]
Inductive Node :=
| File (size : Z) (modified : GoTime.Time)
| Dir (size : Z) (modified : GoTime.Time) (entries : list (string * Node)).

Inductive WalkAction := Continue | SkipDir.

Section Walk.

Context {St : Type}.

(** The callback: it returns nil ([Continue]) or [filepath.SkipDir]. *)
Variable fn : string -> FileInfo -> St -> St * WalkAction.

(** The recursion of [filepath.Walk].  A directory that the callback skips
    is not read; [SkipDir] for a file ends the listing of the directory that
    holds it. *)
Fixpoint walk (path name : string) (node : Node) (st : St) : St * WalkAction :=
  match node with
  | File size modified =>
      fn path {| Name := name; Size := size; ModTime := modified; IsDir := false |} st
  | Dir size modified entries =>
      let '(st, action) :=
        fn path {| Name := name; Size := size; ModTime := modified; IsDir := true |} st in
      match action with
      | SkipDir => (st, SkipDir)
      | Continue =>
          (fix each (entries : list (string * Node)) (st : St) : St * WalkAction :=
             match entries with
             | [] => (st, Continue)
             | (childName, child) :: rest =>
                 let '(st, action) := walk (Join path childName) childName child st in
                 match action, child with
                 | SkipDir, File _ _ => (st, SkipDir)
                 | _, _ => each rest st
                 end
             end) entries st
      end
  end.

(** [filepath.Walk root fn], [tree] being what is found at [root]. *)
Definition Walk (root : string) (tree : Node) (st : St) : St :=
  fst (walk root (Base root) tree st).

End Walk.

(** Every file of the tree: its path, its info, and the directories that
    contain it, from the root down, each with its path and info. *)
Fixpoint allFiles (path name : string) (node : Node)
    (above : list (string * FileInfo))
    : list (string * FileInfo * list (string * FileInfo)) :=
  match node with
  | File size modified =>
      [(path, {| Name := name; Size := size; ModTime := modified; IsDir := false |},
        above)]
  | Dir size modified entries =>
      let here :=
        (path, {| Name := name; Size := size; ModTime := modified; IsDir := true |}) in
      flat_map (fun entry =>
                  allFiles (Join path (fst entry)) (fst entry) (snd entry)
                    (above ++ [here]))
               entries
  end.

(** A walk whose callback skips the directories that [pruned] tells reaches
    a file when none of the directories above it is pruned. *)
Definition reached (pruned : string * FileInfo -> bool)
    (file : string * FileInfo * list (string * FileInfo)) : bool :=
  forallb (fun dir => negb (pruned dir)) (snd file).

End GoPath.

(** * The engines *)

(** ** FileIndexer *)

Module Indexer.

Record FileInfo :=
  { Path : string; Name : string; Size : Z; Extension : string;
    Modified : GoTime.Time; IsDir : bool; Hash : string }.

Record IndexResult :=
  { Files : list FileInfo; TotalFiles : Z; TotalSize : Z; Error : string }.

Record IndexJob := { JobPath : string; Info : GoPath.FileInfo }.

(** Go's [int64]: the running total of the sizes wraps around. *)
Definition wrap64 (x : Z) : Z := (x + 2 ^ 63) mod 2 ^ 64 - 2 ^ 63.

Section WithLibraries.

(** [strings.ToLower] and [strings.TrimSpace]; [hashFile], the hexadecimal
    MD5 of the content of a path, or [None] when the file cannot be read. *)
Variable ToLower : string -> string.
Variable TrimSpace : string -> string.
Variable hashFile : string -> option string.

(** The order in which the results of the workers arrive on the channel. *)
Variable deliver : list FileInfo -> list FileInfo.

(** The extension filter: nil when the flag is empty. *)
Definition parseExtensions (extensions : string) : option (gset string) :=
  if String.eqb extensions "" then None
  else
    Some (list_to_set
            (map (fun ext =>
                    let ext := TrimSpace ext in
                    let ext := if GoStrings.HasPrefix ext "." then ext
                               else "." +:+ ext in
                    ToLower ext)
                 (GoStrings.splitOn "," extensions))).

Definition parseExclude (excludeDirs : string) : gset string :=
  list_to_set (map TrimSpace (GoStrings.splitOn "," excludeDirs)).

Section Walking.

Variable extFilter : option (gset string).
Variable excludeMap : gset string.
Variables maxDepth baseDepth : Z.

(** The depth test of the callback: [maxDepth >= 0] and
    [currentDepth > maxDepth]. *)
Definition tooDeep (path : string) : bool :=
  (maxDepth >=? 0)
  && (GoStrings.Count (GoPath.Clean path) "/" - baseDepth >? maxDepth).

(** The test on the name of a directory. *)
Definition excludedName (name : string) : bool :=
  negb (String.eqb name ".")
  && (bool_decide (name ∈ excludeMap) || GoStrings.HasPrefix name ".").

(** The test of the extension of a file. *)
Definition extensionKept (path : string) : bool :=
  match extFilter with
  | None => true
  | Some filter => bool_decide (ToLower (GoPath.Ext path) ∈ filter)
  end.

(** The callback given to [filepath.Walk] (entries are all readable, so its
    [err] is nil). *)
Definition visit (path : string) (info : GoPath.FileInfo)
    (jobs : list IndexJob) : list IndexJob * GoPath.WalkAction :=
  if tooDeep path then
    if GoPath.IsDir info then (jobs, GoPath.SkipDir) else (jobs, GoPath.Continue)
  else if GoPath.IsDir info then
    if excludedName (GoPath.Name info) then (jobs, GoPath.SkipDir)
    else (jobs, GoPath.Continue)
  else if negb (extensionKept path) then (jobs, GoPath.Continue)
  else (jobs ++ [{| JobPath := path; Info := info |}], GoPath.Continue).

(** A directory that the callback skips, and a file that it keeps. *)
Definition skippedDir (dir : string * GoPath.FileInfo) : bool :=
  tooDeep (fst dir) || excludedName (GoPath.Name (snd dir)).

Definition keptFile (path : string) : bool :=
  negb (tooDeep path) && extensionKept path.

(** A file of the tree qualifies when no directory above it is skipped and
    the file itself is kept. *)
Definition qualifies
    (file : string * GoPath.FileInfo * list (string * GoPath.FileInfo)) : bool :=
  forallb (fun dir => negb (skippedDir dir)) (snd file)
  && keptFile (fst (fst file)).

(** The same with the root of the walk, the first of the directories above
    the file, left out of the test. *)
Definition qualifiesBelowRoot
    (file : string * GoPath.FileInfo * list (string * GoPath.FileInfo)) : bool :=
  forallb (fun dir => negb (skippedDir dir)) (tl (snd file))
  && keptFile (fst (fst file)).

End Walking.

Definition processFile (withHash : bool) (job : IndexJob) : FileInfo :=
  {| Path := JobPath job; Name := GoPath.Name (Info job);
     Size := GoPath.Size (Info job); Extension := GoPath.Ext (JobPath job);
     Modified := GoPath.ModTime (Info job); IsDir := GoPath.IsDir (Info job);
     Hash :=
       if withHash && negb (GoPath.IsDir (Info job))
          && (GoPath.Size (Info job) <? 10 * 1024 * 1024)
       then match hashFile (JobPath job) with
            | Some hash => hash
            | None => ""
            end
       else "" |}.

(** The jobs that the walk collects. *)
Definition collectJobs (dir extensions : string) (maxDepth : Z)
    (excludeDirs : string) (tree : GoPath.Node) : list IndexJob :=
  GoPath.Walk
    (visit (parseExtensions extensions) (parseExclude excludeDirs) maxDepth
       (GoStrings.Count (GoPath.Clean dir) "/"))
    dir tree [].

(** [indexDirectory]; [tree] is what the file system holds at [dir]. *)
Definition indexDirectory (dir : string) (withHash : bool) (extensions : string)
    (maxDepth : Z) (excludeDirs : string) (tree : GoPath.Node) : IndexResult :=
  let jobs := collectJobs dir extensions maxDepth excludeDirs tree in
  let arrived := deliver (map (processFile withHash) jobs) in
  {| Files := arrived;
     TotalFiles := Z.of_nat (length arrived);
     TotalSize := foldl (fun total fi => wrap64 (total + Size fi)) 0 arrived;
     Error := "" |}.

(** The number of entries of the result whose path is [path]. *)
Definition entriesFor (path : string) (result : IndexResult) : nat :=
  length (List.filter (fun fi => String.eqb (Path fi) path) (Files result)).

End WithLibraries.

End Indexer.

(** ** TextSearcher *)

Module Search.

Record Match := { File : string; Line : Z; Content : string }.

Record Result := { Matches : list Match; Count : Z; Error : string }.

Section WithRegexp.

(** The [regexp] package and [strings.ToLower]. *)
Variable Regexp : Type.
Variable Compile : string -> Regexp + string.
Variable MatchString : Regexp -> string -> bool.
Variable ToLower : string -> string.

(** The lines [bufio.Scanner] yields for a path, or [None] when [os.Open]
    fails. *)
Variable readLines : string -> option (list string).

(** The test of one line in [searchFile]. *)
Definition lineFound (re : option Regexp) (searchStr : string)
    (ignoreCase isRegex : bool) (line : string) : bool :=
  if isRegex then
    match re with Some r => MatchString r line | None => false end
  else if ignoreCase then GoStrings.Contains (ToLower line) searchStr
  else GoStrings.Contains line searchStr.

(** The scanning loop of [searchFile]; [lineNum] counts the lines read so
    far. *)
Fixpoint scanLines (path : string) (re : option Regexp) (searchStr : string)
    (ignoreCase isRegex : bool) (lineNum : Z) (matches : list Match)
    (lines : list string) : list Match :=
  match lines with
  | [] => matches
  | line :: rest =>
      let lineNum := lineNum + 1 in
      let matches :=
        if lineFound re searchStr ignoreCase isRegex line
        then matches ++ [{| File := path; Line := lineNum; Content := line |}]
        else matches in
      scanLines path re searchStr ignoreCase isRegex lineNum matches rest
  end.

Definition searchFile (path : string) (re : option Regexp) (searchStr : string)
    (ignoreCase isRegex : bool) : list Match :=
  match readLines path with
  | None => []
  | Some lines => scanLines path re searchStr ignoreCase isRegex 0 [] lines
  end.

(** The inner loop of the gathering phase, over the matches of one file. *)
Fixpoint gatherFile (maxResults : Z) (gathered : list Match)
    (matches : list Match) : list Match :=
  match matches with
  | [] => gathered
  | m :: rest =>
      if Z.of_nat (length gathered) >=? maxResults then gathered
      else gatherFile maxResults (gathered ++ [m]) rest
  end.

(** The outer loop, over the per-file results in the order in which they
    arrive on the channel. *)
Fixpoint gather (maxResults : Z) (gathered : list Match)
    (results : list (list Match)) : list Match :=
  match results with
  | [] => gathered
  | matches :: rest =>
      let gathered := gatherFile maxResults gathered matches in
      if Z.of_nat (length gathered) >=? maxResults then gathered
      else gather maxResults gathered rest
  end.

(** [search], after the walk: [arrival] lists the paths the walk kept, in
    the order in which the workers deliver their results. *)
Definition search (pattern : string) (isRegex ignoreCase : bool)
    (maxResults : Z) (arrival : list string) : Result :=
  let compiled :=
    if isRegex
    then match Compile (if ignoreCase then "(?i)" +:+ pattern else pattern) with
         | inl re => inl (Some re, "")
         | inr err => inr err
         end
    else inl (None, if ignoreCase then ToLower pattern else pattern) in
  match compiled with
  | inr err => {| Matches := []; Count := 0; Error := "Invalid regex: " +:+ err |}
  | inl (re, searchStr) =>
      let results :=
        map (fun path => searchFile path re searchStr ignoreCase isRegex) arrival in
      let matches := gather maxResults [] results in
      {| Matches := matches; Count := Z.of_nat (length matches); Error := "" |}
  end.

(** *** The walk of [search] *)

(** [filepath.Match pattern name]; the callback drops its error, so a
    malformed pattern matches nothing. *)
Variable GlobMatch : string -> string -> bool.

(** The order in which the workers deliver the results of the files. *)
Variable deliver : list string -> list string.

(** The extensions that the callback takes for binary files. *)
Definition binaryExts : gset string :=
  list_to_set
    [".exe"; ".bin"; ".so"; ".dylib"; ".dll"; ".o"; ".a"; ".pyc"; ".class";
     ".jar"; ".zip"; ".tar"; ".gz"; ".png"; ".jpg"; ".jpeg"; ".gif"; ".pdf";
     ".mp3"; ".mp4"].

(** The test on the name of a directory. *)
Definition skippedName (name : string) : bool :=
  negb (String.eqb name ".")
  && (GoStrings.HasPrefix name "." || String.eqb name "node_modules"
      || String.eqb name "__pycache__" || String.eqb name "vendor"
      || String.eqb name "target").

(** The callback given to [filepath.Walk]. *)
Definition visit (filePattern path : string) (info : GoPath.FileInfo)
    (files : list string) : list string * GoPath.WalkAction :=
  if GoPath.IsDir info then
    if skippedName (GoPath.Name info) then (files, GoPath.SkipDir)
    else (files, GoPath.Continue)
  else if negb (String.eqb filePattern "")
          && negb (GlobMatch filePattern (GoPath.Name info))
  then (files, GoPath.Continue)
  else if bool_decide (ToLower (GoPath.Ext path) ∈ binaryExts)
  then (files, GoPath.Continue)
  else (files ++ [path], GoPath.Continue).

(** The files that the walk collects. *)
Definition collectFiles (dir filePattern : string) (tree : GoPath.Node)
    : list string :=
  GoPath.Walk (visit filePattern) dir tree [].

(** [search] with its walk; [tree] is what the file system holds at
    [dir]. *)
Definition searchDir (dir pattern : string) (isRegex ignoreCase : bool)
    (filePattern : string) (maxResults : Z) (tree : GoPath.Node) : Result :=
  search pattern isRegex ignoreCase maxResults
    (deliver (collectFiles dir filePattern tree)).

(** A directory that the callback skips, and a file that passes the tests of
    the callback. *)
Definition skippedDir (dir : string * GoPath.FileInfo) : bool :=
  skippedName (GoPath.Name (snd dir)).

Definition searched (filePattern : string)
    (file : string * GoPath.FileInfo * list (string * GoPath.FileInfo)) : bool :=
  GoPath.reached skippedDir file
  && (String.eqb filePattern ""
      || GlobMatch filePattern (GoPath.Name (snd (fst file))))
  && negb (bool_decide (ToLower (GoPath.Ext (fst (fst file))) ∈ binaryExts)).

(** The request matches a line: what [searchFile] tests, in terms of the
    arguments of [search]. *)
Definition lineMatches (pattern : string) (isRegex ignoreCase : bool)
    (line : string) : bool :=
  if isRegex then
    match Compile (if ignoreCase then "(?i)" +:+ pattern else pattern) with
    | inl re => MatchString re line
    | inr _ => false
    end
  else if ignoreCase then GoStrings.Contains (ToLower line) (ToLower pattern)
  else GoStrings.Contains line pattern.

End WithRegexp.

End Search.

(** ** SymbolExtractor: the code analyzer *)

Module Analyzer.

Record Symbol :=
  { Name : string; Type_ : string; Line : Z; EndLine : Z; Signature : string;
    DocString : string; Parent : string; Decorators : list string }.

Record FileAnalysis :=
  { Path : string; Language : string; Symbols : list Symbol;
    Imports : list string; LineCount : Z; Error : string }.

Record AnalysisResult :=
  { Files : list FileAnalysis; TotalFiles : Z; Duration : string;
    ResultError : string }.

(** A compiled pattern is kept as its source text; a field that the table
    leaves out is a nil pointer, [None]. *)
Record LanguagePatterns :=
  { Function : option string; Class : option string; Method : option string;
    Import : option string; Decorator : option string;
    DocStringPattern : option string; Variable_ : option string }.

Definition dquote : string := String (Ascii.ascii_of_nat 34) EmptyString.

Definition pythonPatterns : LanguagePatterns :=
  {| Function := Some "^(\s*)def\s+(\w+)\s*\((.*?)\).*?:";
     Class := Some "^(\s*)class\s+(\w+)(?:\s*\((.*?)\))?\s*:";
     Method := None;
     Import := Some "^(?:from\s+(\S+)\s+)?import\s+(.+)";
     Decorator := Some "^(\s*)@(\w+(?:\.\w+)*(?:\(.*?\))?)";
     DocStringPattern := None; Variable_ := None |}.

Definition goPatterns : LanguagePatterns :=
  {| Function := Some "^func\s+(?:\((\w+)\s+\*?(\w+)\)\s+)?(\w+)\s*\((.*?)\)";
     Class := None; Method := None;
     Import := Some ("^\s*(?:import\s+)?(?:" +:+ dquote +:+ "([^" +:+ dquote
                     +:+ "]+)" +:+ dquote +:+ "|(\w+)\s+" +:+ dquote +:+ "([^"
                     +:+ dquote +:+ "]+)" +:+ dquote +:+ ")");
     Decorator := None; DocStringPattern := None; Variable_ := None |}.

Definition jsImport : string :=
  "^import\s+(?:\{([^}]+)\}|(\w+))\s+from\s+['" +:+ dquote +:+ "]([^'"
  +:+ dquote +:+ "]+)['" +:+ dquote +:+ "]".

Definition javascriptPatterns : LanguagePatterns :=
  {| Function := Some "^(?:async\s+)?(?:function\s+(\w+)|(?:const|let|var)\s+(\w+)\s*=\s*(?:async\s+)?(?:function|\(.*?\)\s*=>))";
     Class := Some "^class\s+(\w+)(?:\s+extends\s+(\w+))?";
     Method := None; Import := Some jsImport;
     Decorator := None; DocStringPattern := None; Variable_ := None |}.

Definition typescriptPatterns : LanguagePatterns :=
  {| Function := Some "^(?:async\s+)?(?:function\s+(\w+)|(?:const|let|var)\s+(\w+)\s*(?::\s*[^=]+)?\s*=\s*(?:async\s+)?(?:function|\(.*?\)\s*=>))";
     Class := Some "^(?:export\s+)?(?:abstract\s+)?class\s+(\w+)(?:\s+extends\s+(\w+))?";
     Method := None; Import := Some jsImport;
     Decorator := None; DocStringPattern := None; Variable_ := None |}.

(** The map [languagePatterns]; a missing key reads as nil. *)
Definition languagePatterns (language : string) : option LanguagePatterns :=
  if String.eqb language "python" then Some pythonPatterns
  else if String.eqb language "go" then Some goPatterns
  else if String.eqb language "javascript" then Some javascriptPatterns
  else if String.eqb language "typescript" then Some typescriptPatterns
  else None.

Section WithLibraries.

(** [regexp]: [FindStringSubmatch] of the pattern with this source on a line
    ([None] for nil, otherwise the match followed by the groups);
    [strings.ToLower] and [strings.TrimSpace]. *)
Variable FindStringSubmatch : string -> string -> option (list string).
Variable ToLower : string -> string.
Variable TrimSpace : string -> string.

(** [os.Open] followed by the scanner: the lines of the file, or the text of
    the error. *)
Variable openLines : string -> list string + string.

Definition getLanguage (path : string) : string :=
  let ext := ToLower (GoPath.Ext path) in
  if String.eqb ext ".py" then "python"
  else if String.eqb ext ".go" then "go"
  else if String.eqb ext ".js" || String.eqb ext ".jsx" || String.eqb ext ".mjs"
  then "javascript"
  else if String.eqb ext ".ts" || String.eqb ext ".tsx" then "typescript"
  else "".

(** The variables of the scanning loop, with the two lists of the analysis
    that it appends to. *)
Record ScanState :=
  { lineNum : Z; currentClass : string; pendingDecorators : list string;
    inMultilineImport : bool; importBuffer : string;
    symbols : list Symbol; imports : list string }.

Definition find (pattern : option string) (line : string) : option (list string) :=
  match pattern with
  | None => None
  | Some p => FindStringSubmatch p line
  end.

(** [matches[i]]. *)
Definition group (matches : list string) (i : nat) : string := nth i matches "".

Definition firstByteIsNot (line : string) (c : ascii) : bool :=
  match line with
  | EmptyString => false
  | String d _ => negb (Ascii.eqb d c)
  end.

(** The tail of the loop body, reached when no pattern claimed the line. *)
Definition otherLine (language line trimmedLine : string) (st : ScanState)
    : ScanState :=
  let pending :=
    if (0 <? Z.of_nat (length (pendingDecorators st)))
       && negb (GoStrings.HasPrefix trimmedLine "@")
    then [] else pendingDecorators st in
  let current :=
    if String.eqb language "python" && negb (String.eqb (currentClass st) "")
       && (negb (String.eqb line "") && firstByteIsNot line " "
           && firstByteIsNot line (Ascii.ascii_of_nat 9)
           && negb (GoStrings.HasPrefix trimmedLine "#"))
    then "" else currentClass st in
  {| lineNum := lineNum st; currentClass := current; pendingDecorators := pending;
     inMultilineImport := inMultilineImport st; importBuffer := importBuffer st;
     symbols := symbols st; imports := imports st |}.

(** The function branch of the loop body. *)
Definition functionLine (language symbolTypeFilter : string)
    (matches : list string) (st : ScanState) : ScanState :=
  let '(name, signature, isMethod, current) :=
    if String.eqb language "python" then
      (group matches 2, group matches 3,
       (0 <? Z.of_nat (String.length (group matches 1)))
       && negb (String.eqb (currentClass st) ""),
       currentClass st)
    else if String.eqb language "go" then
      if negb (String.eqb (group matches 1) "")
      then (group matches 3, group matches 4, true, group matches 2)
      else (group matches 3, group matches 4, false, currentClass st)
    else
      if negb (String.eqb (group matches 1) "")
      then (group matches 1, "", false, currentClass st)
      else (group matches 2, "", false, currentClass st) in
  let symType := if isMethod then "method" else "function" in
  let syms :=
    if String.eqb symbolTypeFilter "" || String.eqb symbolTypeFilter symType
    then symbols st
         ++ [{| Name := name; Type_ := symType; Line := lineNum st; EndLine := 0;
                Signature := signature; DocString := "";
                Parent := if isMethod then current else "";
                Decorators := pendingDecorators st |}]
    else symbols st in
  {| lineNum := lineNum st; currentClass := current; pendingDecorators := [];
     inMultilineImport := inMultilineImport st; importBuffer := importBuffer st;
     symbols := syms; imports := imports st |}.

(** The class branch. *)
Definition classLine (language symbolTypeFilter : string)
    (matches : list string) (st : ScanState) : ScanState :=
  let indent :=
    if (1 <? Z.of_nat (length matches))
    then Z.of_nat (String.length (group matches 1)) else 0 in
  let className :=
    if String.eqb language "javascript" || String.eqb language "typescript"
    then group matches 1 else group matches 2 in
  let current := if indent =? 0 then className else currentClass st in
  let syms :=
    if String.eqb symbolTypeFilter "" || String.eqb symbolTypeFilter "class"
    then symbols st
         ++ [{| Name := className; Type_ := "class"; Line := lineNum st;
                EndLine := 0; Signature := ""; DocString := ""; Parent := "";
                Decorators := pendingDecorators st |}]
    else symbols st in
  {| lineNum := lineNum st; currentClass := current; pendingDecorators := [];
     inMultilineImport := inMultilineImport st; importBuffer := importBuffer st;
     symbols := syms; imports := imports st |}.

(** The import branch. *)
Definition importLine (symbolTypeFilter line trimmedLine : string)
    (st : ScanState) : ScanState :=
  if GoStrings.Contains line "(" && negb (GoStrings.Contains line ")")
  then {| lineNum := lineNum st; currentClass := currentClass st;
          pendingDecorators := pendingDecorators st;
          inMultilineImport := true; importBuffer := trimmedLine;
          symbols := symbols st; imports := imports st |}
  else
    let syms :=
      if String.eqb symbolTypeFilter "" || String.eqb symbolTypeFilter "import"
      then symbols st
           ++ [{| Name := trimmedLine; Type_ := "import"; Line := lineNum st;
                  EndLine := 0; Signature := ""; DocString := ""; Parent := "";
                  Decorators := [] |}]
      else symbols st in
    {| lineNum := lineNum st; currentClass := currentClass st;
       pendingDecorators := pendingDecorators st;
       inMultilineImport := inMultilineImport st; importBuffer := importBuffer st;
       symbols := syms; imports := imports st ++ [trimmedLine] |}.

(** A line read while a multi-line import is open. *)
Definition continuationLine (trimmedLine : string) (st : ScanState) : ScanState :=
  let buffer := importBuffer st +:+ " " +:+ trimmedLine in
  if GoStrings.Contains trimmedLine ")"
  then {| lineNum := lineNum st; currentClass := currentClass st;
          pendingDecorators := pendingDecorators st;
          inMultilineImport := false; importBuffer := "";
          symbols := symbols st; imports := imports st ++ [TrimSpace buffer] |}
  else {| lineNum := lineNum st; currentClass := currentClass st;
          pendingDecorators := pendingDecorators st;
          inMultilineImport := true; importBuffer := buffer;
          symbols := symbols st; imports := imports st |}.

(** One iteration of the scanning loop. *)
Definition scanLine (language symbolTypeFilter : string)
    (patterns : LanguagePatterns) (st : ScanState) (line : string) : ScanState :=
  let st :=
    {| lineNum := lineNum st + 1; currentClass := currentClass st;
       pendingDecorators := pendingDecorators st;
       inMultilineImport := inMultilineImport st; importBuffer := importBuffer st;
       symbols := symbols st; imports := imports st |} in
  let trimmedLine := TrimSpace line in
  if String.eqb trimmedLine "" then st
  else if inMultilineImport st then continuationLine trimmedLine st
  else
    match find (Decorator patterns) line with
    | Some matches =>
        {| lineNum := lineNum st; currentClass := currentClass st;
           pendingDecorators := pendingDecorators st ++ [group matches 2];
           inMultilineImport := inMultilineImport st;
           importBuffer := importBuffer st;
           symbols := symbols st; imports := imports st |}
    | None =>
        match find (Import patterns) line with
        | Some _ => importLine symbolTypeFilter line trimmedLine st
        | None =>
            match find (Class patterns) line with
            | Some matches => classLine language symbolTypeFilter matches st
            | None =>
                match find (Function patterns) line with
                | Some matches => functionLine language symbolTypeFilter matches st
                | None => otherLine language line trimmedLine st
                end
            end
        end
    end.

Definition analyzeFile (path symbolTypeFilter : string) : FileAnalysis :=
  let language := getLanguage path in
  match openLines path with
  | inr err =>
      {| Path := path; Language := language; Symbols := []; Imports := [];
         LineCount := 0; Error := err |}
  | inl lines =>
      match languagePatterns language with
      | None =>
          {| Path := path; Language := language; Symbols := []; Imports := [];
             LineCount := 0; Error := "" |}
      | Some patterns =>
          let st :=
            foldl (scanLine language symbolTypeFilter patterns)
              {| lineNum := 0; currentClass := ""; pendingDecorators := [];
                 inMultilineImport := false; importBuffer := "";
                 symbols := []; imports := [] |}
              lines in
          {| Path := path; Language := language; Symbols := symbols st;
             Imports := imports st; LineCount := lineNum st; Error := "" |}
      end
  end.

(** *** [analyze]: one file, or the files of a directory *)

(** The order in which the workers deliver the analyses. *)
Variable deliver : list FileAnalysis -> list FileAnalysis.

(** The extension filter: nil when the flag is empty. *)
Definition parseExtensions (extensions : string) : option (gset string) :=
  if String.eqb extensions "" then None
  else
    Some (list_to_set
            (map (fun ext =>
                    let ext := TrimSpace ext in
                    let ext := if GoStrings.HasPrefix ext "." then ext
                               else "." +:+ ext in
                    ToLower ext)
                 (GoStrings.splitOn "," extensions))).

(** The test on the name of a directory, and the depth test. *)
Definition skippedName (name : string) : bool :=
  negb (String.eqb name ".")
  && (GoStrings.HasPrefix name "." || String.eqb name "node_modules"
      || String.eqb name "__pycache__" || String.eqb name "vendor").

Definition tooDeep (maxDepth baseDepth : Z) (p : string) : bool :=
  (maxDepth >=? 0)
  && (GoStrings.Count (GoPath.Clean p) "/" - baseDepth >? maxDepth).

(** The test of the extension of a file. *)
Definition extensionKept (extFilter : option (gset string)) (p : string) : bool :=
  match extFilter with
  | None => true
  | Some filter => bool_decide (ToLower (GoPath.Ext p) ∈ filter)
  end.

(** The callback given to [filepath.Walk]. *)
Definition visit (extFilter : option (gset string)) (maxDepth baseDepth : Z)
    (p : string) (info : GoPath.FileInfo) (files : list string)
    : list string * GoPath.WalkAction :=
  if GoPath.IsDir info then
    if skippedName (GoPath.Name info) then (files, GoPath.SkipDir)
    else if tooDeep maxDepth baseDepth p then (files, GoPath.SkipDir)
    else (files, GoPath.Continue)
  else if negb (extensionKept extFilter p) then (files, GoPath.Continue)
  else if negb (String.eqb (getLanguage p) "")
  then (files ++ [p], GoPath.Continue)
  else (files, GoPath.Continue).

(** The paths that [analyze] hands to the workers: the files the walk keeps
    when [path] is a directory, [path] itself otherwise. *)
Definition collectFiles (path extensions : string) (maxDepth : Z)
    (node : GoPath.Node) : list string :=
  match node with
  | GoPath.Dir _ _ _ =>
      GoPath.Walk
        (visit (parseExtensions extensions) maxDepth
           (GoStrings.Count (GoPath.Clean path) "/"))
        path node []
  | GoPath.File _ _ => [path]
  end.

(** [analyze]; [found] is what [os.Stat] finds at [path], or the text of its
    error. *)
Definition analyze (path extensions symbolType : string) (maxDepth : Z)
    (found : GoPath.Node + string) : AnalysisResult :=
  match found with
  | inr err =>
      {| Files := []; TotalFiles := 0; Duration := "";
         ResultError := "Cannot access path: " +:+ err |}
  | inl node =>
      let files := collectFiles path extensions maxDepth node in
      let arrived := deliver (map (fun f => analyzeFile f symbolType) files) in
      {| Files := arrived; TotalFiles := Z.of_nat (length arrived);
         Duration := ""; ResultError := "" |}
  end.

(** A directory that the callback skips. *)
Definition skippedDir (maxDepth baseDepth : Z)
    (dir : string * GoPath.FileInfo) : bool :=
  skippedName (GoPath.Name (snd dir)) || tooDeep maxDepth baseDepth (fst dir).

(** A file of a directory that [analyze] hands to the workers: no directory
    above it is skipped, its extension passes the filter, and its language
    is known. *)
Definition kept (extFilter : option (gset string)) (maxDepth baseDepth : Z)
    (file : string * GoPath.FileInfo * list (string * GoPath.FileInfo)) : bool :=
  GoPath.reached (skippedDir maxDepth baseDepth) file
  && extensionKept extFilter (fst (fst file))
  && negb (String.eqb (getLanguage (fst (fst file))) "").

(** The pattern behind a symbol of a given type. *)
Definition symbolPattern (patterns : LanguagePatterns) (type : string)
    : option string :=
  if String.eqb type "import" then Import patterns
  else if String.eqb type "class" then Class patterns
  else if String.eqb type "function" || String.eqb type "method"
  then Function patterns
  else None.

End WithLibraries.

End Analyzer.

(** ** SymbolResolver *)

Module Resolver.

Record Location :=
  { File : string; Line : Z; Column : Z; Text : string }.

Record Symbol :=
  { Name : string; Type_ : string; Definition_ : option Location;
    References : list Location }.

Record Result :=
  { Symbols : list Symbol; TotalRefs : Z; FilesCount : Z; Error : string }.

(** The local type [match] of [resolve]. *)
Record match_ := { loc : Location; isDef : bool }.

(** The map [defPatterns], each pattern kept as its source text; a missing
    key reads as the nil slice. *)
Definition defPatterns (lang : string) : list string :=
  if String.eqb lang "python"
  then ["^\s*def\s+(\w+)"; "^\s*class\s+(\w+)"]
  else if String.eqb lang "go"
  then ["^func\s+(\w+)\s*\("; "^func\s+\([^)]+\)\s+(\w+)\s*\("; "^type\s+(\w+)"]
  else if String.eqb lang "javascript"
  then ["^function\s+(\w+)"; "^class\s+(\w+)"; "^(?:const|let|var)\s+(\w+)\s*="]
  else [].

Section WithLibraries.

(** [regexp]: [FindStringSubmatch] and [MatchString] of the pattern with
    this source, and [QuoteMeta]; [strings.ToLower] and
    [strings.TrimSpace]. *)
Variable FindStringSubmatch : string -> string -> option (list string).
Variable MatchString : string -> string -> bool.
Variable QuoteMeta : string -> string.
Variable ToLower : string -> string.
Variable TrimSpace : string -> string.

(** The lines the scanner yields for a path, or [None] when [os.Open]
    fails. *)
Variable readLines : string -> option (list string).

Definition getLang (p : string) : string :=
  let ext := ToLower (GoPath.Ext p) in
  if String.eqb ext ".py" then "python"
  else if String.eqb ext ".go" then "go"
  else if String.eqb ext ".js" || String.eqb ext ".jsx" || String.eqb ext ".ts"
          || String.eqb ext ".tsx"
  then "javascript"
  else "".

(** The loop over the patterns: some pattern matches the line with a first
    group equal to [name]. *)
Fixpoint definesName (patterns : list string) (line name : string) : bool :=
  match patterns with
  | [] => false
  | p :: rest =>
      match FindStringSubmatch p line with
      | Some m =>
          if (1 <? Z.of_nat (length m)) && String.eqb (nth 1 m "") name
          then true else definesName rest line name
      | None => definesName rest line name
      end
  end.

(** The scanning loop of [searchFile]. *)
Fixpoint scanLines (path name : string) (patterns : list string)
    (refRe : string) (lineNum : Z) (matches : list match_)
    (lines : list string) : list match_ :=
  match lines with
  | [] => matches
  | line :: rest =>
      let lineNum := lineNum + 1 in
      let here :=
        {| File := path; Line := lineNum;
           Column := GoStrings.Index line name + 1; Text := TrimSpace line |} in
      let matches :=
        if definesName patterns line name
        then matches ++ [{| loc := here; isDef := true |}]
        else if MatchString refRe line
        then matches ++ [{| loc := here; isDef := false |}]
        else matches in
      scanLines path name patterns refRe lineNum matches rest
  end.

Definition searchFile (path name : string) : list match_ :=
  match readLines path with
  | None => []
  | Some lines =>
      scanLines path name (defPatterns (getLang path))
        ("\b" +:+ QuoteMeta name +:+ "\b") 0 [] lines
  end.

(** The body of the gathering loop of [resolve], for one match. *)
Definition gatherMatch (sym : Symbol) (m : match_) : Symbol :=
  match isDef m, Definition_ sym with
  | true, None =>
      {| Name := Name sym; Type_ := Type_ sym; Definition_ := Some (loc m);
         References := References sym |}
  | _, _ =>
      {| Name := Name sym; Type_ := Type_ sym; Definition_ := Definition_ sym;
         References := References sym ++ [loc m] |}
  end.

(** [resolve], after the walk: [files] are the paths the walk kept,
    [arrival] the same paths in the order in which the workers deliver
    their results. *)
Definition resolve (name : string) (files arrival : list string) : Result :=
  let results := map (fun f => searchFile f name) arrival in
  let sym :=
    foldl (fun sym matches => foldl gatherMatch sym matches)
      {| Name := name; Type_ := ""; Definition_ := None; References := [] |}
      results in
  {| Symbols := [sym]; TotalRefs := Z.of_nat (length (References sym));
     FilesCount := Z.of_nat (length files); Error := "" |}.

(** The symbol record of a result. *)
Definition resolved (r : Result) : Symbol :=
  nth 0 (Symbols r)
    {| Name := ""; Type_ := ""; Definition_ := None; References := [] |}.

(** *** The walk of [resolve] *)

(** The order in which the workers deliver the results of the files. *)
Variable deliver : list string -> list string.

(** The extension filter: nil when the flag is empty; the entries are
    trimmed and dotted, and kept in the case in which they are given. *)
Definition parseExtensions (extensions : string) : option (gset string) :=
  if String.eqb extensions "" then None
  else
    Some (list_to_set
            (map (fun e =>
                    let e := TrimSpace e in
                    if GoStrings.HasPrefix e "." then e else "." +:+ e)
                 (GoStrings.splitOn "," extensions))).

(** The test on the name of a directory. *)
Definition skippedName (n : string) : bool :=
  negb (String.eqb n ".")
  && (GoStrings.HasPrefix n "." || String.eqb n "node_modules"
      || String.eqb n "__pycache__").

(** The test of the extension of a file. *)
Definition extensionKept (extFilter : option (gset string)) (p : string) : bool :=
  match extFilter with
  | None => true
  | Some filter => bool_decide (ToLower (GoPath.Ext p) ∈ filter)
  end.

(** The callback given to [filepath.Walk] (entries are all readable, so its
    [err] is nil). *)
Definition visit (extFilter : option (gset string)) (p : string)
    (info : GoPath.FileInfo) (files : list string)
    : list string * GoPath.WalkAction :=
  if GoPath.IsDir info then
    if skippedName (GoPath.Name info) then (files, GoPath.SkipDir)
    else (files, GoPath.Continue)
  else if negb (extensionKept extFilter p) then (files, GoPath.Continue)
  else if negb (String.eqb (getLang p) "") then (files ++ [p], GoPath.Continue)
  else (files, GoPath.Continue).

(** The files that the walk collects. *)
Definition collectFiles (dir extensions : string) (tree : GoPath.Node)
    : list string :=
  GoPath.Walk (visit (parseExtensions extensions)) dir tree [].

(** [resolve] with its walk; [tree] is what the file system holds at
    [dir]. *)
Definition resolveDir (name dir extensions : string) (tree : GoPath.Node)
    : Result :=
  let files := collectFiles dir extensions tree in
  resolve name files (deliver files).

(** A directory that the callback skips. *)
Definition skippedDir (dir : string * GoPath.FileInfo) : bool :=
  skippedName (GoPath.Name (snd dir)).

(** A file that the walk hands to the workers: no directory above it is
    skipped, its extension passes the filter, and its language is known. *)
Definition kept (extFilter : option (gset string))
    (file : string * GoPath.FileInfo * list (string * GoPath.FileInfo)) : bool :=
  GoPath.reached skippedDir file
  && extensionKept extFilter (fst (fst file))
  && negb (String.eqb (getLang (fst (fst file))) "").

End WithLibraries.

End Resolver.

(** ** DiffEngine: two-file line diff *)

Module Diff.

Record DiffHunk :=
  { OldStart : Z; OldCount : Z; NewStart : Z; NewCount : Z;
    Lines : list string }.

(** Go's [int] on the 64-bit platforms the tools are built for: arithmetic
    on values that come from the [-context] flag wraps around.  Indices into
    the two slices and counters bounded by their lengths are natural
    numbers. *)
Definition wrap (x : Z) : Z := (x + 2 ^ 63) mod 2 ^ 64 - 2 ^ 63.

Definition max (a b : Z) : Z := if a >? b then a else b.

Section ComputeDiff.

Variables old new : list string.
Variable ctx : Z.

(** [i < len(old) && j < len(new) && old[i] == new[j]]. *)
Definition sameAt (i j : nat) : bool :=
  (i <? length old)%nat && (j <? length new)%nat
  && String.eqb (nth i old "") (nth j new "").

(** The loop that advances over identical lines. *)
Fixpoint skipEqual (fuel : nat) (i j : nat) : option (nat * nat) :=
  match fuel with
  | O => None
  | S fuel =>
      if sameAt i j then skipEqual fuel (S i) (S j) else Some (i, j)
  end.

(** The loop that counts [match], the run of identical lines ahead; [k] is
    its counter and equals [match] throughout. *)
Fixpoint countMatch (fuel : nat) (i j k : nat) : option nat :=
  match fuel with
  | O => None
  | S fuel =>
      if sameAt (i + k) (j + k) then countMatch fuel i j (S k) else Some k
  end.

(** The loop that emits up to [ctx] trailing context lines before a hunk is
    closed. *)
Fixpoint trailing (fuel : nat) (k : Z) (lines : list string) (i j : nat)
    : option (list string * nat * nat) :=
  match fuel with
  | O => None
  | S fuel =>
      if (k <? ctx) && (i <? length old)%nat
      then trailing fuel (k + 1) (lines ++ [" " +:+ nth i old ""]) (S i) (S j)
      else Some (lines, i, j)
  end.

(** The inner loop, over one divergent region; [loopFuel] bounds the loops
    it contains. *)
Fixpoint changes (loopFuel fuel : nat) (lines : list string) (i j : nat)
    : option (list string * nat * nat) :=
  match fuel with
  | O => None
  | S fuel =>
      if (i <? length old)%nat || (j <? length new)%nat then
        if sameAt i j then
          match countMatch loopFuel i j 0 with
          | None => None
          | Some matched =>
              if Z.of_nat matched >? wrap (ctx * 2)
              then trailing loopFuel 0 lines i j
              else changes loopFuel fuel (lines ++ [" " +:+ nth i old ""]) (S i) (S j)
          end
        else if (i <? length old)%nat
        then changes loopFuel fuel (lines ++ ["-" +:+ nth i old ""]) (S i) j
        else if (j <? length new)%nat
        then changes loopFuel fuel (lines ++ ["+" +:+ nth j new ""]) i (S j)
        else changes loopFuel fuel lines i j
      else Some (lines, i, j)
  end.

(** The leading context: [for k := start; k < i; k++]. *)
Definition leading (start : Z) (i : nat) : list string :=
  map (fun k => " " +:+ nth k old "")
      (seq (Z.to_nat start) (Z.to_nat (Z.of_nat i - start))).

(** The outer loop. *)
Fixpoint hunksLoop (loopFuel fuel : nat) (hunks : list DiffHunk) (i j : nat)
    : option (list DiffHunk) :=
  match fuel with
  | O => None
  | S fuel =>
      if (i <? length old)%nat || (j <? length new)%nat then
        match skipEqual loopFuel i j with
        | None => None
        | Some (i, j) =>
            if (length old <=? i)%nat && (length new <=? j)%nat then Some hunks
            else
              let start := max 0 (wrap (Z.of_nat i - ctx)) in
              match changes loopFuel loopFuel (leading start i) i j with
              | None => None
              | Some (lines, i, j) =>
                  let hunks :=
                    if (0 <? length lines)%nat
                    then hunks
                         ++ [{| OldStart := wrap (start + 1);
                                OldCount := wrap (Z.of_nat i - start);
                                NewStart := wrap (start + 1);
                                NewCount := wrap (Z.of_nat j - start);
                                Lines := lines |}]
                    else hunks in
                  hunksLoop loopFuel fuel hunks i j
              end
        end
      else Some hunks
  end.

(** [computeDiff]; [None] would mean that a loop ran out of fuel. *)
Definition computeDiff : option (list DiffHunk) :=
  let fuel := S (length old + length new) in
  hunksLoop fuel fuel [] 0%nat 0%nat.

End ComputeDiff.

Definition newline : string := String (Ascii.ascii_of_nat 10) EmptyString.

(** [generatePatch]. *)
Definition generatePatch (oldPath newPath : string) (hunks : list DiffHunk)
    : string :=
  foldl (fun sb h =>
           foldl (fun sb l => sb +:+ l +:+ newline)
                 (sb +:+ "@@ -" +:+ GoStrings.Itoa (OldStart h) +:+ ","
                  +:+ GoStrings.Itoa (OldCount h) +:+ " +"
                  +:+ GoStrings.Itoa (NewStart h) +:+ ","
                  +:+ GoStrings.Itoa (NewCount h) +:+ " @@" +:+ newline)
                 (Lines h))
        ("--- " +:+ oldPath +:+ newline +:+ "+++ " +:+ newPath +:+ newline)
        hunks.

(** *** [generateDiff] and the [diff] case of [main] *)

Record FileDiff :=
  { OldFile : string; NewFile : string; Hunks : list DiffHunk }.

Record DiffResult :=
  { Success : bool; Diff_ : FileDiff; Patch : string; Error : string }.

(** A result that carries an error only. *)
Definition failure (err : string) : DiffResult :=
  {| Success := false;
     Diff_ := {| OldFile := ""; NewFile := ""; Hunks := [] |};
     Patch := ""; Error := err |}.

Section GenerateDiff.

(** [readLines]: the lines the scanner yields for a path, or the text of the
    error of [os.Open] or of the scanner. *)
Variable readLines : string -> list string + string.

(** [generateDiff]; [None] would mean that a loop of [computeDiff] ran out
    of fuel. *)
Definition generateDiff (oldPath newPath : string) (contextLines : Z)
    : option DiffResult :=
  match readLines oldPath with
  | inr err => Some (failure err)
  | inl oldLines =>
      match readLines newPath with
      | inr err => Some (failure err)
      | inl newLines =>
          match computeDiff oldLines newLines contextLines with
          | None => None
          | Some hunks =>
              Some {| Success := true;
                      Diff_ := {| OldFile := oldPath; NewFile := newPath;
                                  Hunks := hunks |};
                      Patch := generatePatch oldPath newPath hunks;
                      Error := "" |}
          end
      end
  end.

(** The [diff] case of [main]. *)
Definition diffMode (oldFile newFile : string) (context : Z)
    : option DiffResult :=
  if negb (String.eqb oldFile "") && negb (String.eqb newFile "")
  then generateDiff oldFile newFile context
  else Some (failure "-old and -new required").

End GenerateDiff.

(** *** Reading a hunk *)

(** The length of the run of identical lines at the head of two
    sequences. *)
Fixpoint commonPrefix (a b : list string) : nat :=
  match a, b with
  | x :: a', y :: b' => if String.eqb x y then S (commonPrefix a' b') else O
  | _, _ => O
  end.

(** The number of lines of a hunk that belong to the old file (context or
    removed), and to the new file (context or added). *)
Definition hasTag (tag : ascii) (line : string) : bool :=
  match line with
  | EmptyString => false
  | String c _ => Ascii.eqb c tag
  end.

Definition oldTagged (lines : list string) : Z :=
  Z.of_nat (length (List.filter (fun l => hasTag " " l || hasTag "-" l) lines)).

Definition newTagged (lines : list string) : Z :=
  Z.of_nat (length (List.filter (fun l => hasTag " " l || hasTag "+" l) lines)).

(** Applying the tagged lines of a hunk at the head of [rest], the part of
    the old file that starts at the hunk: a context line must be the next
    old line and is kept, a removed line must be the next old line and is
    dropped, an added line is emitted.  The result is the text produced and
    what remains of the old file. *)
Fixpoint applyLines (lines rest : list string)
    : option (list string * list string) :=
  match lines with
  | [] => Some ([], rest)
  | EmptyString :: _ => None
  | String tag text :: lines' =>
      if Ascii.eqb tag " " then
        match rest with
        | r :: rest' =>
            if String.eqb r text
            then match applyLines lines' rest' with
                 | Some (out, remaining) => Some (text :: out, remaining)
                 | None => None
                 end
            else None
        | [] => None
        end
      else if Ascii.eqb tag "-" then
        match rest with
        | r :: rest' => if String.eqb r text then applyLines lines' rest' else None
        | [] => None
        end
      else if Ascii.eqb tag "+" then
        match applyLines lines' rest with
        | Some (out, remaining) => Some (text :: out, remaining)
        | None => None
        end
      else None
  end.

(** Applying hunks in order, reading each by its old side alone: the new
    start and the new count are not looked at, and every line of the hunk
    is applied.  [pos] old lines are already behind, [rest] are the old
    lines from there on.  A hunk is located by its old start (a 1-based line
    number) and must carry as many context and removed lines as its old
    count says: the old lines before it are copied, then its tagged lines
    are applied; after the last hunk the remaining old lines are copied.
    This is not how a reader of a unified patch proceeds, see [hunkBody]
    below. *)
Fixpoint applyHunks (hunks : list DiffHunk) (pos : Z) (rest : list string)
    : option (list string) :=
  match hunks with
  | [] => Some rest
  | h :: hunks' =>
      let gap := OldStart h - 1 - pos in
      if (gap <? 0) || (Z.of_nat (length rest) <? gap)
         || negb (OldCount h =? oldTagged (Lines h))
      then None
      else
        match applyLines (Lines h) (skipn (Z.to_nat gap) rest) with
        | None => None
        | Some (out, remaining) =>
            let consumed :=
              Z.of_nat (length rest) - Z.of_nat (length remaining) in
            match applyHunks hunks' (pos + consumed) remaining with
            | None => None
            | Some tail => Some (firstn (Z.to_nat gap) rest ++ out ++ tail)
            end
        end
  end.

Definition applyPatch (hunks : list DiffHunk) (old : list string)
    : option (list string) :=
  applyHunks hunks 0 old.

(** The round trip with that reading: diff [old] against [new], then apply
    the hunks to [old]. *)
Definition roundTrip (old new : list string) (ctx : Z) : option (list string) :=
  match computeDiff old new ctx with
  | None => None
  | Some hunks => applyPatch hunks old
  end.

(** *** Reading a hunk as the unified format has it *)

(** The body of a hunk as its header delimits it.  The header
    [@@ -l,s +l,s @@] gives the number of lines of the hunk that belong to
    the old file (context or removed) and the number that belong to the new
    file (context or added); a reader of the format, such as patch(1),
    takes the lines that follow until it has seen that many of each, and
    what then comes before the next header is not part of the hunk.  A line
    of a kind of which none is left to read, a line without a tag, or lines
    that end too early make the hunk malformed. *)
Fixpoint hunkBody (oldCount newCount : Z) (lines : list string)
    : option (list string) :=
  if (oldCount <=? 0) && (newCount <=? 0) then Some []
  else
    match lines with
    | [] => None
    | EmptyString :: _ => None
    | String tag text :: lines' =>
        let oldLeft :=
          if Ascii.eqb tag " " || Ascii.eqb tag "-" then oldCount - 1
          else oldCount in
        let newLeft :=
          if Ascii.eqb tag " " || Ascii.eqb tag "+" then newCount - 1
          else newCount in
        if negb (Ascii.eqb tag " " || Ascii.eqb tag "-" || Ascii.eqb tag "+")
           || (oldLeft <? 0) || (newLeft <? 0)
        then None
        else
          match hunkBody oldLeft newLeft lines' with
          | Some body => Some (String tag text :: body)
          | None => None
          end
    end.

(** Applying hunks in order, each at its old start and with the body that
    its header delimits. *)
Fixpoint applyUnifiedFrom (hunks : list DiffHunk) (pos : Z) (rest : list string)
    : option (list string) :=
  match hunks with
  | [] => Some rest
  | h :: hunks' =>
      let gap := OldStart h - 1 - pos in
      if (gap <? 0) || (Z.of_nat (length rest) <? gap) then None
      else
        match hunkBody (OldCount h) (NewCount h) (Lines h) with
        | None => None
        | Some body =>
            match applyLines body (skipn (Z.to_nat gap) rest) with
            | None => None
            | Some (out, remaining) =>
                let consumed :=
                  Z.of_nat (length rest) - Z.of_nat (length remaining) in
                match applyUnifiedFrom hunks' (pos + consumed) remaining with
                | None => None
                | Some tail => Some (firstn (Z.to_nat gap) rest ++ out ++ tail)
                end
            end
        end
  end.

Definition applyUnified (hunks : list DiffHunk) (old : list string)
    : option (list string) :=
  applyUnifiedFrom hunks 0 old.

(** The round trip of the claim: diff [old] against [new], then apply the
    patch to [old]. *)
Definition unifiedRoundTrip (old new : list string) (ctx : Z)
    : option (list string) :=
  match computeDiff old new ctx with
  | None => None
  | Some hunks => applyUnified hunks old
  end.

End Diff.

(** ** DiffEngine: single-file replace *)

Module Replace.

Record ApplyResult :=
  { Success : bool; FilePath : string; Content : string; Error : string }.

(** The files: the content of every path that can be read, and the paths
    that cannot be opened for writing. *)
Record FileSystem :=
  { contents : gmap string string; readOnly : gset string }.

(** [os.ReadFile]: the content, or the text of the error. *)
Definition ReadFile (fs : FileSystem) (path : string) : string + string :=
  match contents fs !! path with
  | Some s => inl s
  | None => inr ("open " +:+ path +:+ ": no such file or directory")
  end.

(** [os.WriteFile], as far as it is modelled: the files afterwards, and the
    text of the error if the file could not be opened for writing.  Only
    that failure is modelled, and it touches nothing.  [os.WriteFile]
    truncates the file when it opens it and can fail later, leaving a file
    that is cut short; what the files are after a write that failed is
    therefore left out of every statement below. *)
Definition WriteFile (fs : FileSystem) (path data : string)
    : FileSystem * option string :=
  if decide (path ∈ readOnly fs)
  then (fs, Some ("open " +:+ path +:+ ": permission denied"))
  else ({| contents := <[path := data]> (contents fs);
           readOnly := readOnly fs |}, None).

Definition applyReplace (fs : FileSystem) (path oldText newText : string)
    (preview : bool) : ApplyResult * FileSystem :=
  match ReadFile fs path with
  | inr err =>
      ({| Success := false; FilePath := ""; Content := ""; Error := err |}, fs)
  | inl s =>
      if negb (GoStrings.Contains s oldText)
      then ({| Success := false; FilePath := ""; Content := "";
               Error := "Text not found" |}, fs)
      else
        let count := GoStrings.Count s oldText in
        if count >? 1
        then ({| Success := false; FilePath := ""; Content := "";
                 Error := "Found " +:+ GoStrings.Itoa count
                          +:+ " matches, need unique match" |}, fs)
        else
          let newContent := GoStrings.Replace s oldText newText 1 in
          if preview
          then ({| Success := true; FilePath := path; Content := newContent;
                   Error := "" |}, fs)
          else
            match WriteFile fs path newContent with
            | (fs', Some err) =>
                ({| Success := false; FilePath := ""; Content := "";
                    Error := err |}, fs')
            | (fs', None) =>
                ({| Success := true; FilePath := path; Content := "";
                    Error := "" |}, fs')
            end
  end.

(** The [apply] and [preview] cases of [main]. *)
Definition replaceMode (preview : bool) (fs : FileSystem)
    (targetFile oldText newText : string) : ApplyResult * FileSystem :=
  if negb (String.eqb targetFile "") && negb (String.eqb oldText "")
  then applyReplace fs targetFile oldText newText preview
  else ({| Success := false; FilePath := ""; Content := "";
           Error := "-target and -old-text required" |}, fs).

End Replace.

(** ** ChangeWatcher: snapshots and their comparison *)

Module Watcher.

Record FileState := { ModTime : GoTime.Time; Size : Z }.

Record FileEvent :=
  { Type_ : string; Path : string; Timestamp : GoTime.Time; EvSize : Z }.

(** The body of the first [range] loop of [compareStates], for one entry
    [(p, os)] of the old state. *)
Definition oldStep (now : GoTime.Time) (new : gmap string FileState)
    (events : list FileEvent) (entry : string * FileState) : list FileEvent :=
  let '(p, os) := entry in
  match new !! p with
  | None =>
      events ++ [{| Type_ := "deleted"; Path := p; Timestamp := now; EvSize := 0 |}]
  | Some ns =>
      if decide (ModTime ns <> ModTime os)
      then events ++ [{| Type_ := "modified"; Path := p;
                         Timestamp := ModTime ns; EvSize := Size ns |}]
      else events
  end.

(** The body of the second [range] loop, for one entry [(p, s)] of the new
    state. *)
Definition newStep (old : gmap string FileState)
    (events : list FileEvent) (entry : string * FileState) : list FileEvent :=
  let '(p, s) := entry in
  match old !! p with
  | None =>
      events ++ [{| Type_ := "created"; Path := p;
                    Timestamp := ModTime s; EvSize := Size s |}]
  | Some _ => events
  end.

(** [compareStates]: [now] is the reading of [time.Now()]; a Go map is ranged
    over in an unspecified order, here the order of [map_to_list]. *)
Definition compareStates (now : GoTime.Time) (old new : gmap string FileState)
    : list FileEvent :=
  let events := foldl (oldStep now new) [] (map_to_list old) in
  foldl (newStep old) events (map_to_list new).

(** The event kind seen from the other direction. *)
Definition swapKind (k : string) : string :=
  if String.eqb k "created" then "deleted"
  else if String.eqb k "deleted" then "created"
  else k.

(** Some event of [evs] has path [p] and kind [k]. *)
Definition reports (evs : list FileEvent) (p k : string) : Prop :=
  exists e, In e evs /\ Path e = p /\ Type_ e = k.

(** *** Collecting the state of a directory *)

Record SnapshotResult :=
  { SnapshotSuccess : bool; Files : gmap string FileState; SnapshotCount : Z }.

Record WatchResult :=
  { Success : bool; Events : list FileEvent; Count : Z; Error : string }.

Section WithLibraries.

(** [strings.ToLower] and [strings.TrimSpace]. *)
Variable ToLower : string -> string.
Variable TrimSpace : string -> string.

(** [parseExts]: nil when the flag is empty; the entries are trimmed and
    dotted, and kept in the case in which they are given. *)
Definition parseExts (s : string) : option (gset string) :=
  if String.eqb s "" then None
  else
    Some (list_to_set
            (map (fun e =>
                    let e := TrimSpace e in
                    if GoStrings.HasPrefix e "." then e else "." +:+ e)
                 (GoStrings.splitOn "," s))).

Definition parseExclude (s : string) : gset string :=
  list_to_set (map TrimSpace (GoStrings.splitOn "," s)).

Section Collecting.

Variable extFilter : option (gset string).
Variable excludeMap : gset string.

(** The test on the name of a directory, and the test of the extension of a
    file. *)
Definition excludedName (n : string) : bool :=
  negb (String.eqb n ".")
  && (bool_decide (n ∈ excludeMap) || GoStrings.HasPrefix n ".").

Definition extensionKept (p : string) : bool :=
  match extFilter with
  | None => true
  | Some filter => bool_decide (ToLower (GoPath.Ext p) ∈ filter)
  end.

(** The callback given to [filepath.Walk] (entries are all readable, so its
    [err] is nil). *)
Definition visit (p : string) (info : GoPath.FileInfo)
    (state : gmap string FileState)
    : gmap string FileState * GoPath.WalkAction :=
  if GoPath.IsDir info then
    if excludedName (GoPath.Name info) then (state, GoPath.SkipDir)
    else (state, GoPath.Continue)
  else if negb (extensionKept p) then (state, GoPath.Continue)
  else (<[p := {| ModTime := GoPath.ModTime info; Size := GoPath.Size info |}]> state,
        GoPath.Continue).

(** [collectState]; [tree] is what the file system holds at [dir]. *)
Definition collectState (dir : string) (tree : GoPath.Node)
    : gmap string FileState :=
  GoPath.Walk visit dir tree ∅.

Definition takeSnapshot (dir : string) (tree : GoPath.Node) : SnapshotResult :=
  let files := collectState dir tree in
  {| SnapshotSuccess := true; Files := files;
     SnapshotCount := Z.of_nat (size files) |}.

(** [compareSnapshot]; [loaded] is what reading and decoding the snapshot
    file gives: the files of the snapshot, or the text of the error. *)
Definition compareSnapshot (dir : string)
    (loaded : gmap string FileState + string) (tree : GoPath.Node)
    (now : GoTime.Time) : WatchResult :=
  match loaded with
  | inr err => {| Success := false; Events := []; Count := 0; Error := err |}
  | inl old =>
      let current := collectState dir tree in
      let events := compareStates now old current in
      {| Success := true; Events := events;
         Count := Z.of_nat (length events); Error := "" |}
  end.

(** One turn of the loop of [watchFor]: [tick] gives the tree found after
    the sleep and the reading of the clock in [compareStates]. *)
Definition watchStep (dir : string)
    (acc : gmap string FileState * list FileEvent)
    (tick : GoTime.Time * GoPath.Node)
    : gmap string FileState * list FileEvent :=
  let newState := collectState dir (snd tick) in
  (newState, snd acc ++ compareStates (fst tick) (fst acc) newState).

(** The loop of [watchFor]; the clock decides how many turns it takes, one
    for each element of [ticks]. *)
Definition watchLoop (dir : string) (tree : GoPath.Node)
    (ticks : list (GoTime.Time * GoPath.Node))
    : gmap string FileState * list FileEvent :=
  foldl (watchStep dir) (collectState dir tree, []) ticks.

Definition watchFor (dir : string) (tree : GoPath.Node)
    (ticks : list (GoTime.Time * GoPath.Node)) : WatchResult :=
  let allEvents := snd (watchLoop dir tree ticks) in
  {| Success := true; Events := allEvents;
     Count := Z.of_nat (length allEvents); Error := "" |}.

(** A file that the walk records. *)
Definition skippedDir (dir : string * GoPath.FileInfo) : bool :=
  excludedName (GoPath.Name (snd dir)).

Definition tracked
    (file : string * GoPath.FileInfo * list (string * GoPath.FileInfo)) : bool :=
  GoPath.reached skippedDir file && extensionKept (fst (fst file)).

End Collecting.

End WithLibraries.

End Watcher.

(** ** TaskRunner: bounded-parallel execution of shell tasks *)

Module Runner.

Record Task := { ID : string; Command : string; Dir : string }.

Record TaskResult :=
  { rID : string; rCommand : string; Stdout : string; Stderr : string;
    ExitCode : Z; Duration : Z; Success : bool; Error : string }.

Record RunnerResult :=
  { Results : list TaskResult; TotalTasks : Z; SuccessCount : Z;
    FailCount : Z; TotalDuration : Z }.

(** How a subprocess ended, as [os.ProcessState] tells it: it exited with a
    status, or a signal terminated it.  [ProcessState.ExitCode()] is the
    status in the first case and -1 in the second. *)
Inductive ProcessState := Exited (status : Z) | Signaled (signal : Z).

Definition StateExitCode (st : ProcessState) : Z :=
  match st with Exited status => status | Signaled _ => -1 end.

(** The error value of [cmd.Output()]: none, an [*exec.ExitError] (the
    process ran and did not end with status 0; it carries the process state
    and the captured standard error), or any other error, with its text. *)
Inductive OutputError :=
| NoError
| ExitError (st : ProcessState) (stderr : string)
| OtherError (text : string).

(** What one run of [sh -c command] under the deadline gave: the bytes of
    standard output, the error of [cmd.Output()], whether [ctx.Err()] is
    [context.DeadlineExceeded] afterwards, and the elapsed milliseconds. *)
Record Outcome :=
  { outStdout : string; outErr : OutputError; deadlineExceeded : bool;
    elapsedMs : Z }.

(** The operating system: working directory, command text and timeout in
    seconds give the outcome of the subprocess.  This tells what the one
    execution of each task of a run gave; another run may find the file
    system and the clock changed, and nothing below relates two runs. *)
Definition Exec := string -> string -> Z -> Outcome.

Definition runTask (exec : Exec) (task : Task) (timeout : Z)
    (defaultDir : string) : TaskResult :=
  let workDir := if String.eqb (Dir task) "" then defaultDir else Dir task in
  let o := exec workDir (Command task) timeout in
  match outErr o with
  | ExitError st stderr =>
      {| rID := ID task; rCommand := Command task; Stdout := outStdout o;
         Stderr := stderr; ExitCode := StateExitCode st;
         Duration := elapsedMs o; Success := false; Error := "" |}
  | OtherError text =>
      if deadlineExceeded o
      then {| rID := ID task; rCommand := Command task; Stdout := outStdout o;
              Stderr := ""; ExitCode := -1; Duration := elapsedMs o;
              Success := false; Error := "timeout exceeded" |}
      else {| rID := ID task; rCommand := Command task; Stdout := outStdout o;
              Stderr := ""; ExitCode := -1; Duration := elapsedMs o;
              Success := false; Error := text |}
  | NoError =>
      {| rID := ID task; rCommand := Command task; Stdout := outStdout o;
         Stderr := ""; ExitCode := 0; Duration := elapsedMs o;
         Success := true; Error := "" |}
  end.

(** The zero value of [TaskResult], which [make] fills the slice with. *)
Definition zeroResult : TaskResult :=
  {| rID := ""; rCommand := ""; Stdout := ""; Stderr := ""; ExitCode := 0;
     Duration := 0; Success := false; Error := "" |}.

(** What a worker does with index [idx] taken from the [jobs] channel: run
    the task, then, holding the mutex, store the result at [idx] and count
    it.  Only indices of [tasks] are ever sent. *)
Definition workerStep (exec : Exec) (tasks : list Task) (timeout : Z)
    (defaultDir : string) (result : RunnerResult) (idx : nat) : RunnerResult :=
  match tasks !! idx with
  | None => result
  | Some task =>
      let taskResult := runTask exec task timeout defaultDir in
      {| Results := <[idx := taskResult]> (Results result);
         TotalTasks := TotalTasks result;
         SuccessCount := if Success taskResult then SuccessCount result + 1
                         else SuccessCount result;
         FailCount := if Success taskResult then FailCount result
                      else FailCount result + 1;
         TotalDuration := TotalDuration result |}
  end.

(** [runTasks].  The workers take the indices [0 .. len(tasks)-1] from the
    channel and enter the critical section in some order, [schedule], which
    the Go scheduler decides; [wallMs] is the wall-clock reading at the end.
    The number of workers bounds the parallelism only. *)
Definition runTasks (exec : Exec) (tasks : list Task) (maxWorkers timeout : Z)
    (defaultDir : string) (schedule : list nat) (wallMs : Z) : RunnerResult :=
  let maxWorkers := if maxWorkers <=? 0 then 4 else maxWorkers in
  let result :=
    {| Results := repeat zeroResult (length tasks);
       TotalTasks := Z.of_nat (length tasks);
       SuccessCount := 0; FailCount := 0; TotalDuration := 0 |} in
  let result := foldl (workerStep exec tasks timeout defaultDir) result schedule in
  {| Results := Results result; TotalTasks := TotalTasks result;
     SuccessCount := SuccessCount result; FailCount := FailCount result;
     TotalDuration := wallMs |}.

(** *** Where the tasks come from *)

Section WithLibraries.

(** [strings.TrimSpace]. *)
Variable TrimSpace : string -> string.

(** The loop of [loadTasksFromStdin] over the lines that the scanner yields;
    [id] is its counter. *)
Fixpoint stdinLoop (workDir : string) (id : Z) (tasks : list Task)
    (lines : list string) : list Task :=
  match lines with
  | [] => tasks
  | text :: rest =>
      let line := TrimSpace text in
      if negb (String.eqb line "") && negb (GoStrings.HasPrefix line "#")
      then stdinLoop workDir (id + 1)
             (tasks ++ [{| ID := "task_" +:+ GoStrings.Itoa id; Command := line;
                           Dir := workDir |}])
             rest
      else stdinLoop workDir id tasks rest
  end.

(** [loadTasksFromStdin]; [stdin] is what standard input holds.  The error
    of the scanner is not read. *)
Definition loadTasksFromStdin (workDir : string) (stdin : string)
    : list Task :=
  stdinLoop workDir 1 [] (GoBufio.Scan stdin).

(** The loop of [generateTasks]; [i] is the index of the range. *)
Fixpoint generateLoop (commandTemplate workDir : string) (i : Z)
    (tasks : list Task) (files : list string) : list Task :=
  match files with
  | [] => tasks
  | file :: rest =>
      let file := TrimSpace file in
      if String.eqb file "" then generateLoop commandTemplate workDir (i + 1) tasks rest
      else
        let cmd := GoStrings.ReplaceAll commandTemplate "{file}" file in
        let cmd := GoStrings.ReplaceAll cmd "{}" file in
        generateLoop commandTemplate workDir (i + 1)
          (tasks ++ [{| ID := "task_" +:+ GoStrings.Itoa (i + 1); Command := cmd;
                        Dir := workDir |}])
          rest
  end.

Definition generateTasks (commandTemplate filesStr workDir : string)
    : list Task :=
  generateLoop commandTemplate workDir 0 [] (GoStrings.splitOn "," filesStr).

End WithLibraries.

(** A schedule of a run over [n] tasks: every index taken exactly once. *)
Definition fairSchedule (n : nat) (schedule : list nat) : Prop :=
  Permutation schedule (seq 0 n).

End Runner.

(** * Sample inputs *)

(** ** A line of 64 KiB *)

Fixpoint doubled (n : nat) (s : string) : string :=
  match n with
  | O => s
  | S n' => doubled n' (s +:+ s)
  end.

Definition longLine : string := doubled 16 "x".

(** ** A sample file in a language without a pattern table *)

Fixpoint asciiLower (s : string) : string :=
  match s with
  | EmptyString => EmptyString
  | String c rest =>
      let n := Ascii.nat_of_ascii c in
      String (if (65 <=? n)%nat && (n <=? 90)%nat
              then Ascii.ascii_of_nat (n + 32) else c)
             (asciiLower rest)
  end.

Definition notesFile (path : string) : list string + string :=
  if String.eqb path "notes.txt" then inl ["first line"; "second line"]
  else inr ("open " +:+ path +:+ ": no such file or directory").

Definition analyzeNotes : Analyzer.FileAnalysis :=
  Analyzer.analyzeFile (fun _ _ => None) asciiLower (fun s => s) notesFile
    "notes.txt" "".

(** ** A sample Python file *)

(** The content of [a.py]. *)
Definition pyData : string :=
  GoStrings.joinWith Diff.newline ["import os"; "class A:"; "def f(x):"; ""].

(** [a.py], three lines, and [d/a.py], one line. *)
Definition pyLines (path : string) : list string + string :=
  if String.eqb path "a.py" then inl ["import os"; "class A:"; "def f(x):"]
  else if String.eqb path "d/a.py" then inl ["import sys"]
  else inr ("open " +:+ path +:+ ": no such file or directory").

(** What the patterns of the analyzer for Python find on these lines. *)
Definition isPattern (field : option string) (pattern : string) : bool :=
  match field with
  | Some p => String.eqb pattern p
  | None => false
  end.

Definition pySubmatch (pattern line : string) : option (list string) :=
  if isPattern (Analyzer.Import Analyzer.pythonPatterns) pattern
  then if GoStrings.HasPrefix line "import "
       then Some [line; ""; GoStrings.drop 7 line] else None
  else if isPattern (Analyzer.Class Analyzer.pythonPatterns) pattern
  then if GoStrings.HasPrefix line "class " then Some [line; ""; "A"; ""] else None
  else if isPattern (Analyzer.Function Analyzer.pythonPatterns) pattern
  then if GoStrings.HasPrefix line "def " then Some [line; ""; "f"; "x"] else None
  else None.


(** ** A sample tree for the indexer *)

Definition epoch : GoTime.Time :=
  {| GoTime.wall := 0; GoTime.ext := 0; GoTime.loc := 0 |}.

(** [./a.py], [./d/a.py] and [./.git/config]. *)
Definition sampleTree : GoPath.Node :=
  GoPath.Dir 4096 epoch
    [ (".git", GoPath.Dir 4096 epoch [("config", GoPath.File 5 epoch)]);
      ("a.py", GoPath.File 10 epoch);
      ("d", GoPath.Dir 4096 epoch [("a.py", GoPath.File 20 epoch)]) ].

(** The file [d/a.py] of the sample tree, below the root and [d]. *)
Definition deepFile
    : string * GoPath.FileInfo * list (string * GoPath.FileInfo) :=
  ("d/a.py",
   {| GoPath.Name := "a.py"; GoPath.Size := 20; GoPath.ModTime := epoch;
      GoPath.IsDir := false |},
   [ (".", {| GoPath.Name := "."; GoPath.Size := 4096; GoPath.ModTime := epoch;
              GoPath.IsDir := true |});
     ("d", {| GoPath.Name := "d"; GoPath.Size := 4096; GoPath.ModTime := epoch;
              GoPath.IsDir := true |}) ]).

Definition defaultExclude : string := ".git,node_modules,__pycache__,vendor,.venv,venv".

(** The indexer run on the sample tree from [.], with no extension filter
    and the default exclusions; the results arrive in reverse order. *)
Definition sampleIndex (maxDepth : Z) : Indexer.IndexResult :=
  Indexer.indexDirectory asciiLower (fun s => s) (fun _ => None) (@rev _)
    "." false "" maxDepth defaultExclude sampleTree.

(** ** The same instant at two locations *)

(** The first second of 2024, UTC, as decoding a snapshot gives it for the
    text "2024-01-01T00:00:00Z" (the location is UTC, the nil pointer), and
    as [os.Lstat] gives it for a file (the location is [time.Local], a
    pointer that is not nil, whatever the zone of the machine is). *)
Definition localLoc : Z := 6291456.

Definition decodedTime : GoTime.Time :=
  {| GoTime.wall := 0; GoTime.ext := 63839664000; GoTime.loc := 0 |}.

Definition statTime : GoTime.Time :=
  {| GoTime.wall := 0; GoTime.ext := 63839664000; GoTime.loc := localLoc |}.

(** ** Sample watches *)

(** The sample tree after [a.py] has grown by a byte, and after [d/a.py]
    has been removed as well. *)
Definition grownTree : GoPath.Node :=
  GoPath.Dir 4096 epoch
    [ (".git", GoPath.Dir 4096 epoch [("config", GoPath.File 5 epoch)]);
      ("a.py", GoPath.File 11 epoch);
      ("d", GoPath.Dir 4096 epoch [("a.py", GoPath.File 20 epoch)]) ].

Definition prunedTree : GoPath.Node :=
  GoPath.Dir 4096 epoch
    [ (".git", GoPath.Dir 4096 epoch [("config", GoPath.File 5 epoch)]);
      ("a.py", GoPath.File 11 epoch);
      ("d", GoPath.Dir 4096 epoch []) ].

(** A watch of [.] that starts at the sample tree, with no extension filter
    and the default exclusions. *)
Definition sampleWatch (ticks : list (GoTime.Time * GoPath.Node))
    : Watcher.WatchResult :=
  Watcher.watchFor asciiLower None
    (Watcher.parseExclude (fun s => s) ".git,node_modules,__pycache__")
    "." sampleTree ticks.

(** ** A sample search: two files, a literal pattern *)

(** The content of [a.txt]. *)
Definition aTxtData : string :=
  GoStrings.joinWith Diff.newline ["foo"; "bar"; "foo bar"; ""].

Definition sampleLines (path : string) : option (list string) :=
  if String.eqb path "a.txt" then Some ["foo"; "bar"; "foo bar"]
  else if String.eqb path "b.txt" then Some ["no"; "foo"]
  else None.

Definition sampleSearch (maxResults : Z) (arrival : list string) : Search.Result :=
  Search.search unit (fun _ => inl tt) (fun _ _ => false) (fun s => s)
    sampleLines "foo" false false maxResults arrival.

(** The two files in a directory, beside a picture; any name matches the
    file pattern, and the results arrive in reverse order. *)
Definition searchTree : GoPath.Node :=
  GoPath.Dir 4096 epoch
    [ ("a.txt", GoPath.File 12 epoch); ("b.txt", GoPath.File 7 epoch);
      ("c.png", GoPath.File 100 epoch) ].

Definition sampleSearchDir (maxResults : Z) : Search.Result :=
  Search.searchDir unit (fun _ => inl tt) (fun _ _ => false) (fun s => s)
    sampleLines (fun _ _ => true) (@rev _)
    "." "foo" false false "" maxResults searchTree.

(** ** A sample tree for the resolver: [a.py] defines [foo], [b.py] calls it *)

Definition twoPyFiles (path : string) : option (list string) :=
  if String.eqb path "a.py" then Some ["def foo(): pass"]
  else if String.eqb path "b.py" then Some ["foo()"]
  else None.

(** What the regular expressions of the resolver give on the lines of these
    two files. *)
Definition sampleSubmatch (pattern line : string) : option (list string) :=
  if String.eqb pattern "^\s*def\s+(\w+)" && GoStrings.HasPrefix line "def foo"
  then Some ["def foo"; "foo"] else None.

Definition sampleMatch (pattern line : string) : bool :=
  GoStrings.Contains line "foo".

Definition resolveFoo (arrival : list string) : Resolver.Result :=
  Resolver.resolve sampleSubmatch sampleMatch (fun s => s) asciiLower
    (fun s => s) twoPyFiles "foo" ["a.py"; "b.py"] arrival.

(** The resolver on the sample tree, where [a.py] defines [foo] and
    [d/a.py] cannot be read. *)
Definition resolveFooDir : Resolver.Result :=
  Resolver.resolveDir sampleSubmatch sampleMatch (fun s => s) asciiLower
    (fun s => s) twoPyFiles (@rev _) "foo" "." "" sampleTree.

(** ** Sample diffs *)

(** Two files of nine and eight lines: the first line of the old file is
    gone, its last line is changed. *)
Definition oldNine : list string := ["x"; "1"; "2"; "3"; "4"; "5"; "6"; "7"; "c"].
Definition newEight : list string := ["1"; "2"; "3"; "4"; "5"; "6"; "7"; "d"].

(** ** A sample replacement: the old text overlaps itself *)

Definition tripleA : Replace.FileSystem :=
  {| Replace.contents := {[ "f.txt" := "aaa" ]}; Replace.readOnly := ∅ |}.

(** ** Sample runs of the TaskRunner *)

(** A one-second deadline on [sleep 5]: the subprocess is killed. *)
Definition killedExec : Runner.Exec :=
  fun _ _ _ =>
    {| Runner.outStdout := "";
       Runner.outErr := Runner.ExitError (Runner.Signaled 9) "";
       Runner.deadlineExceeded := true; Runner.elapsedMs := 1000 |}.

Definition sleepTask : Runner.Task :=
  {| Runner.ID := "task_1"; Runner.Command := "sleep 5"; Runner.Dir := "" |}.

(** Two tasks, the second finishing first. *)
Definition echoExec : Runner.Exec :=
  fun _ command _ =>
    if String.eqb command "false"
    then {| Runner.outStdout := "";
            Runner.outErr := Runner.ExitError (Runner.Exited 1) "";
            Runner.deadlineExceeded := false; Runner.elapsedMs := 2 |}
    else {| Runner.outStdout := command; Runner.outErr := Runner.NoError;
            Runner.deadlineExceeded := false; Runner.elapsedMs := 1 |}.

Definition twoTasks : list Runner.Task :=
  [ {| Runner.ID := "a"; Runner.Command := "false"; Runner.Dir := "" |};
    {| Runner.ID := "b"; Runner.Command := "true"; Runner.Dir := "/tmp" |} ].

(** * Properties *)

(** ** The scanner *)

(** When every line fits, the scanner yields every line. *)
Lemma fitting_all lines :
  forallb GoBufio.fits lines = true -> GoBufio.fitting lines = lines.
Proof.
  induction lines as [|raw lines IH]; [reflexivity|]. cbn [forallb GoBufio.fitting].
  intros H. apply andb_true_iff in H as [-> H]. now rewrite IH.
Qed.

Lemma Scan_all_fit data :
  forallb GoBufio.fits (GoBufio.rawLines data) = true ->
  GoBufio.Scan data = map GoBufio.dropCR (GoBufio.rawLines data).
Proof. intros H. unfold GoBufio.Scan. now rewrite fitting_all. Qed.

(** Otherwise it yields the lines before the first one that does not fit. *)
Lemma fitting_firstn lines :
  exists k : nat,
    GoBufio.fitting lines = firstn k lines
    /\ forallb GoBufio.fits (firstn k lines) = true
    /\ (forall raw, nth_error lines k = Some raw -> GoBufio.fits raw = false).
Proof.
  induction lines as [|raw lines (k & E & Hall & Hk)].
  - exists O. repeat split. intros raw [=].
  - cbn [GoBufio.fitting]. destruct (GoBufio.fits raw) eqn:Hfit.
    + exists (S k). cbn [firstn forallb nth_error]. rewrite E, Hfit, Hall.
      repeat split. exact Hk.
    + exists O. repeat split. intros r [= <-]. exact Hfit.
Qed.

Example Scan_sample :
  GoBufio.Scan (GoStrings.joinWith Diff.newline ["a"; ""; "b"]) = ["a"; ""; "b"]
  /\ GoBufio.Scan (GoStrings.joinWith Diff.newline ["a"; "b"; ""]) = ["a"; "b"]
  /\ GoBufio.Scan "" = [].
Proof. vm_compute. repeat split. Qed.

(** ** FileIndexer *)

Section IndexerProps.
Import GoPath Indexer.

(** Induction over a file tree, with the property at hand for every entry
    of a directory. *)
Lemma Node_nested_ind (P : Node -> Prop) :
  (forall size modified, P (File size modified)) ->
  (forall size modified entries,
      List.Forall (fun entry => P (snd entry)) entries ->
      P (Dir size modified entries)) ->
  forall node, P node.
Proof.
  intros HF HD. fix IH 1. intros [size modified|size modified entries].
  - apply HF.
  - apply HD. induction entries as [|[name child] entries IHe]; constructor.
    + apply IH.
    + apply IHe.
Qed.

Lemma allFiles_above path name node above file :
  In file (allFiles path name node above) ->
  exists below, snd file = above ++ below.
Proof.
  revert path name above. induction node as [size modified|size modified entries IH]
    using Node_nested_ind; intros path name above Hin.
  - destruct Hin as [<-|[]]. exists []. simpl. now rewrite app_nil_r.
  - cbn [allFiles] in Hin. apply in_flat_map in Hin as ([cn child] & Hc & Hin).
    rewrite List.Forall_forall in IH. apply (IH _ Hc) in Hin as (below & ->).
    eexists. rewrite <- app_assoc. reflexivity.
Qed.

Lemma length_filter_map {A B} (f : B -> bool) (g : A -> B) (l : list A) :
  length (List.filter f (map g l)) = length (List.filter (fun x => f (g x)) l).
Proof.
  induction l as [|x l IH]; simpl; [reflexivity|].
  destruct (f (g x)); simpl; now rewrite IH.
Qed.

Lemma length_filter_Permutation {A} (f : A -> bool) (l1 l2 : list A) :
  Permutation l1 l2 -> length (List.filter f l1) = length (List.filter f l2).
Proof.
  induction 1 as [|x l1 l2 _ IH|x y l|l1 l2 l3 _ IH1 _ IH2]; simpl.
  - reflexivity.
  - destruct (f x); simpl; now rewrite IH.
  - destruct (f x), (f y); reflexivity.
  - now rewrite IH1.
Qed.

(** In a list without two elements of the same key, the elements that pass
    a test and have the key of [x] are [x] alone, or none. *)
Lemma length_filter_key {A} (key : A -> string) (q : A -> bool) (l : list A) x :
  List.NoDup (map key l) -> In x l ->
  length (List.filter (fun y => String.eqb (key y) (key x)) (List.filter q l))
  = if q x then 1%nat else 0%nat.
Proof.
  induction l as [|y l IH]; intros Hnd Hin; [destruct Hin|].
  cbn [map] in Hnd. inversion Hnd as [|? ? Hy Hl]; subst.
  assert (Hother : forall z, In z l -> key z <> key y).
  { intros z Hz Heq. apply Hy. rewrite <- Heq. now apply in_map. }
  destruct Hin as [->|Hin].
  - cbn [List.filter]. destruct (q x) eqn:Hq.
    + cbn [List.filter]. rewrite String.eqb_refl. cbn [length]. f_equal.
      clear IH Hnd Hy Hl. induction l as [|z l IHl]; [reflexivity|].
      cbn [List.filter]. destruct (q z).
      * cbn [List.filter]. destruct (String.eqb_spec (key z) (key x)) as [E|_].
        -- exfalso. apply (Hother z); [now left|exact E].
        -- apply IHl. intros w Hw. apply Hother. now right.
      * apply IHl. intros w Hw. apply Hother. now right.
    + clear IH Hnd Hy Hl. induction l as [|z l IHl]; [reflexivity|].
      cbn [List.filter]. destruct (q z).
      * cbn [List.filter]. destruct (String.eqb_spec (key z) (key x)) as [E|_].
        -- exfalso. apply (Hother z); [now left|exact E].
        -- apply IHl. intros w Hw. apply Hother. now right.
      * apply IHl. intros w Hw. apply Hother. now right.
  - cbn [List.filter]. destruct (q y).
    + cbn [List.filter]. destruct (String.eqb_spec (key y) (key x)) as [E|_].
      * exfalso. apply (Hother x Hin). now symmetry.
      * now apply IH.
    + now apply IH.
Qed.

Variable ToLower : string -> string.
Variable extFilter : option (gset string).
Variable excludeMap : gset string.
Variables maxDepth baseDepth : Z.

Local Abbreviation visit := (visit ToLower extFilter excludeMap maxDepth baseDepth).
Local Abbreviation qualifies :=
  (qualifies ToLower extFilter excludeMap maxDepth baseDepth).
Local Abbreviation skippedDir := (skippedDir excludeMap maxDepth baseDepth).

(** The job of a file. *)
Let jobOf (file : string * GoPath.FileInfo * list (string * GoPath.FileInfo))
    : IndexJob :=
  {| JobPath := fst (fst file); Info := snd (fst file) |}.

Lemma visit_file path name size modified jobs :
  visit path {| GoPath.Name := name; GoPath.Size := size;
                ModTime := modified; GoPath.IsDir := false |} jobs
  = (if keptFile ToLower extFilter maxDepth baseDepth path
     then jobs ++ [{| JobPath := path;
                      Info := {| GoPath.Name := name; GoPath.Size := size;
                                 ModTime := modified; GoPath.IsDir := false |} |}]
     else jobs, Continue).
Proof.
  unfold Indexer.visit, keptFile. cbn [GoPath.IsDir].
  destruct (tooDeep _ _ _); cbn [negb andb]; [reflexivity|].
  now destruct (extensionKept _ _ _).
Qed.

Lemma visit_dir path name size modified jobs :
  visit path {| GoPath.Name := name; GoPath.Size := size;
                ModTime := modified; GoPath.IsDir := true |} jobs
  = (jobs,
     if skippedDir (path, {| GoPath.Name := name; GoPath.Size := size;
                             ModTime := modified; GoPath.IsDir := true |})
     then SkipDir else Continue).
Proof.
  unfold Indexer.visit, Indexer.skippedDir. cbn [GoPath.IsDir GoPath.Name fst snd].
  destruct (tooDeep _ _ _); cbn [orb]; [reflexivity|].
  now destruct (excludedName _ _).
Qed.

Lemma filter_none {A} (f : A -> bool) (l : list A) :
  (forall x, In x l -> f x = false) -> List.filter f l = [].
Proof.
  induction l as [|x l IH]; intros H; [reflexivity|].
  cbn [List.filter]. rewrite (H x) by now left.
  apply IH. intros y Hy. apply H. now right.
Qed.

Lemma filter_flat_map {A B} (f : B -> bool) (g : A -> list B) (l : list A) :
  List.filter f (flat_map g l) = flat_map (fun x => List.filter f (g x)) l.
Proof.
  induction l as [|x l IH]; [reflexivity|].
  cbn [flat_map]. now rewrite List.filter_app, IH.
Qed.

(** Below a skipped directory no file qualifies. *)
Lemma qualifies_below_skipped path name size modified entries above :
  skippedDir (path, {| GoPath.Name := name; GoPath.Size := size;
                       ModTime := modified; GoPath.IsDir := true |}) = true ->
  List.filter qualifies (allFiles path name (Dir size modified entries) above) = [].
Proof.
  intros Hsk. apply filter_none. intros file Hin.
  cbn [allFiles] in Hin. apply in_flat_map in Hin as ([cn child] & _ & Hin).
  apply allFiles_above in Hin as (below & Hb).
  unfold Indexer.qualifies. rewrite Hb, !forallb_app. cbn [forallb].
  rewrite Hsk. cbn [negb andb]. now rewrite andb_false_r.
Qed.

(** The walk visits the tree and keeps, in order, the files that qualify:
    pruning a directory loses no file that a test of every directory above
    it would keep. *)
Lemma walk_visit node :
  forall path name above jobs,
    forallb (fun dir => negb (skippedDir dir)) above = true ->
    exists action,
      walk visit path name node jobs
      = (jobs ++ map jobOf (List.filter qualifies (allFiles path name node above)),
         action)
      /\ (forall size modified, node = File size modified -> action = Continue).
Proof.
  induction node as [size modified|size modified entries IH] using Node_nested_ind;
    intros path name above jobs Habove.
  - exists Continue. split; [|reflexivity].
    cbn [walk allFiles List.filter]. rewrite visit_file.
    unfold Indexer.qualifies. cbn [fst snd]. rewrite Habove. cbn [andb].
    destruct (keptFile _ _ _ _ _); cbn [map app]; [reflexivity|].
    now rewrite app_nil_r.
  - cbn [walk]. rewrite visit_dir.
    set (here := (path, {| GoPath.Name := name; GoPath.Size := size;
                           ModTime := modified; GoPath.IsDir := true |})).
    destruct (skippedDir here) eqn:Hskip.
    + exists SkipDir. split; [|discriminate].
      rewrite (qualifies_below_skipped _ _ _ _ _ _ Hskip).
      cbn [map]. now rewrite app_nil_r.
    + exists Continue. split; [|discriminate].
      cbn [allFiles]. fold here. rewrite filter_flat_map.
      assert (Hhere : forallb (fun dir => negb (skippedDir dir)) (above ++ [here]) = true).
      { rewrite forallb_app, Habove. cbn [forallb]. now rewrite Hskip. }
      clear Hskip. revert jobs.
      induction entries as [|[cn child] entries IHe]; intros jobs.
      * cbn [flat_map map]. now rewrite app_nil_r.
      * inversion IH as [|? ? Hchild Hrest]; subst. cbn [snd] in Hchild.
        destruct (Hchild (Join path cn) cn (above ++ [here]) jobs Hhere)
          as (action & -> & Hfile).
        cbn [flat_map fst snd]. rewrite map_app, app_assoc.
        rewrite <- (IHe Hrest).
        destruct action; [reflexivity|].
        destruct child; [|reflexivity].
        now specialize (Hfile _ _ eq_refl).
Qed.

(** Without a depth limit, a file qualifies when its extension passes the
    filter and no directory above it has an excluded or hidden name. *)
Lemma qualifies_unlimited file :
  maxDepth < 0 ->
  qualifies file
  = forallb (fun dir => negb (excludedName excludeMap (GoPath.Name (snd dir))))
      (snd file)
    && extensionKept ToLower extFilter (fst (fst file)).
Proof.
  intros Hneg. unfold Indexer.qualifies, Indexer.skippedDir, keptFile, tooDeep.
  destruct (Z.geb_spec maxDepth 0); [lia|]. reflexivity.
Qed.

End IndexerProps.

Section IndexDirectoryProps.
Import GoPath.

Variable ToLower : string -> string.
Variable TrimSpace : string -> string.
Variable hashFile : string -> option string.
Variable deliver : list Indexer.FileInfo -> list Indexer.FileInfo.

(** The entries of the result are, up to the order of delivery, the entries
    of the files that qualify, one for each. *)
Lemma indexDirectory_files dir withHash extensions maxDepth excludeDirs tree :
  (forall l, Permutation (deliver l) l) ->
  Permutation
    (Indexer.Files
       (Indexer.indexDirectory ToLower TrimSpace hashFile deliver dir withHash
          extensions maxDepth excludeDirs tree))
    (map (fun file =>
            Indexer.processFile hashFile withHash
              {| Indexer.JobPath := fst (fst file); Indexer.Info := snd (fst file) |})
         (List.filter
            (Indexer.qualifies ToLower
               (Indexer.parseExtensions ToLower TrimSpace extensions)
               (Indexer.parseExclude TrimSpace excludeDirs) maxDepth
               (GoStrings.Count (Clean dir) "/"))
            (allFiles dir (Base dir) tree []))).
Proof.
  intros Hperm. unfold Indexer.indexDirectory. cbn [Indexer.Files].
  rewrite (Hperm _). unfold Indexer.collectJobs, Walk.
  destruct (walk_visit ToLower (Indexer.parseExtensions ToLower TrimSpace extensions)
              (Indexer.parseExclude TrimSpace excludeDirs) maxDepth
              (GoStrings.Count (Clean dir) "/") tree dir (Base dir) [] [] eq_refl)
    as (action & -> & _).
  cbn [fst app]. now rewrite map_map.
Qed.

(** The directories above a file of the tree start with the root. *)
Lemma allFiles_root path name node file :
  In file (allFiles path name node []) ->
  snd file = []
  \/ exists info below,
       snd file = (path, info) :: below /\ Name info = name.
Proof.
  destruct node as [size modified|size modified entries]; intros Hin.
  - destruct Hin as [<-|[]]. now left.
  - right. cbn [allFiles app] in Hin.
    apply in_flat_map in Hin as ([cn child] & _ & Hin).
    apply allFiles_above in Hin as (below & Hb). eexists _, below.
    split; [exact Hb|reflexivity].
Qed.

(** When the callback does not skip the root, the test of the directories
    above a file can leave the root out: the root is never too deep. *)
Lemma qualifies_below_root extFilter excludeMap maxDepth dir tree file :
  Indexer.excludedName excludeMap (Base dir) = false ->
  In file (allFiles dir (Base dir) tree []) ->
  Indexer.qualifies ToLower extFilter excludeMap maxDepth
    (GoStrings.Count (Clean dir) "/") file
  = Indexer.qualifiesBelowRoot ToLower extFilter excludeMap maxDepth
      (GoStrings.Count (Clean dir) "/") file.
Proof.
  intros Hroot Hin. unfold Indexer.qualifies, Indexer.qualifiesBelowRoot.
  destruct (allFiles_root _ _ _ _ Hin) as [->|(info & below & -> & Hname)];
    [reflexivity|].
  cbn [tl forallb]. unfold Indexer.skippedDir at 1. cbn [fst snd].
  rewrite Hname, Hroot. unfold Indexer.tooDeep.
  rewrite Z.sub_diag.
  destruct (Z.geb_spec maxDepth 0) as [Hge|Hlt]; [|reflexivity].
  destruct (Z.gtb_spec 0 maxDepth) as [Hgt|_]; [lia|reflexivity].
Qed.

(** C5, as amended.  For a root that the callback does not skip (its name is
    "." or neither excluded nor hidden), in a tree whose files have paths of
    their own, and whatever the order in which the workers deliver: a file
    has exactly one entry in the result when its extension passes the
    filter, it is within the depth limit, and no directory between the root
    and the file is excluded, hidden or beyond the depth limit; any other
    file of the tree has no entry. *)
Theorem indexDirectory_entries dir withHash extensions maxDepth excludeDirs tree file :
  (forall l, Permutation (deliver l) l) ->
  List.NoDup (map (fun f => fst (fst f)) (allFiles dir (Base dir) tree [])) ->
  Indexer.excludedName (Indexer.parseExclude TrimSpace excludeDirs) (Base dir)
  = false ->
  In file (allFiles dir (Base dir) tree []) ->
  Indexer.entriesFor (fst (fst file))
    (Indexer.indexDirectory ToLower TrimSpace hashFile deliver dir withHash
       extensions maxDepth excludeDirs tree)
  = if Indexer.qualifiesBelowRoot ToLower
         (Indexer.parseExtensions ToLower TrimSpace extensions)
         (Indexer.parseExclude TrimSpace excludeDirs) maxDepth
         (GoStrings.Count (Clean dir) "/") file
    then 1%nat else 0%nat.
Proof.
  intros Hperm Hnd Hroot Hin.
  rewrite <- (qualifies_below_root _ _ _ _ tree file Hroot Hin).
  unfold Indexer.entriesFor, Indexer.indexDirectory. cbn [Indexer.Files].
  rewrite (length_filter_Permutation _ _ _ (Hperm _)).
  unfold Indexer.collectJobs, Walk.
  destruct (walk_visit ToLower (Indexer.parseExtensions ToLower TrimSpace extensions)
              (Indexer.parseExclude TrimSpace excludeDirs) maxDepth
              (GoStrings.Count (Clean dir) "/") tree dir (Base dir) [] [] eq_refl)
    as (action & -> & _).
  cbn [fst app]. rewrite !length_filter_map. cbn [Indexer.processFile Indexer.Path
    Indexer.JobPath].
  now apply (length_filter_key (fun f => fst (fst f))).
Qed.

End IndexDirectoryProps.


Lemma indexDirectory_entries_witness :
  (forall l : list Indexer.FileInfo, Permutation (rev l) l)
  /\ Indexer.entriesFor "d/a.py" (sampleIndex (-1)) = 1%nat.
Proof.
  assert (Hp : forall l : list Indexer.FileInfo, Permutation (rev l) l)
    by (intros l; apply Permutation_sym, Permutation_rev).
  split; [exact Hp|].
  change "d/a.py" with (fst (fst deepFile)). unfold sampleIndex.
  rewrite (indexDirectory_entries asciiLower (fun s => s) (fun _ => None) (@rev _)
             "." false "" (-1) defaultExclude sampleTree deepFile Hp).
  - vm_compute. reflexivity.
  - vm_compute. repeat constructor; simpl; intuition discriminate.
  - vm_compute. reflexivity.
  - vm_compute. right; right; left; reflexivity.
Defined.

(** C5 as stated fails under a depth limit: with [-depth 0] the file
    [d/a.py] passes the (empty) extension filter and lies under no excluded
    or hidden directory, and the result has no entry for it. *)
Lemma indexDirectory_depth_limit :
  In deepFile (GoPath.allFiles "." (GoPath.Base ".") sampleTree [])
  /\ Indexer.extensionKept asciiLower
       (Indexer.parseExtensions asciiLower (fun s => s) "") (fst (fst deepFile))
     = true
  /\ forallb (fun dir =>
                negb (Indexer.excludedName
                        (Indexer.parseExclude (fun s => s) defaultExclude)
                        (GoPath.Name (snd dir))))
       (snd deepFile) = true
  /\ Indexer.entriesFor "d/a.py" (sampleIndex 0) <> 1%nat.
Proof.
  split; [vm_compute; right; right; left; reflexivity|].
  split; [reflexivity|]. split; [vm_compute; reflexivity|].
  vm_compute. discriminate.
Qed.

(** With the default flags the three files of the sample tree give two
    entries: [.git] is pruned. *)
Example sampleIndex_paths :
  map Indexer.Path (Indexer.Files (sampleIndex (-1))) = ["d/a.py"; "a.py"].
Proof. vm_compute. reflexivity. Qed.

(** *** The walk as a fold over the files it reaches *)

Section WalkFold.
Import GoPath.

Context {St : Type}.
Variable fn : string -> FileInfo -> St -> St * WalkAction.
Variable pruned : string * FileInfo -> bool.
Variable onFile : string -> FileInfo -> St -> St.

Hypothesis fn_dir : forall path info st,
  IsDir info = true ->
  fn path info st = (st, if pruned (path, info) then SkipDir else Continue).
Hypothesis fn_file : forall path info st,
  IsDir info = false -> fn path info st = (onFile path info st, Continue).

(** Below a pruned directory no file is reached. *)
Lemma reached_below_pruned path name size modified entries above :
  pruned (path, {| Name := name; Size := size; ModTime := modified;
                   IsDir := true |}) = true ->
  List.filter (reached pruned)
    (allFiles path name (Dir size modified entries) above) = [].
Proof.
  intros Hsk. apply filter_none. intros file Hin.
  cbn [allFiles] in Hin. apply in_flat_map in Hin as ([cn child] & _ & Hin).
  apply allFiles_above in Hin as (below & Hb).
  unfold reached. rewrite Hb, !forallb_app. cbn [forallb].
  rewrite Hsk. cbn [negb andb]. now rewrite andb_false_r.
Qed.

(** A callback that leaves the state alone at a directory and never skips
    at a file folds its action over the files that the walk reaches, in the
    order of the tree. *)
Lemma walk_fold node :
  forall path name above st,
    forallb (fun dir => negb (pruned dir)) above = true ->
    exists action,
      walk fn path name node st
      = (foldl (fun st file => onFile (fst (fst file)) (snd (fst file)) st) st
           (List.filter (reached pruned) (allFiles path name node above)),
         action)
      /\ (forall size modified, node = File size modified -> action = Continue).
Proof.
  induction node as [size modified|size modified entries IH] using Node_nested_ind;
    intros path name above st Habove.
  - exists Continue. split; [|reflexivity].
    cbn [walk allFiles List.filter]. rewrite fn_file by reflexivity.
    unfold reached. cbn [fst snd]. rewrite Habove. reflexivity.
  - cbn [walk]. rewrite fn_dir by reflexivity.
    set (here := (path, {| Name := name; Size := size; ModTime := modified;
                           IsDir := true |})).
    destruct (pruned here) eqn:Hskip.
    + exists SkipDir. split; [|discriminate].
      now rewrite (reached_below_pruned _ _ _ _ _ _ Hskip).
    + exists Continue. split; [|discriminate].
      cbn [allFiles]. fold here. rewrite filter_flat_map.
      assert (Hhere : forallb (fun dir => negb (pruned dir)) (above ++ [here]) = true).
      { rewrite forallb_app, Habove. cbn [forallb]. now rewrite Hskip. }
      clear Hskip. revert st.
      induction entries as [|[cn child] entries IHe]; intros st.
      * reflexivity.
      * inversion IH as [|? ? Hchild Hrest]; subst. cbn [snd] in Hchild.
        destruct (Hchild (Join path cn) cn (above ++ [here]) st Hhere)
          as (action & -> & Hfile).
        cbn [flat_map fst snd]. rewrite foldl_app.
        rewrite <- (IHe Hrest).
        destruct action; [reflexivity|].
        destruct child; [|reflexivity].
        now specialize (Hfile _ _ eq_refl).
Qed.

Lemma Walk_fold root tree st :
  Walk fn root tree st
  = foldl (fun st file => onFile (fst (fst file)) (snd (fst file)) st) st
      (List.filter (reached pruned) (allFiles root (Base root) tree [])).
Proof.
  unfold Walk. destruct (walk_fold tree root (Base root) [] st eq_refl) as (a & -> & _).
  reflexivity.
Qed.

End WalkFold.

(** A walk that appends the paths of the files it keeps. *)
Lemma foldl_append_kept {A B} (keep : A -> bool) (key : A -> B) (l : list A)
    (acc : list B) :
  foldl (fun acc x => if keep x then acc ++ [key x] else acc) acc l
  = acc ++ map key (List.filter keep l).
Proof.
  revert acc. induction l as [|x l IH]; intros acc; cbn [foldl List.filter].
  - now rewrite app_nil_r.
  - rewrite IH. destruct (keep x); [|reflexivity].
    cbn [map]. now rewrite <- app_assoc.
Qed.

Lemma filter_filter_andb {A} (f g : A -> bool) (l : list A) :
  List.filter g (List.filter f l) = List.filter (fun x => f x && g x) l.
Proof.
  induction l as [|x l IH]; [reflexivity|]. cbn [List.filter].
  destruct (f x); cbn [andb List.filter]; [destruct (g x)|]; now rewrite IH.
Qed.

(** *** FileIndexer: the totals, and what an entry tells *)

Section IndexTotals.
Import GoPath.

Lemma wrap64_add_l a b : Indexer.wrap64 (Indexer.wrap64 a + b) = Indexer.wrap64 (a + b).
Proof.
  unfold Indexer.wrap64. f_equal.
  replace ((a + 2 ^ 63) mod 2 ^ 64 - 2 ^ 63 + b + 2 ^ 63)
    with ((a + 2 ^ 63) mod 2 ^ 64 + b) by lia.
  rewrite Z.add_mod_idemp_l by lia. f_equal. lia.
Qed.

(** The running total of the sizes is their sum, wrapped once. *)
Lemma foldl_wrap64_sum (sizes : list Z) (total : Z) :
  foldl (fun total size => Indexer.wrap64 (total + size)) (Indexer.wrap64 total) sizes
  = Indexer.wrap64 (total + fold_right Z.add 0 sizes).
Proof.
  revert total. induction sizes as [|size sizes IH]; intros total; cbn [foldl fold_right].
  - now rewrite Z.add_0_r.
  - rewrite wrap64_add_l, IH. f_equal. lia.
Qed.

Lemma foldl_map_arg {A B C} (f : A -> B -> A) (g : C -> B) (l : list C) (a : A) :
  foldl (fun a x => f a (g x)) a l = foldl f a (map g l).
Proof.
  revert a. induction l as [|x l IH]; intros a; [reflexivity|]. cbn. apply IH.
Qed.

Lemma sum_Permutation (l1 l2 : list Z) :
  Permutation l1 l2 -> fold_right Z.add 0 l1 = fold_right Z.add 0 l2.
Proof.
  induction 1 as [|x l1 l2 _ IH|x y l|l1 l2 l3 _ IH1 _ IH2]; cbn [fold_right]; lia.
Qed.

Variable ToLower : string -> string.
Variable TrimSpace : string -> string.
Variable hashFile : string -> option string.
Variable deliver : list Indexer.FileInfo -> list Indexer.FileInfo.

Local Abbreviation indexDirectory :=
  (Indexer.indexDirectory ToLower TrimSpace hashFile deliver).

(** The files of the tree that qualify, for the flags given. *)
Local Abbreviation qualifying :=
  (fun (dir extensions : string) (maxDepth : Z) (excludeDirs : string)
       (tree : Node) =>
     List.filter
       (Indexer.qualifies ToLower
          (Indexer.parseExtensions ToLower TrimSpace extensions)
          (Indexer.parseExclude TrimSpace excludeDirs) maxDepth
          (GoStrings.Count (Clean dir) "/"))
       (allFiles dir (Base dir) tree [])).

(** X1: the totals do not depend on the order in which the workers deliver.
    [TotalFiles] is the number of files that qualify, and [TotalSize] is the
    sum of their sizes, reduced to an [int64]. *)
Theorem indexDirectory_totals dir withHash extensions maxDepth excludeDirs tree :
  (forall l, Permutation (deliver l) l) ->
  Indexer.TotalFiles
    (indexDirectory dir withHash extensions maxDepth excludeDirs tree)
  = Z.of_nat (length (qualifying dir extensions maxDepth excludeDirs tree))
  /\ Indexer.TotalSize
       (indexDirectory dir withHash extensions maxDepth excludeDirs tree)
     = Indexer.wrap64
         (fold_right Z.add 0
            (map (fun file => Size (snd (fst file)))
               (qualifying dir extensions maxDepth excludeDirs tree))).
Proof.
  intros Hperm.
  pose proof (indexDirectory_files ToLower TrimSpace hashFile deliver dir withHash
                extensions maxDepth excludeDirs tree Hperm) as Hfiles.
  unfold Indexer.indexDirectory in *. cbn [Indexer.Files Indexer.TotalFiles
    Indexer.TotalSize] in *.
  split.
  - now rewrite (Permutation_length Hfiles), length_map.
  - rewrite (foldl_map_arg (fun total size => Indexer.wrap64 (total + size))
               Indexer.Size).
    change 0 with (Indexer.wrap64 0) at 1.
    rewrite foldl_wrap64_sum, Z.add_0_l. f_equal.
    rewrite (sum_Permutation _ _ (Permutation_map Indexer.Size Hfiles)).
    now rewrite map_map.
Qed.

(** X2: every entry of the index describes a file of the tree that
    qualifies: it has the path, name, size and modification time of the
    file, its extension is that of the path, and it is no directory.  It
    carries a hash only when hashes are asked for and the file is smaller
    than 10 MiB. *)
Theorem indexDirectory_entry dir withHash extensions maxDepth excludeDirs tree fi :
  (forall l, Permutation (deliver l) l) ->
  In fi (Indexer.Files
           (indexDirectory dir withHash extensions maxDepth excludeDirs tree)) ->
  (exists file,
      In file (qualifying dir extensions maxDepth excludeDirs tree)
      /\ Indexer.Path fi = fst (fst file)
      /\ Indexer.Name fi = Name (snd (fst file))
      /\ Indexer.Size fi = Size (snd (fst file))
      /\ Indexer.Modified fi = ModTime (snd (fst file)))
  /\ Indexer.IsDir fi = false
  /\ Indexer.Extension fi = Ext (Indexer.Path fi)
  /\ (Indexer.Hash fi <> "" ->
      withHash = true /\ Indexer.Size fi < 10 * 1024 * 1024
      /\ hashFile (Indexer.Path fi) = Some (Indexer.Hash fi)).
Proof.
  intros Hperm Hin.
  apply (Permutation_in _ (indexDirectory_files ToLower TrimSpace hashFile deliver
                             dir withHash extensions maxDepth excludeDirs tree
                             Hperm)) in Hin.
  apply in_map_iff in Hin as (file & <- & Hin).
  assert (Hfile : IsDir (snd (fst file)) = false).
  { apply filter_In in Hin as [Hin _]. clear -Hin.
    revert Hin. generalize (@nil (string * FileInfo)). generalize (Base dir).
    generalize dir. induction tree as [size modified|size modified entries IH]
      using Node_nested_ind; intros path name above Hin.
    - destruct Hin as [<-|[]]. reflexivity.
    - cbn [allFiles] in Hin. apply in_flat_map in Hin as ([cn child] & Hc & Hin).
      rewrite List.Forall_forall in IH. exact (IH _ Hc _ _ _ Hin). }
  unfold Indexer.processFile.
  cbn [Indexer.Path Indexer.Name Indexer.Size Indexer.Modified Indexer.IsDir
       Indexer.Extension Indexer.Hash Indexer.JobPath Indexer.Info].
  split; [now exists file|]. split; [exact Hfile|]. split; [reflexivity|].
  rewrite Hfile. cbn [negb]. rewrite andb_true_r.
  destruct withHash; cbn [andb]; [|now intros []].
  destruct (Z.ltb_spec (Size (snd (fst file))) (10 * 1024 * 1024)); [|now intros []].
  destruct (hashFile (fst (fst file))); [|now intros []].
  intros _. repeat split. assumption.
Qed.

End IndexTotals.

Lemma indexDirectory_totals_witness :
  Indexer.TotalFiles (sampleIndex (-1)) = 2
  /\ Indexer.TotalSize (sampleIndex (-1)) = 30.
Proof.
  destruct (indexDirectory_totals asciiLower (fun s => s) (fun _ => None) (@rev _)
              "." false "" (-1) defaultExclude sampleTree
              (fun l => Permutation_sym (Permutation_rev l))) as [Hn Hs].
  unfold sampleIndex. rewrite Hn, Hs. vm_compute. split; reflexivity.
Defined.

Lemma indexDirectory_entry_witness :
  forallb (fun fi => negb (Indexer.IsDir fi)) (Indexer.Files (sampleIndex (-1)))
  = true.
Proof.
  apply forallb_forall. intros fi Hin. apply negb_true_iff.
  apply (indexDirectory_entry asciiLower (fun s => s) (fun _ => None) (@rev _)
           "." false "" (-1) defaultExclude sampleTree fi
           (fun l => Permutation_sym (Permutation_rev l)) Hin).
Defined.

(** ** TextSearcher *)

Section SearchProps.
Import Search.

Variable Regexp : Type.
Variable Compile : string -> Regexp + string.
Variable MatchString : Regexp -> string -> bool.
Variable ToLower : string -> string.
Variable readLines : string -> option (list string).

Local Abbreviation search := (search Regexp Compile MatchString ToLower readLines).
Local Abbreviation searchFile := (searchFile Regexp MatchString ToLower readLines).

Lemma In_firstn_In {A} (n : nat) (l : list A) x : In x (firstn n l) -> In x l.
Proof.
  intros H. rewrite <- (firstn_skipn n l). apply in_or_app. now left.
Qed.

Lemma gatherFile_firstn maxResults gathered matches :
  gatherFile maxResults gathered matches
  = gathered ++ firstn (Z.to_nat (maxResults - Z.of_nat (length gathered))) matches.
Proof.
  revert gathered. induction matches as [|m rest IH]; intros gathered; simpl.
  - now rewrite firstn_nil, app_nil_r.
  - destruct (Z.geb_spec (Z.of_nat (length gathered)) maxResults) as [Hge|Hlt].
    + replace (Z.to_nat _) with 0%nat by lia. simpl. now rewrite app_nil_r.
    + rewrite IH, length_app, <- app_assoc. simpl.
      replace (Z.to_nat (maxResults - Z.of_nat (length gathered)))
        with (S (Z.to_nat (maxResults - Z.of_nat (length gathered + 1)))) by lia.
      reflexivity.
Qed.

Lemma gather_firstn maxResults gathered results :
  gather maxResults gathered results
  = gathered
    ++ firstn (Z.to_nat (maxResults - Z.of_nat (length gathered))) (concat results).
Proof.
  revert gathered. induction results as [|matches rest IH]; intros gathered; simpl.
  - now rewrite firstn_nil, app_nil_r.
  - rewrite gatherFile_firstn.
    set (k := Z.to_nat (maxResults - Z.of_nat (length gathered))).
    rewrite firstn_app.
    destruct (Z.geb_spec (Z.of_nat (length (gathered ++ firstn k matches))) maxResults)
      as [Hge|Hlt]; rewrite length_app, length_firstn in *.
    + replace (k - length matches)%nat with 0%nat by lia.
      simpl. now rewrite app_nil_r.
    + rewrite IH, length_app, length_firstn, <- app_assoc. do 2 f_equal.
      f_equal. lia.
Qed.

(** The gathered matches are the first [maxResults] of all matches, taken in
    arrival order. *)
Lemma search_matches pattern isRegex ignoreCase maxResults arrival :
  exists re searchStr,
    Error (search pattern isRegex ignoreCase maxResults arrival) = "" ->
    forall maxResults' arrival',
      Matches (search pattern isRegex ignoreCase maxResults' arrival')
      = firstn (Z.to_nat maxResults')
          (concat (map (fun path => searchFile path re searchStr ignoreCase isRegex)
                       arrival')).
Proof.
  unfold search. destruct isRegex.
  - destruct (Compile _) as [re|err].
    + exists (Some re), "". intros _ maxResults' arrival'. cbn [Matches].
      rewrite gather_firstn. simpl. now rewrite Z.sub_0_r.
    + exists None, "". simpl. discriminate.
  - eexists None, _. intros _ maxResults' arrival'. cbn [Matches].
    rewrite gather_firstn. simpl. now rewrite Z.sub_0_r.
Qed.

Lemma search_count pattern isRegex ignoreCase maxResults arrival :
  Count (search pattern isRegex ignoreCase maxResults arrival)
  = Z.of_nat (length (Matches (search pattern isRegex ignoreCase maxResults arrival))).
Proof.
  unfold search. destruct isRegex; [destruct (Compile _)|]; reflexivity.
Qed.

Lemma search_error_empty pattern isRegex ignoreCase maxResults arrival :
  Error (search pattern isRegex ignoreCase maxResults arrival) <> "" ->
  Matches (search pattern isRegex ignoreCase maxResults arrival) = [].
Proof.
  unfold search. destruct isRegex; [destruct (Compile _)|]; simpl; congruence.
Qed.

Lemma search_error_max pattern isRegex ignoreCase maxResults maxResults' arrival arrival' :
  Error (search pattern isRegex ignoreCase maxResults arrival)
  = Error (search pattern isRegex ignoreCase maxResults' arrival').
Proof.
  unfold search. destruct isRegex; [destruct (Compile _)|]; reflexivity.
Qed.

(** The results of [searchFile] for the files, one after the other in the
    order in which the files arrive, are what the gathering loop takes its
    matches from. *)
Lemma search_per_file pattern isRegex ignoreCase maxResults arrival :
  (isRegex = false ->
   Matches (search pattern isRegex ignoreCase maxResults arrival)
   = firstn (Z.to_nat maxResults)
       (concat
          (map (fun path =>
                  searchFile path None
                    (if ignoreCase then ToLower pattern else pattern)
                    ignoreCase false)
               arrival)))
  /\ (forall re,
        isRegex = true ->
        Compile (if ignoreCase then "(?i)" +:+ pattern else pattern) = inl re ->
        Matches (search pattern isRegex ignoreCase maxResults arrival)
        = firstn (Z.to_nat maxResults)
            (concat
               (map (fun path => searchFile path (Some re) "" ignoreCase true)
                    arrival)))
  /\ (forall err,
        isRegex = true ->
        Compile (if ignoreCase then "(?i)" +:+ pattern else pattern) = inr err ->
        search pattern isRegex ignoreCase maxResults arrival
        = {| Matches := []; Count := 0; Error := "Invalid regex: " +:+ err |}).
Proof.
  unfold search. split; [|split].
  - intros ->. cbn [Matches]. rewrite gather_firstn. cbn [app length].
    now rewrite Z.sub_0_r.
  - intros re -> ->. cbn [Matches]. rewrite gather_firstn. cbn [app length].
    now rewrite Z.sub_0_r.
  - intros err -> ->. reflexivity.
Qed.

(** C4, as amended.  With a cap [maxResults] that is not negative: the
    number of returned matches is at most the cap and is the reported count;
    the matches returned are the first [maxResults] of the results of
    [searchFile] for the files, put one after the other in the order in
    which the files arrive (none when the regular expression does not
    compile); they are the first [maxResults] of what any larger cap
    returns; and a run over the same files whose own cap is not reached,
    whatever the order in which its results arrive, returns every match of
    the capped run. *)
Theorem search_cap pattern isRegex ignoreCase maxResults arrival :
  0 <= maxResults ->
  Z.of_nat (length (Matches (search pattern isRegex ignoreCase maxResults arrival)))
  <= maxResults
  /\ Count (search pattern isRegex ignoreCase maxResults arrival)
     = Z.of_nat (length (Matches (search pattern isRegex ignoreCase maxResults arrival)))
  /\ (forall maxResults', maxResults <= maxResults' ->
        Matches (search pattern isRegex ignoreCase maxResults arrival)
        = firstn (Z.to_nat maxResults)
            (Matches (search pattern isRegex ignoreCase maxResults' arrival)))
  /\ (forall unbounded arrival',
        Permutation arrival' arrival ->
        Z.of_nat (length (Matches (search pattern isRegex ignoreCase unbounded arrival')))
        < unbounded ->
        incl (Matches (search pattern isRegex ignoreCase maxResults arrival))
             (Matches (search pattern isRegex ignoreCase unbounded arrival')))
  /\ (isRegex = false ->
      Matches (search pattern isRegex ignoreCase maxResults arrival)
      = firstn (Z.to_nat maxResults)
          (concat
             (map (fun path =>
                     searchFile path None
                       (if ignoreCase then ToLower pattern else pattern)
                       ignoreCase false)
                  arrival)))
  /\ (forall re,
        isRegex = true ->
        Compile (if ignoreCase then "(?i)" +:+ pattern else pattern) = inl re ->
        Matches (search pattern isRegex ignoreCase maxResults arrival)
        = firstn (Z.to_nat maxResults)
            (concat
               (map (fun path => searchFile path (Some re) "" ignoreCase true)
                    arrival)))
  /\ (forall err,
        isRegex = true ->
        Compile (if ignoreCase then "(?i)" +:+ pattern else pattern) = inr err ->
        search pattern isRegex ignoreCase maxResults arrival
        = {| Matches := []; Count := 0; Error := "Invalid regex: " +:+ err |}).
Proof.
  intros Hmax.
  assert (Hfour :
    Z.of_nat (length (Matches (search pattern isRegex ignoreCase maxResults arrival)))
    <= maxResults
    /\ Count (search pattern isRegex ignoreCase maxResults arrival)
       = Z.of_nat (length (Matches (search pattern isRegex ignoreCase maxResults arrival)))
    /\ (forall maxResults', maxResults <= maxResults' ->
          Matches (search pattern isRegex ignoreCase maxResults arrival)
          = firstn (Z.to_nat maxResults)
              (Matches (search pattern isRegex ignoreCase maxResults' arrival)))
    /\ (forall unbounded arrival',
          Permutation arrival' arrival ->
          Z.of_nat (length (Matches (search pattern isRegex ignoreCase unbounded arrival')))
          < unbounded ->
          incl (Matches (search pattern isRegex ignoreCase maxResults arrival))
               (Matches (search pattern isRegex ignoreCase unbounded arrival'))));
    [|destruct Hfour as (H1 & H2 & H3 & H4);
      exact (conj H1 (conj H2 (conj H3 (conj H4
               (search_per_file pattern isRegex ignoreCase maxResults arrival)))))].
  split; [|split; [apply search_count|]].
  - destruct (string_dec (Error (search pattern isRegex ignoreCase maxResults arrival)) "")
      as [He|He].
    + destruct (search_matches pattern isRegex ignoreCase maxResults arrival)
        as (re & searchStr & Hm).
      rewrite (Hm He), length_firstn. lia.
    + rewrite (search_error_empty _ _ _ _ _ He). simpl. lia.
  - destruct (string_dec (Error (search pattern isRegex ignoreCase maxResults arrival)) "")
      as [He|He]; split.
    + intros maxResults' Hle.
      destruct (search_matches pattern isRegex ignoreCase maxResults arrival)
        as (re & searchStr & Hm).
      rewrite !(Hm He), firstn_firstn. f_equal. lia.
    + intros unbounded arrival' Hperm Hlt.
      destruct (search_matches pattern isRegex ignoreCase maxResults arrival)
        as (re & searchStr & Hm).
      rewrite !(Hm He) in *. rewrite length_firstn in Hlt.
      rewrite (firstn_all2 (n := Z.to_nat unbounded)) by lia.
      intros m Hin. apply In_firstn_In in Hin.
      rewrite <- !flat_map_concat_map in *.
      eapply Permutation_in; [|exact Hin].
      apply Permutation_flat_map, Permutation_sym, Hperm.
    + intros maxResults' _. rewrite (search_error_empty _ _ _ _ _ He).
      rewrite (search_error_max _ _ _ _ maxResults' _ arrival) in He.
      rewrite (search_error_empty _ _ _ _ _ He). now rewrite firstn_nil.
    + intros unbounded arrival' _ _.
      rewrite (search_error_empty _ _ _ _ _ He). intros m [].
Qed.

End SearchProps.

Example sampleSearch_capped :
  Search.Matches (sampleSearch 2 ["a.txt"; "b.txt"])
  = [ {| Search.File := "a.txt"; Search.Line := 1; Search.Content := "foo" |};
      {| Search.File := "a.txt"; Search.Line := 3; Search.Content := "foo bar" |} ].
Proof. reflexivity. Qed.

Lemma search_cap_witness :
  0 <= 2
  /\ Z.of_nat (length (Search.Matches (sampleSearch 2 ["a.txt"; "b.txt"]))) <= 2
  /\ Search.Matches (sampleSearch 2 ["a.txt"; "b.txt"])
     = firstn 2
         (Search.searchFile unit (fun _ _ => false) (fun s => s) sampleLines
            "a.txt" None "foo" false false
          ++ Search.searchFile unit (fun _ _ => false) (fun s => s) sampleLines
               "b.txt" None "foo" false false).
Proof.
  assert (Hmax : 0 <= 2) by lia.
  pose proof (search_cap unit (fun _ => inl tt) (fun _ _ => false) (fun s => s)
                sampleLines "foo" false false 2 ["a.txt"; "b.txt"] Hmax)
    as (Hle & _ & _ & _ & Hfiles & _).
  split; [exact Hmax|]. split; [exact Hle|].
  unfold sampleSearch. rewrite (Hfiles eq_refl). cbn [map concat].
  now rewrite app_nil_r.
Defined.

(** C4 as stated fails for a negative cap: the gathering loop stops at once
    and returns no match, and zero exceeds the cap. *)
Lemma search_cap_negative_max :
  ~ (Z.of_nat (length (Search.Matches (sampleSearch (-1) ["a.txt"; "b.txt"]))) <= -1).
Proof. vm_compute. intros H. now apply H. Qed.

(** *** TextSearcher: the walk, and what a match is *)

Section SearchDirProps.
Import Search.

Variable Regexp : Type.
Variable Compile : string -> Regexp + string.
Variable MatchString : Regexp -> string -> bool.
Variable ToLower : string -> string.
Variable readLines : string -> option (list string).
Variable GlobMatch : string -> string -> bool.
Variable deliver : list string -> list string.

Local Abbreviation search := (search Regexp Compile MatchString ToLower readLines).
Local Abbreviation searchFile := (searchFile Regexp MatchString ToLower readLines).
Local Abbreviation scanLines := (scanLines Regexp MatchString ToLower).
Local Abbreviation lineFound := (lineFound Regexp MatchString ToLower).
Local Abbreviation lineMatches := (lineMatches Regexp Compile MatchString ToLower).
Local Abbreviation collectFiles := (collectFiles ToLower GlobMatch).
Local Abbreviation searched := (searched ToLower GlobMatch).
Local Abbreviation searchDir :=
  (searchDir Regexp Compile MatchString ToLower readLines GlobMatch deliver).

(** The line [i] (from 0) of [lines] is [line]. *)
Local Abbreviation lineAt := (fun (lines : list string) (i : nat) (line : string) =>
                            nth_error lines i = Some line).

Lemma scanLines_In path re searchStr ignoreCase isRegex lines :
  forall lineNum acc m,
    In m (scanLines path re searchStr ignoreCase isRegex lineNum acc lines)
    <-> In m acc
        \/ (File m = path
            /\ lineFound re searchStr ignoreCase isRegex (Content m) = true
            /\ exists i : nat,
                 lineAt lines i (Content m) /\ Line m = lineNum + Z.of_nat i + 1).
Proof.
  induction lines as [|line lines IH]; intros lineNum acc m; cbn [Search.scanLines].
  - split; [now left|]. intros [H|(_ & _ & i & Hi & _)]; [exact H|].
    now destruct i.
  - rewrite IH. clear IH. split.
    + intros [Hin|(Hf & Hfound & i & Hi & Hl)].
      * destruct (lineFound re searchStr ignoreCase isRegex line) eqn:Hfound;
          [|now left].
        apply in_app_or in Hin as [Hin|[<-|[]]]; [now left|]. right.
        cbn [File Content Line]. repeat split; [exact Hfound|].
        exists O. split; [reflexivity|lia].
      * right. repeat split; [exact Hf|exact Hfound|].
        exists (S i). split; [exact Hi|lia].
    + intros [Hin|(Hf & Hfound & i & Hi & Hl)].
      * left. destruct (lineFound _ _ _ _ line); [|exact Hin].
        apply in_or_app. now left.
      * destruct i as [|i].
        -- left. injection Hi as Hi. rewrite Hi, Hfound. apply in_or_app. right.
           left. destruct m as [f l c]. cbn in *. subst. f_equal. lia.
        -- right. repeat split; [exact Hf|exact Hfound|].
           exists i. split; [exact Hi|lia].
Qed.

Lemma searchFile_In path re searchStr ignoreCase isRegex m :
  In m (searchFile path re searchStr ignoreCase isRegex)
  <-> File m = path
      /\ lineFound re searchStr ignoreCase isRegex (Content m) = true
      /\ exists lines (i : nat),
           readLines path = Some lines
           /\ lineAt lines i (Content m) /\ Line m = Z.of_nat i + 1.
Proof.
  unfold Search.searchFile. destruct (readLines path) as [lines|].
  - rewrite scanLines_In. split.
    + intros [[]|(Hf & Hfound & i & Hi & Hl)]. repeat split; [exact Hf|exact Hfound|].
      exists lines, i. repeat split; [exact Hi|lia].
    + intros (Hf & Hfound & lines' & i & [= <-] & Hi & Hl). right.
      repeat split; [exact Hf|exact Hfound|]. exists i. split; [exact Hi|lia].
  - split; [intros []|]. now intros (_ & _ & lines & i & [=] & _).
Qed.

(** The matches of [search] before the cap: those of the files in the order
    of their arrival. *)
Lemma search_In pattern isRegex ignoreCase maxResults arrival m :
  In m (Matches (search pattern isRegex ignoreCase maxResults arrival)) ->
  In (File m) arrival
  /\ lineMatches pattern isRegex ignoreCase (Content m) = true
  /\ exists lines (i : nat),
       readLines (File m) = Some lines
       /\ lineAt lines i (Content m) /\ Line m = Z.of_nat i + 1.
Proof.
  unfold Search.search, Search.lineMatches. destruct isRegex.
  - destruct (Compile _) as [re|err]; cbn [Matches]; [|intros []].
    rewrite gather_firstn. cbn [app]. intros Hin. apply In_firstn_In in Hin.
    apply in_concat in Hin as (ms & Hms & Hin).
    apply in_map_iff in Hms as (path & <- & Hpath).
    apply searchFile_In in Hin as (Hf & Hfound & Hline). rewrite Hf.
    repeat split; [exact Hpath|exact Hfound|exact Hline].
  - cbn [Matches]. rewrite gather_firstn. cbn [app]. intros Hin.
    apply In_firstn_In in Hin.
    apply in_concat in Hin as (ms & Hms & Hin).
    apply in_map_iff in Hms as (path & <- & Hpath).
    apply searchFile_In in Hin as (Hf & Hfound & Hline). rewrite Hf.
    repeat split; [exact Hpath| |exact Hline].
    unfold Search.lineFound in Hfound. now destruct ignoreCase.
Qed.

Lemma collectFiles_searched dir filePattern tree :
  collectFiles dir filePattern tree
  = map (fun file => fst (fst file))
      (List.filter (searched filePattern)
         (GoPath.allFiles dir (GoPath.Base dir) tree [])).
Proof.
  unfold Search.collectFiles.
  rewrite (Walk_fold _ skippedDir
             (fun p info files =>
                if (String.eqb filePattern "" || GlobMatch filePattern (GoPath.Name info))
                   && negb (bool_decide (ToLower (GoPath.Ext p) ∈ binaryExts))
                then files ++ [p] else files)).
  - rewrite (foldl_append_kept
               (fun file =>
                  (String.eqb filePattern ""
                   || GlobMatch filePattern (GoPath.Name (snd (fst file))))
                  && negb (bool_decide (ToLower (GoPath.Ext (fst (fst file))) ∈ binaryExts)))
               (fun file => fst (fst file))).
    cbn [app]. rewrite filter_filter_andb. f_equal.
    apply List.filter_ext. intros file. unfold Search.searched.
    now rewrite andb_assoc.
  - intros path info st Hd. unfold Search.visit, skippedDir. rewrite Hd. cbn [snd].
    now destruct (skippedName _).
  - intros path info st Hd. unfold Search.visit. rewrite Hd.
    destruct (String.eqb filePattern ""), (GlobMatch filePattern _),
      (bool_decide _); reflexivity.
Qed.

(** X3: every match that [search] returns is a line of a file that the walk
    kept.  The file is a file of the tree under no hidden or skipped
    directory, its name matches the file pattern if there is one, and its
    extension is not one of the binary extensions; the content is the line
    of the file at the line number of the match (counted from 1), and the
    request matches that line. *)
Theorem searchDir_sound dir pattern isRegex ignoreCase filePattern maxResults tree m :
  (forall l, Permutation (deliver l) l) ->
  In m (Matches (searchDir dir pattern isRegex ignoreCase filePattern maxResults tree)) ->
  (exists file,
      In file (GoPath.allFiles dir (GoPath.Base dir) tree [])
      /\ searched filePattern file = true /\ fst (fst file) = File m)
  /\ lineMatches pattern isRegex ignoreCase (Content m) = true
  /\ exists lines (i : nat),
       readLines (File m) = Some lines
       /\ lineAt lines i (Content m) /\ Line m = Z.of_nat i + 1.
Proof.
  intros Hperm Hin. unfold Search.searchDir in Hin.
  apply search_In in Hin as (Hfile & Hfound & Hline).
  repeat split; [|exact Hfound|exact Hline].
  apply (Permutation_in _ (Hperm _)) in Hfile.
  rewrite collectFiles_searched in Hfile.
  apply in_map_iff in Hfile as (file & Hp & Hin). apply filter_In in Hin as [Hin Hs].
  now exists file.
Qed.

(** X4: below the cap no line that the scanner yields is missed.  When
    [search] returns fewer matches than [maxResults], and [data] is the
    content of a file that the walk kept, every line that the scanner
    yields of [data] and that the request matches is among the matches,
    with its line number.  The scanner yields the lines before the first
    line of 64 KiB or more; the lines from there on are not searched, and
    nothing is said of them. *)
Theorem searchDir_complete dir pattern isRegex ignoreCase filePattern maxResults tree
    file data (i : nat) line :
  (forall l, Permutation (deliver l) l) ->
  Count (searchDir dir pattern isRegex ignoreCase filePattern maxResults tree)
  < maxResults ->
  In file (GoPath.allFiles dir (GoPath.Base dir) tree []) ->
  searched filePattern file = true ->
  readLines (fst (fst file)) = Some (GoBufio.Scan data) ->
  lineAt (map GoBufio.dropCR (GoBufio.fitting (GoBufio.rawLines data))) i line ->
  lineMatches pattern isRegex ignoreCase line = true ->
  In {| File := fst (fst file); Line := Z.of_nat i + 1; Content := line |}
     (Matches (searchDir dir pattern isRegex ignoreCase filePattern maxResults tree)).
Proof.
  intros Hperm Hcap Hin Hs Hread Hi Hfound.
  change (map GoBufio.dropCR (GoBufio.fitting (GoBufio.rawLines data)))
    with (GoBufio.Scan data) in Hi.
  set (lines := GoBufio.Scan data) in *.
  assert (Hfile : In (fst (fst file)) (deliver (collectFiles dir filePattern tree))).
  { apply (Permutation_in _ (Permutation_sym (Hperm _))).
    rewrite collectFiles_searched. apply in_map_iff. exists file.
    split; [reflexivity|]. apply filter_In. now split. }
  unfold Search.searchDir in *. revert Hcap Hfound.
  generalize (deliver (collectFiles dir filePattern tree)) Hfile. clear Hfile.
  intros arrival Hfile. unfold Search.search, Search.lineMatches.
  assert (Huncut : forall (l : list Match),
             Z.of_nat (length (firstn (Z.to_nat maxResults) l)) < maxResults ->
             firstn (Z.to_nat maxResults) l = l).
  { intros l Hlt. apply firstn_all2. rewrite length_firstn in Hlt. lia. }
  destruct isRegex.
  - destruct (Compile _) as [re|err]; [|discriminate]. cbn [Matches Count].
    rewrite gather_firstn. cbn [app length]. rewrite Z.sub_0_r. intros Hcap Hfound.
    rewrite (Huncut _ Hcap). apply in_concat. eexists. split.
    + apply in_map_iff. exists (fst (fst file)). split; [reflexivity|exact Hfile].
    + apply searchFile_In. cbn [File Content Line]. repeat split; [exact Hfound|].
      now exists lines, i.
  - cbn [Matches Count]. rewrite gather_firstn. cbn [app length].
    rewrite Z.sub_0_r. intros Hcap Hfound.
    rewrite (Huncut _ Hcap). apply in_concat. eexists. split.
    + apply in_map_iff. exists (fst (fst file)). split; [reflexivity|exact Hfile].
    + apply searchFile_In. cbn [File Content Line]. repeat split.
      * unfold Search.lineFound. now destruct ignoreCase.
      * now exists lines, i.
Qed.

End SearchDirProps.

Lemma searchDir_sound_witness :
  exists lines (i : nat),
    sampleLines "b.txt" = Some lines
    /\ nth_error lines i = Some "foo" /\ 2 = Z.of_nat i + 1.
Proof.
  assert (Hin : In {| Search.File := "b.txt"; Search.Line := 2;
                      Search.Content := "foo" |}
                  (Search.Matches (sampleSearchDir 100)))
    by (vm_compute; left; reflexivity).
  exact (proj2 (proj2 (searchDir_sound unit (fun _ => inl tt) (fun _ _ => false)
                         (fun s => s) sampleLines (fun _ _ => true) (@rev _)
                         "." "foo" false false "" 100 searchTree _
                         (fun l => Permutation_sym (Permutation_rev l)) Hin))).
Defined.

Lemma searchDir_complete_witness :
  In {| Search.File := "a.txt"; Search.Line := 3; Search.Content := "foo bar" |}
     (Search.Matches (sampleSearchDir 100)).
Proof.
  apply (searchDir_complete unit (fun _ => inl tt) (fun _ _ => false)
           (fun s => s) sampleLines (fun _ _ => true) (@rev _)
           "." "foo" false false "" 100 searchTree
           ("a.txt",
            {| GoPath.Name := "a.txt"; GoPath.Size := 12; GoPath.ModTime := epoch;
               GoPath.IsDir := false |},
            [(".", {| GoPath.Name := "."; GoPath.Size := 4096;
                      GoPath.ModTime := epoch; GoPath.IsDir := true |})])
           aTxtData 2 "foo bar"
           (fun l => Permutation_sym (Permutation_rev l))).
  - vm_compute. reflexivity.
  - vm_compute. left. reflexivity.
  - vm_compute. reflexivity.
  - vm_compute. reflexivity.
  - vm_compute. reflexivity.
  - vm_compute. reflexivity.
Defined.

(** In a file whose second line has 65536 bytes the scanner yields the first
    line only: the third line holds the text and gives no match, and no
    error is reported. *)
Example searchFile_long_line :
  Search.search unit (fun _ => inl tt) (fun _ _ => false) (fun s => s)
    (fun _ => Some (GoBufio.Scan
                      (GoStrings.joinWith Diff.newline
                         ["foo"; longLine; "foo"; ""])))
    "foo" false false 100 ["a.txt"]
  = {| Search.Matches :=
         [ {| Search.File := "a.txt"; Search.Line := 1; Search.Content := "foo" |} ];
       Search.Count := 1; Search.Error := "" |}.
Proof. vm_compute. reflexivity. Qed.

(** ** SymbolExtractor *)

Section AnalyzerProps.
Import Analyzer.

Variable FindStringSubmatch : string -> string -> option (list string).
Variable ToLower : string -> string.
Variable TrimSpace : string -> string.
Variable openLines : string -> list string + string.

Local Abbreviation getLanguage := (getLanguage ToLower).
Local Abbreviation analyzeFile :=
  (analyzeFile FindStringSubmatch ToLower TrimSpace openLines).
Local Abbreviation scanLine := (scanLine FindStringSubmatch TrimSpace).

(** Every language that [getLanguage] names has a pattern table: the
    languages without one are the paths for which it returns the empty
    string. *)
Lemma languagePatterns_getLanguage path :
  languagePatterns (getLanguage path) = None <-> getLanguage path = "".
Proof.
  unfold Analyzer.getLanguage.
  repeat match goal with
         | |- context [if ?b then _ else _] => destruct b
         end; cbv; split; congruence.
Qed.

Lemma scanLine_lineNum language filter patterns st line :
  lineNum (scanLine language filter patterns st line) = lineNum st + 1.
Proof.
  unfold Analyzer.scanLine, continuationLine, importLine, classLine,
    functionLine, otherLine.
  repeat match goal with
         | |- context [if ?b then _ else _] => destruct b
         | |- context [find ?f ?p ?l] => destruct (find f p l)
         end; reflexivity.
Qed.

Lemma foldl_scanLine_lineNum language filter patterns lines st :
  lineNum (foldl (scanLine language filter patterns) st lines)
  = lineNum st + Z.of_nat (length lines).
Proof.
  revert st. induction lines as [|line rest IH]; intros st; simpl.
  - lia.
  - rewrite IH, scanLine_lineNum. lia.
Qed.

(** For a language with a pattern table, the scanning loop counts the
    lines. *)
Lemma analyzeFile_supported_LineCount path filter lines patterns :
  openLines path = inl lines ->
  languagePatterns (getLanguage path) = Some patterns ->
  LineCount (analyzeFile path filter) = Z.of_nat (length lines).
Proof.
  intros Ho Hp. unfold Analyzer.analyzeFile. rewrite Ho, Hp. cbn [LineCount].
  now rewrite foldl_scanLine_lineNum.
Qed.

(** C7 (the code against the claim).  For a readable file in a language
    without a pattern table [analyzeFile] returns before the scanning loop:
    the symbol list is empty, and the line count is left at zero whatever
    the number of lines of the file. *)
Theorem analyzeFile_unsupported path filter lines :
  openLines path = inl lines ->
  languagePatterns (getLanguage path) = None ->
  Symbols (analyzeFile path filter) = []
  /\ Imports (analyzeFile path filter) = []
  /\ Error (analyzeFile path filter) = ""
  /\ LineCount (analyzeFile path filter) = 0.
Proof.
  intros Ho Hp. unfold Analyzer.analyzeFile. rewrite Ho, Hp. simpl. auto.
Qed.

End AnalyzerProps.

Lemma analyzeFile_unsupported_witness :
  Analyzer.Symbols analyzeNotes = []
  /\ Analyzer.Imports analyzeNotes = []
  /\ Analyzer.Error analyzeNotes = ""
  /\ Analyzer.LineCount analyzeNotes = 0.
Proof.
  apply (analyzeFile_unsupported (fun _ _ => None) asciiLower (fun s => s)
           notesFile "notes.txt" "" ["first line"; "second line"]);
    reflexivity.
Defined.

(** The file has two lines and the reported line count is zero. *)
Example analyzeNotes_LineCount :
  notesFile "notes.txt" = inl ["first line"; "second line"]
  /\ Analyzer.LineCount analyzeNotes <> 2.
Proof. split; [reflexivity|]. vm_compute. discriminate. Qed.

(** *** SymbolExtractor: the symbols of a file, and the files of a directory *)

Section AnalyzeProps.
Import Analyzer.

Variable FindStringSubmatch : string -> string -> option (list string).
Variable ToLower : string -> string.
Variable TrimSpace : string -> string.
Variable openLines : string -> list string + string.
Variable deliver : list FileAnalysis -> list FileAnalysis.

Local Abbreviation getLanguage := (getLanguage ToLower).
Local Abbreviation analyzeFile :=
  (analyzeFile FindStringSubmatch ToLower TrimSpace openLines).
Local Abbreviation scanLine := (scanLine FindStringSubmatch TrimSpace).
Local Abbreviation find := (find FindStringSubmatch).
Local Abbreviation analyze :=
  (analyze FindStringSubmatch ToLower TrimSpace openLines deliver).
Local Abbreviation kept := (kept ToLower).
Local Abbreviation collectFiles := (collectFiles ToLower TrimSpace).

(** What one line may add: a symbol at that line, of the type asked for,
    that the pattern of its type matches on the line, and whose name is
    among the imports when it is an import. *)
Local Abbreviation emitted :=
  (fun (filter : string) (patterns : LanguagePatterns) (line : string)
       (lineNo : Z) (imported : list string) (s : Symbol) =>
     Line s = lineNo
     /\ (filter = "" \/ Type_ s = filter)
     /\ (exists pattern,
            symbolPattern patterns (Type_ s) = Some pattern
            /\ FindStringSubmatch pattern line <> None)
     /\ (Type_ s = "import" -> In (Name s) imported)).

Lemma filter_allows filter type :
  String.eqb filter "" || String.eqb filter type = true ->
  filter = "" \/ type = filter.
Proof.
  intros H. apply orb_true_iff in H as [H|H]; apply String.eqb_eq in H; auto.
Qed.

Lemma find_Some pattern line matches :
  find pattern line = Some matches ->
  exists p, pattern = Some p /\ FindStringSubmatch p line <> None.
Proof.
  destruct pattern as [p|]; [|discriminate]. cbn. intros H. exists p.
  split; [reflexivity|]. now rewrite H.
Qed.

Lemma scanLine_step language filter patterns st line :
  (exists more,
      imports (scanLine language filter patterns st line) = imports st ++ more)
  /\ (symbols (scanLine language filter patterns st line) = symbols st
      \/ exists s,
           symbols (scanLine language filter patterns st line) = symbols st ++ [s]
           /\ emitted filter patterns line (lineNum st + 1)
                (imports (scanLine language filter patterns st line)) s).
Proof.
  unfold Analyzer.scanLine.
  destruct (String.eqb (TrimSpace line) "").
  { split; [exists []; cbn; now rewrite app_nil_r|now left]. }
  cbn [inMultilineImport]. destruct (inMultilineImport st).
  { unfold continuationLine. destruct (GoStrings.Contains _ _); cbn.
    - split; [eexists; reflexivity|now left].
    - split; [exists []; now rewrite app_nil_r|now left]. }
  destruct (find (Decorator patterns) line) as [dm|].
  { cbn. split; [exists []; now rewrite app_nil_r|now left]. }
  destruct (find (Import patterns) line) as [im|] eqn:Himp.
  { apply find_Some in Himp as (p & Hp & Hm).
    unfold importLine. destruct (_ && _); cbn.
    - split; [exists []; now rewrite app_nil_r|now left].
    - split; [eexists; reflexivity|].
      destruct (String.eqb filter "" || String.eqb filter "import") eqn:Hf;
        [|now left].
      right. eexists. split; [reflexivity|]. cbn. repeat split.
      + now apply filter_allows.
      + exists p. split; [exact Hp|exact Hm].
      + intros _. apply in_or_app. right. now left. }
  destruct (find (Class patterns) line) as [cm|] eqn:Hcls.
  { apply find_Some in Hcls as (p & Hp & Hm).
    unfold classLine. cbn.
    split; [exists []; now rewrite app_nil_r|].
    destruct (String.eqb filter "" || String.eqb filter "class") eqn:Hf;
      [|now left].
    right. eexists. split; [reflexivity|]. cbn. repeat split.
    + now apply filter_allows.
    + exists p. split; [exact Hp|exact Hm].
    + discriminate. }
  destruct (find (Function patterns) line) as [fm|] eqn:Hfun.
  { apply find_Some in Hfun as (p & Hp & Hm).
    unfold functionLine.
    set (parts := if String.eqb language "python" then _ else _).
    destruct parts as [[[name signature] isMethod] current]. cbn.
    split; [exists []; now rewrite app_nil_r|].
    destruct (String.eqb filter "" || String.eqb filter _) eqn:Hf; [|now left].
    right. eexists. split; [reflexivity|]. cbn. repeat split.
    + now apply filter_allows.
    + exists p. split; [|exact Hm]. unfold symbolPattern. now destruct isMethod.
    + now destruct isMethod. }
  unfold otherLine. cbn. split; [exists []; now rewrite app_nil_r|now left].
Qed.

Lemma foldl_scanLine_imports language filter patterns lines st :
  exists more,
    imports (foldl (scanLine language filter patterns) st lines)
    = imports st ++ more.
Proof.
  revert st. induction lines as [|line lines IH]; intros st; cbn [foldl].
  - exists []. now rewrite app_nil_r.
  - destruct (IH (scanLine language filter patterns st line)) as (more & ->).
    destruct (scanLine_step language filter patterns st line) as [(m0 & ->) _].
    eexists. now rewrite <- app_assoc.
Qed.

(** The symbols that the scanning loop adds over [lines]. *)
Lemma foldl_scanLine_symbols language filter patterns lines :
  forall st,
  exists fresh,
    symbols (foldl (scanLine language filter patterns) st lines)
    = symbols st ++ fresh
    /\ List.Forall
         (fun s => exists (i : nat) line,
              nth_error lines i = Some line
              /\ emitted filter patterns line (lineNum st + Z.of_nat i + 1)
                   (imports (foldl (scanLine language filter patterns) st lines)) s)
         fresh
    /\ StronglySorted (fun a b => Line a < Line b) fresh.
Proof.
  induction lines as [|line lines IH]; intros st; cbn [foldl].
  - exists []. rewrite app_nil_r. repeat split; constructor.
  - destruct (IH (scanLine language filter patterns st line))
      as (fresh & Hsym & Hall & Hsorted).
    rewrite Hsym. rewrite scanLine_lineNum in Hall.
    assert (Hshift : List.Forall
              (fun s => exists (i : nat) line0,
                   nth_error (line :: lines) i = Some line0
                   /\ emitted filter patterns line0 (lineNum st + Z.of_nat i + 1)
                        (imports (foldl (scanLine language filter patterns)
                                    (scanLine language filter patterns st line) lines)) s)
              fresh).
    { eapply List.Forall_impl; [|exact Hall].
      intros s (i & line0 & Hi & Hl & Hrest). exists (S i), line0.
      split; [exact Hi|]. split; [lia|exact Hrest]. }
    destruct (scanLine_step language filter patterns st line)
      as [_ [->|(s & -> & Hl & Hf & Hp & Himp)]].
    + exists fresh. repeat split; [exact Hshift|exact Hsorted].
    + exists (s :: fresh). rewrite <- app_assoc. repeat split.
      * constructor; [|exact Hshift]. exists O, line. split; [reflexivity|].
        repeat split; [lia|exact Hf|exact Hp|].
        intros Ht.
        destruct (foldl_scanLine_imports language filter patterns lines
                    (scanLine language filter patterns st line)) as (more & ->).
        apply in_or_app. left. now apply Himp.
      * constructor; [exact Hsorted|].
        eapply List.Forall_impl; [|exact Hall].
        intros s' (i & _ & _ & Hl' & _). lia.
Qed.

(** X5: the symbols of a file are listed by increasing line, one at most for
    a line, and each of them stands where the source has it: its line number
    is that of a line of the file which the pattern of its type (import,
    class, or function for functions and methods) matches.  With a type
    filter, all symbols are of that type; and the name of an import symbol
    is among the imports of the analysis. *)
Theorem analyzeFile_symbols path filter lines patterns :
  openLines path = inl lines ->
  languagePatterns (getLanguage path) = Some patterns ->
  StronglySorted (fun a b => Line a < Line b) (Symbols (analyzeFile path filter))
  /\ forall s, In s (Symbols (analyzeFile path filter)) ->
       (filter = "" \/ Type_ s = filter)
       /\ (Type_ s = "import" -> In (Name s) (Imports (analyzeFile path filter)))
       /\ exists (i : nat) line pattern,
            nth_error lines i = Some line /\ Line s = Z.of_nat i + 1
            /\ symbolPattern patterns (Type_ s) = Some pattern
            /\ FindStringSubmatch pattern line <> None.
Proof.
  intros Hopen Hpat. unfold Analyzer.analyzeFile. rewrite Hopen, Hpat.
  cbn [Symbols Imports].
  destruct (foldl_scanLine_symbols (getLanguage path) filter patterns lines
              {| lineNum := 0; currentClass := ""; pendingDecorators := [];
                 inMultilineImport := false; importBuffer := "";
                 symbols := []; imports := [] |})
    as (fresh & -> & Hall & Hsorted).
  cbn [symbols app lineNum] in *. split; [exact Hsorted|].
  intros s Hin. rewrite List.Forall_forall in Hall.
  destruct (Hall s Hin) as (i & line & Hi & Hl & Hf & (p & Hp & Hm) & Himp).
  repeat split; [exact Hf|exact Himp|].
  exists i, line, p. repeat split; [exact Hi|lia|exact Hp|exact Hm].
Qed.

(** X6: every symbol is an import, a class, a function or a method, whatever
    the language and the type filter. *)
Theorem analyzeFile_symbol_types path filter :
  List.Forall (fun s => In (Type_ s) ["import"; "class"; "function"; "method"])
    (Symbols (analyzeFile path filter)).
Proof.
  unfold Analyzer.analyzeFile.
  destruct (openLines path) as [lines|err]; [|constructor].
  destruct (languagePatterns (getLanguage path)) as [patterns|] eqn:Hpat;
    [|constructor].
  cbn [Symbols].
  destruct (foldl_scanLine_symbols (getLanguage path) filter patterns lines
              {| lineNum := 0; currentClass := ""; pendingDecorators := [];
                 inMultilineImport := false; importBuffer := "";
                 symbols := []; imports := [] |})
    as (fresh & -> & Hall & _).
  cbn [symbols app]. eapply List.Forall_impl; [|exact Hall].
  intros s (_ & _ & _ & _ & _ & (p & Hp & _) & _).
  unfold symbolPattern in Hp. cbn [In].
  destruct (String.eqb_spec (Type_ s) "import"); [auto|].
  destruct (String.eqb_spec (Type_ s) "class"); [auto|].
  destruct (String.eqb_spec (Type_ s) "function"); [auto|].
  destruct (String.eqb_spec (Type_ s) "method"); [auto|]. discriminate.
Qed.

End AnalyzeProps.

Section AnalyzeDirProps.
Import Analyzer.

Variable FindStringSubmatch : string -> string -> option (list string).
Variable ToLower : string -> string.
Variable TrimSpace : string -> string.
Variable openLines : string -> list string + string.
Variable deliver : list FileAnalysis -> list FileAnalysis.

Local Abbreviation getLanguage := (getLanguage ToLower).
Local Abbreviation analyzeFile :=
  (analyzeFile FindStringSubmatch ToLower TrimSpace openLines).
Local Abbreviation analyze :=
  (analyze FindStringSubmatch ToLower TrimSpace openLines deliver).
Local Abbreviation kept := (kept ToLower).
Local Abbreviation parseExtensions := (parseExtensions ToLower TrimSpace).
Local Abbreviation collectFiles := (collectFiles ToLower TrimSpace).

Lemma collectFiles_kept path extensions maxDepth size modified entries :
  collectFiles path extensions maxDepth (GoPath.Dir size modified entries)
  = map (fun file => fst (fst file))
      (List.filter
         (kept (parseExtensions extensions) maxDepth
            (GoStrings.Count (GoPath.Clean path) "/"))
         (GoPath.allFiles path (GoPath.Base path)
            (GoPath.Dir size modified entries) [])).
Proof.
  unfold Analyzer.collectFiles.
  set (extFilter := parseExtensions extensions).
  set (baseDepth := GoStrings.Count (GoPath.Clean path) "/").
  rewrite (Walk_fold _ (skippedDir maxDepth baseDepth)
             (fun p info files =>
                if extensionKept ToLower extFilter p
                   && negb (String.eqb (getLanguage p) "")
                then files ++ [p] else files)).
  - rewrite (foldl_append_kept
               (fun file =>
                  extensionKept ToLower extFilter (fst (fst file))
                  && negb (String.eqb (getLanguage (fst (fst file))) ""))
               (fun file => fst (fst file))).
    cbn [app]. rewrite filter_filter_andb. f_equal.
    apply List.filter_ext. intros file. unfold Analyzer.kept.
    now rewrite andb_assoc.
  - intros p info st Hd. unfold Analyzer.visit, skippedDir. rewrite Hd.
    cbn [fst snd]. destruct (skippedName _); [reflexivity|].
    now destruct (tooDeep _ _ _).
  - intros p info st Hd. unfold Analyzer.visit. rewrite Hd.
    destruct (extensionKept _ _ _); [|reflexivity].
    now destruct (String.eqb _ "").
Qed.


(** X8: in a directory every analysis is of a file in a language with a
    pattern table, so the scanning loop ran over the file: when the file can
    be opened and [data] is its content, [LineCount] is the number of lines
    that the scanner yields of [data], which is the number of lines before
    the first line of 64 KiB or more; it is the number of lines of the file
    when each of them is shorter than that. *)
Theorem analyze_directory_line_counts path extensions symbolType maxDepth
    size modified entries fa :
  (forall l, Permutation (deliver l) l) ->
  In fa (Files (analyze path extensions symbolType maxDepth
                  (inl (GoPath.Dir size modified entries)))) ->
  languagePatterns (Language fa) <> None
  /\ forall data,
       openLines (Path fa) = inl (GoBufio.Scan data) ->
       LineCount fa
       = Z.of_nat (length (GoBufio.fitting (GoBufio.rawLines data)))
       /\ (forallb GoBufio.fits (GoBufio.rawLines data) = true ->
           LineCount fa = Z.of_nat (length (GoBufio.rawLines data))).
Proof.
  enough (H : (forall l, Permutation (deliver l) l) ->
              In fa (Files (analyze path extensions symbolType maxDepth
                              (inl (GoPath.Dir size modified entries)))) ->
              languagePatterns (Language fa) <> None
              /\ forall lines,
                   openLines (Path fa) = inl lines ->
                   LineCount fa = Z.of_nat (length lines)).
  { intros Hperm Hin. destruct (H Hperm Hin) as [Hpat Hcount].
    split; [exact Hpat|]. intros data Hopen.
    rewrite (Hcount _ Hopen). unfold GoBufio.Scan. rewrite length_map.
    split; [reflexivity|]. intros Hfit. now rewrite fitting_all. }
  intros Hperm Hin. unfold Analyzer.analyze in Hin. cbn [Files] in Hin.
  apply (Permutation_in _ (Hperm _)) in Hin.
  rewrite collectFiles_kept, map_map in Hin.
  apply in_map_iff in Hin as (file & <- & Hin). apply filter_In in Hin as [_ Hk].
  unfold Analyzer.kept in Hk. apply andb_true_iff in Hk as [_ Hlang].
  assert (Hpat : languagePatterns (getLanguage (fst (fst file))) <> None).
  { rewrite languagePatterns_getLanguage. intros E. rewrite E in Hlang. discriminate. }
  assert (HL : Language (analyzeFile (fst (fst file)) symbolType)
               = getLanguage (fst (fst file))).
  { unfold Analyzer.analyzeFile. destruct (openLines _); [|reflexivity].
    now destruct (languagePatterns _). }
  assert (HP : Path (analyzeFile (fst (fst file)) symbolType) = fst (fst file)).
  { unfold Analyzer.analyzeFile. destruct (openLines _); [|reflexivity].
    now destruct (languagePatterns _). }
  rewrite HL, HP. split; [exact Hpat|]. intros lines Hopen.
  destruct (languagePatterns (getLanguage (fst (fst file)))) as [patterns|] eqn:E;
    [|now destruct Hpat].
  now apply (analyzeFile_supported_LineCount _ _ _ _ _ _ lines patterns).
Qed.

End AnalyzeDirProps.

Lemma analyzeFile_symbols_witness :
  StronglySorted (fun a b => Analyzer.Line a < Analyzer.Line b)
    (Analyzer.Symbols
       (Analyzer.analyzeFile pySubmatch asciiLower (fun s => s) pyLines "a.py" ""))
  /\ map Analyzer.Type_
       (Analyzer.Symbols
          (Analyzer.analyzeFile pySubmatch asciiLower (fun s => s) pyLines "a.py" ""))
     = ["import"; "class"; "function"].
Proof.
  split; [|vm_compute; reflexivity].
  assert (Hopen : pyLines "a.py" = inl ["import os"; "class A:"; "def f(x):"])
    by (vm_compute; reflexivity).
  assert (Hpat : Analyzer.languagePatterns (Analyzer.getLanguage asciiLower "a.py")
                 = Some Analyzer.pythonPatterns) by (vm_compute; reflexivity).
  exact (proj1 (analyzeFile_symbols pySubmatch asciiLower (fun s => s) pyLines
                  "a.py" "" _ _ Hopen Hpat)).
Defined.


Lemma analyze_directory_line_counts_witness :
  Analyzer.LineCount
    (Analyzer.analyzeFile pySubmatch asciiLower (fun s => s) pyLines "a.py" "")
  = Z.of_nat (length (GoBufio.fitting (GoBufio.rawLines pyData))).
Proof.
  refine (proj1 (proj2 (analyze_directory_line_counts pySubmatch asciiLower
           (fun s => s) pyLines
           (@rev _) "." "" "" (-1) 4096 epoch
           [ (".git", GoPath.Dir 4096 epoch [("config", GoPath.File 5 epoch)]);
             ("a.py", GoPath.File 10 epoch);
             ("d", GoPath.Dir 4096 epoch [("a.py", GoPath.File 20 epoch)]) ]
           (Analyzer.analyzeFile pySubmatch asciiLower (fun s => s) pyLines "a.py" "")
           (fun l => Permutation_sym (Permutation_rev l)) _)
           pyData _)).
  - vm_compute. right. left. reflexivity.
  - vm_compute. reflexivity.
Defined.

(** ** SymbolResolver *)

Section ResolverProps.
Import Resolver.

Variable FindStringSubmatch : string -> string -> option (list string).
Variable MatchString : string -> string -> bool.
Variable QuoteMeta : string -> string.
Variable ToLower : string -> string.
Variable TrimSpace : string -> string.
Variable readLines : string -> option (list string).

Local Abbreviation searchFile :=
  (searchFile FindStringSubmatch MatchString QuoteMeta ToLower TrimSpace readLines).
Local Abbreviation resolve :=
  (resolve FindStringSubmatch MatchString QuoteMeta ToLower TrimSpace readLines).
Local Abbreviation scanLines := (scanLines FindStringSubmatch MatchString TrimSpace).

Lemma foldl_concat {A B} (g : A -> B -> A) (s : A) (ls : list (list B)) :
  foldl (fun s l => foldl g s l) s ls = foldl g s (concat ls).
Proof.
  revert s. induction ls as [|l ls IH]; intros s; simpl; [reflexivity|].
  now rewrite IH, foldl_app.
Qed.

(** Once a definition is recorded, every further match is a reference. *)
Lemma gather_defined sym d (ms : list match_) :
  Definition_ sym = Some d ->
  Definition_ (foldl gatherMatch sym ms) = Some d
  /\ References (foldl gatherMatch sym ms) = References sym ++ map loc ms.
Proof.
  revert sym. induction ms as [|m ms IH]; intros sym Hd; simpl.
  - now rewrite app_nil_r.
  - destruct (IH (gatherMatch sym m)) as [-> ->].
    + unfold gatherMatch. rewrite Hd. now destruct (isDef m).
    + split; [reflexivity|]. unfold gatherMatch. rewrite Hd.
      destruct (isDef m); simpl; now rewrite <- app_assoc.
Qed.

(** The definition, if any, is one of the matches, and the references are
    all the others. *)
Lemma gather_undefined sym (ms : list match_) :
  Definition_ sym = None ->
  (Definition_ (foldl gatherMatch sym ms) = None
   /\ References (foldl gatherMatch sym ms) = References sym ++ map loc ms)
  \/ exists ms1 m ms2,
       ms = ms1 ++ m :: ms2
       /\ Definition_ (foldl gatherMatch sym ms) = Some (loc m)
       /\ References (foldl gatherMatch sym ms)
          = References sym ++ map loc ms1 ++ map loc ms2.
Proof.
  revert sym. induction ms as [|m ms IH]; intros sym Hd; simpl.
  - left. now rewrite app_nil_r.
  - destruct (isDef m) eqn:Hm.
    + right. exists [], m, ms.
      destruct (gather_defined (gatherMatch sym m) (loc m) ms) as [-> ->].
      * unfold gatherMatch. now rewrite Hm, Hd.
      * repeat split. unfold gatherMatch. now rewrite Hm, Hd.
    + assert (Hg : gatherMatch sym m
                   = {| Name := Name sym; Type_ := Type_ sym;
                        Definition_ := Definition_ sym;
                        References := References sym ++ [loc m] |})
        by (unfold gatherMatch; now rewrite Hm).
      destruct (IH (gatherMatch sym m)) as [[-> ->]|(ms1 & m' & ms2 & -> & -> & ->)].
      * now rewrite Hg.
      * left. rewrite Hg. simpl. now rewrite <- app_assoc.
      * right. exists (m :: ms1), m', ms2. rewrite Hg. simpl.
        now rewrite <- app_assoc.
Qed.

(** The matches of one file lie in that file, on lines of their own. *)
Lemma scanLines_new path name patterns refRe lines lineNum acc :
  exists fresh,
    scanLines path name patterns refRe lineNum acc lines = acc ++ fresh
    /\ Forall (fun m => File (loc m) = path /\ lineNum < Line (loc m)) fresh
    /\ List.NoDup (map (fun m => Line (loc m)) fresh).
Proof.
  revert lineNum acc. induction lines as [|line rest IH]; intros lineNum acc.
  - exists []. rewrite app_nil_r. repeat constructor.
  - cbn [Resolver.scanLines].
    set (here := {| File := path; Line := lineNum + 1;
                    Column := GoStrings.Index line name + 1;
                    Text := TrimSpace line |}).
    assert (Hone : forall b,
      exists fresh,
        scanLines path name patterns refRe (lineNum + 1)
          (acc ++ [{| loc := here; isDef := b |}]) rest = acc ++ fresh
        /\ Forall (fun m => File (loc m) = path /\ lineNum < Line (loc m)) fresh
        /\ List.NoDup (map (fun m => Line (loc m)) fresh)).
    { intros b.
      destruct (IH (lineNum + 1) (acc ++ [{| loc := here; isDef := b |}]))
        as (fresh & -> & Hall & Hnd).
      exists ({| loc := here; isDef := b |} :: fresh).
      split; [now rewrite <- app_assoc|]. split.
      - constructor; [simpl; split; [reflexivity|lia]|].
        eapply List.Forall_impl; [|exact Hall]. simpl. intros m [? ?]. split; [assumption|lia].
      - simpl. constructor; [|exact Hnd].
        intros Hin. apply in_map_iff in Hin as (m & Hm & Hin).
        rewrite List.Forall_forall in Hall. apply Hall in Hin. lia. }
    destruct (definesName _ _ _ _); [apply Hone|].
    destruct (MatchString _ _); [apply Hone|].
    destruct (IH (lineNum + 1) acc) as (fresh & -> & Hall & Hnd).
    exists fresh. split; [reflexivity|]. split; [|exact Hnd].
    eapply List.Forall_impl; [|exact Hall]. simpl. intros m [? ?]. split; [assumption|lia].
Qed.

Lemma searchFile_locations path name :
  Forall (fun m => File (loc m) = path) (searchFile path name)
  /\ List.NoDup (map loc (searchFile path name)).
Proof.
  unfold Resolver.searchFile. destruct (readLines path) as [lines|].
  - destruct (scanLines_new path name
                (defPatterns (getLang ToLower path))
                ("\b" +:+ QuoteMeta name +:+ "\b") lines 0 [])
      as (fresh & -> & Hall & Hnd). simpl. split.
    + eapply List.Forall_impl; [|exact Hall]. simpl. tauto.
    + apply (NoDup_map_inv Line). now rewrite map_map.
  - split; constructor.
Qed.

(** Over distinct paths, no two matches share a location. *)
Lemma matches_distinct name (arrival : list string) :
  List.NoDup arrival ->
  List.NoDup (map loc (concat (map (fun f => searchFile f name) arrival))).
Proof.
  induction arrival as [|f rest IH]; intros Hnd; [constructor|].
  inversion Hnd as [|? ? Hf Hrest]; subst. simpl. rewrite map_app.
  destruct (searchFile_locations f name) as [Hfile Hloc].
  apply List.NoDup_app; [exact Hloc|now apply IH|].
  intros l Hin1 Hin2.
  apply in_map_iff in Hin1 as (m1 & <- & Hm1).
  apply in_map_iff in Hin2 as (m2 & Heq & Hm2).
  apply in_concat in Hm2 as (ms & Hms & Hm2).
  apply in_map_iff in Hms as (g & <- & Hg).
  rewrite List.Forall_forall in Hfile. apply Hfile in Hm1.
  destruct (searchFile_locations g name) as [Hgfile _].
  rewrite List.Forall_forall in Hgfile. apply Hgfile in Hm2.
  apply Hf. congruence.
Qed.

(** C9. Over the distinct paths that the walk collects, in whatever order
    the files are finished, the location recorded as the definition of the
    symbol is not in its reference list. *)
Theorem resolve_definition_not_reference name files arrival :
  List.NoDup arrival ->
  forall d,
    Definition_ (resolved (resolve name files arrival)) = Some d ->
    ~ In d (References (resolved (resolve name files arrival))).
Proof.
  intros Hnd d. unfold Resolver.resolve, resolved. cbn [Symbols nth].
  rewrite foldl_concat.
  pose proof (matches_distinct name arrival Hnd) as Hlocs.
  destruct (gather_undefined
              {| Name := name; Type_ := ""; Definition_ := None; References := [] |}
              (concat (map (fun f => searchFile f name) arrival)) eq_refl)
    as [[-> _]|(ms1 & m & ms2 & Hsplit & -> & ->)]; [discriminate|].
  intros Hd. injection Hd as <-. cbn [References app].
  rewrite Hsplit, map_app in Hlocs. cbn [map] in Hlocs.
  now apply NoDup_remove_2 in Hlocs.
Qed.

End ResolverProps.

(** The end-to-end example: one definition in [a.py], line 1, and one
    reference in [b.py], line 1, also when [b.py] is finished first. *)
Example resolveFoo_result :
  resolveFoo ["b.py"; "a.py"]
  = {| Resolver.Symbols :=
         [{| Resolver.Name := "foo"; Resolver.Type_ := "";
             Resolver.Definition_ :=
               Some {| Resolver.File := "a.py"; Resolver.Line := 1;
                       Resolver.Column := 5; Resolver.Text := "def foo(): pass" |};
             Resolver.References :=
               [{| Resolver.File := "b.py"; Resolver.Line := 1;
                   Resolver.Column := 1; Resolver.Text := "foo()" |}] |}];
       Resolver.TotalRefs := 1; Resolver.FilesCount := 2; Resolver.Error := "" |}.
Proof. reflexivity. Qed.

Lemma resolve_definition_not_reference_witness :
  List.NoDup ["b.py"; "a.py"]
  /\ ~ In {| Resolver.File := "a.py"; Resolver.Line := 1; Resolver.Column := 5;
             Resolver.Text := "def foo(): pass" |}
          (Resolver.References (Resolver.resolved (resolveFoo ["b.py"; "a.py"]))).
Proof.
  assert (Hnd : List.NoDup ["b.py"; "a.py"])
    by (repeat constructor; simpl; intuition discriminate).
  split; [exact Hnd|].
  apply (resolve_definition_not_reference sampleSubmatch sampleMatch (fun s => s)
           asciiLower (fun s => s) twoPyFiles "foo" ["a.py"; "b.py"]
           ["b.py"; "a.py"] Hnd).
  reflexivity.
Defined.

(** *** SymbolResolver: the matches of a file, and what becomes of them *)

Section ResolveProps.
Import Resolver.

Variable FindStringSubmatch : string -> string -> option (list string).
Variable MatchString : string -> string -> bool.
Variable QuoteMeta : string -> string.
Variable ToLower : string -> string.
Variable TrimSpace : string -> string.
Variable readLines : string -> option (list string).
Variable deliver : list string -> list string.

Local Abbreviation getLang := (getLang ToLower).
Local Abbreviation definesName := (definesName FindStringSubmatch).
Local Abbreviation searchFile :=
  (searchFile FindStringSubmatch MatchString QuoteMeta ToLower TrimSpace readLines).
Local Abbreviation resolve :=
  (resolve FindStringSubmatch MatchString QuoteMeta ToLower TrimSpace readLines).
Local Abbreviation scanLines := (scanLines FindStringSubmatch MatchString TrimSpace).
Local Abbreviation collectFiles := (collectFiles ToLower TrimSpace).
Local Abbreviation parseExtensions := (parseExtensions TrimSpace).
Local Abbreviation kept := (kept ToLower).
Local Abbreviation resolveDir :=
  (resolveDir FindStringSubmatch MatchString QuoteMeta ToLower TrimSpace readLines
     deliver).

(** The match that [searchFile] records for the line [i] (from 0) of a
    file. *)
Local Abbreviation matchAt :=
  (fun (path name : string) (i : nat) (line : string) =>
     {| loc := {| File := path; Line := Z.of_nat i + 1;
                  Column := GoStrings.Index line name + 1;
                  Text := TrimSpace line |};
        isDef := definesName (defPatterns (getLang path)) line name |}).

Lemma resolver_scanLines_In path name patterns refRe lines :
  forall lineNum acc m,
    In m (scanLines path name patterns refRe lineNum acc lines)
    <-> In m acc
        \/ exists (i : nat) line,
             nth_error lines i = Some line
             /\ definesName patterns line name || MatchString refRe line = true
             /\ m = {| loc := {| File := path; Line := lineNum + Z.of_nat i + 1;
                                 Column := GoStrings.Index line name + 1;
                                 Text := TrimSpace line |};
                       isDef := definesName patterns line name |}.
Proof.
  induction lines as [|line lines IH]; intros lineNum acc m;
    cbn [Resolver.scanLines].
  - split; [now left|]. intros [H|(i & l & Hi & _)]; [exact H|]. now destruct i.
  - rewrite IH. clear IH. split.
    + intros [Hin|(i & l & Hi & Hm & ->)].
      * destruct (definesName patterns line name) eqn:Hdef.
        -- apply in_app_or in Hin as [Hin|[<-|[]]]; [now left|]. right.
           exists O, line. rewrite Hdef. repeat split. do 3 f_equal. lia.
        -- destruct (MatchString refRe line) eqn:Href; [|now left].
           apply in_app_or in Hin as [Hin|[<-|[]]]; [now left|]. right.
           exists O, line. rewrite Hdef, Href. repeat split. do 3 f_equal. lia.
      * right. exists (S i), l. repeat split; [exact Hi|exact Hm|].
        do 3 f_equal. lia.
    + intros [Hin|(i & l & Hi & Hm & ->)].
      * left. destruct (definesName patterns line name);
          [apply in_or_app; now left|].
        destruct (MatchString refRe line); [apply in_or_app; now left|exact Hin].
      * destruct i as [|i].
        -- left. injection Hi as <-.
           destruct (definesName patterns line name) eqn:Hdef.
           ++ apply in_or_app. right. left. do 3 f_equal. lia.
           ++ cbn [orb] in Hm. rewrite Hm. apply in_or_app. right. left.
              do 3 f_equal. lia.
        -- right. exists i, l. repeat split; [exact Hi|exact Hm|].
           do 3 f_equal. lia.
Qed.

(** The lines with their indices, from [start] on. *)
Lemma imap_pair_shift {A} (l : list A) (start : nat) :
  imap (fun i x => (start + S i, x)%nat) l
  = imap (fun i x => (S start + i, x)%nat) l.
Proof. apply imap_ext. intros i x _. f_equal. lia. Qed.

Lemma resolver_scanLines_eq path name patterns refRe lines :
  forall (start : nat) acc,
    scanLines path name patterns refRe (Z.of_nat start) acc lines
    = acc
      ++ map (fun numbered : nat * string =>
                {| loc := {| File := path; Line := Z.of_nat (fst numbered) + 1;
                             Column := GoStrings.Index (snd numbered) name + 1;
                             Text := TrimSpace (snd numbered) |};
                   isDef := definesName patterns (snd numbered) name |})
           (List.filter
              (fun numbered : nat * string =>
                 definesName patterns (snd numbered) name
                 || MatchString refRe (snd numbered))
              (imap (fun i line => (start + i, line)%nat) lines)).
Proof.
  induction lines as [|line lines IH]; intros start acc;
    cbn [Resolver.scanLines imap List.filter map].
  - now rewrite app_nil_r.
  - cbn zeta. cbn [fst snd].
    replace (Z.of_nat start + 1) with (Z.of_nat (S start)) by lia.
    rewrite IH. unfold compose. rewrite imap_pair_shift.
    rewrite Nat.add_0_r.
    destruct (definesName patterns line name) eqn:Hdef; cbn [orb].
    + cbn [map fst snd]. rewrite Hdef, <- app_assoc. cbn [app].
      do 4 f_equal. lia.
    + destruct (MatchString refRe line) eqn:Href.
      * cbn [map fst snd]. rewrite Hdef, <- app_assoc. cbn [app].
        do 4 f_equal. lia.
      * reflexivity.
Qed.

(** X9: the matches of a file are the lines that the scanner yields of it
    and that define the name or refer to it, one for each such line and in
    the order of the lines: the match carries the number of the line
    (counted from 1), the column of the first occurrence of the name, the
    trimmed text, and it is a definition exactly when a definition pattern
    of the language of the file matches the line with the name as its first
    group.  [data] is the content of the file; the scanner yields its lines
    before the first line of 64 KiB or more, and the lines from there on
    give no match. *)
Theorem searchFile_matches path name data :
  readLines path = Some (GoBufio.Scan data) ->
  searchFile path name
  = map (fun numbered : nat * string =>
           matchAt path name (fst numbered) (snd numbered))
      (List.filter
         (fun numbered : nat * string =>
            definesName (defPatterns (getLang path)) (snd numbered) name
            || MatchString ("\b" +:+ QuoteMeta name +:+ "\b") (snd numbered))
         (imap pair
            (map GoBufio.dropCR (GoBufio.fitting (GoBufio.rawLines data))))).
Proof.
  intros Hread. unfold Resolver.searchFile. rewrite Hread.
  change 0 with (Z.of_nat 0). rewrite resolver_scanLines_eq. reflexivity.
Qed.

(** The gathering loop takes the first definition among the matches and
    keeps all the other matches, in their order, as references. *)
Lemma gather_first_definition (ms : list match_) :
  forall sym,
    Definition_ sym = None ->
    (List.Forall (fun m => isDef m = false) ms
     /\ Definition_ (foldl gatherMatch sym ms) = None
     /\ References (foldl gatherMatch sym ms) = References sym ++ map loc ms)
    \/ exists ms1 m ms2,
         ms = ms1 ++ m :: ms2
         /\ List.Forall (fun m => isDef m = false) ms1 /\ isDef m = true
         /\ Definition_ (foldl gatherMatch sym ms) = Some (loc m)
         /\ References (foldl gatherMatch sym ms)
            = References sym ++ map loc ms1 ++ map loc ms2.
Proof.
  induction ms as [|m ms IH]; intros sym Hnone.
  - left. repeat split; [constructor|exact Hnone|]. cbn. now rewrite app_nil_r.
  - cbn [foldl]. destruct (isDef m) eqn:Hdef.
    + right. exists [], m, ms. cbn [app map].
      assert (Hg : gatherMatch sym m
                   = {| Name := Name sym; Type_ := Type_ sym;
                        Definition_ := Some (loc m); References := References sym |}).
      { unfold gatherMatch. now rewrite Hdef, Hnone. }
      rewrite Hg.
      destruct (gather_defined
                  {| Name := Name sym; Type_ := Type_ sym;
                     Definition_ := Some (loc m); References := References sym |}
                  (loc m) ms eq_refl) as [Hd Hr].
      repeat split; [constructor|exact Hdef|exact Hd|exact Hr].
    + assert (Hg : gatherMatch sym m
                   = {| Name := Name sym; Type_ := Type_ sym;
                        Definition_ := None;
                        References := References sym ++ [loc m] |}).
      { unfold gatherMatch. now rewrite Hdef, Hnone. }
      rewrite Hg.
      destruct (IH {| Name := Name sym; Type_ := Type_ sym; Definition_ := None;
                      References := References sym ++ [loc m] |} eq_refl)
        as [(Hall & Hd & Hr)|(ms1 & m' & ms2 & -> & Hall & Hdef' & Hd & Hr)].
      * left. repeat split; [now constructor|exact Hd|].
        rewrite Hr. cbn [References map]. now rewrite <- app_assoc.
      * right. exists (m :: ms1), m', ms2. repeat split;
          [now constructor|exact Hdef'|exact Hd|].
        rewrite Hr. cbn [References map]. now rewrite <- app_assoc.
Qed.

(** X10: every match is accounted for once.  With the matches of the files
    taken in the order in which the workers deliver them, the definition of
    the result is the first match that is a definition, the references are
    all the other matches in that order (later definitions among them), and
    [TotalRefs] is their number; without a match that is a definition, there
    is no definition and all matches are references. *)
Theorem resolve_first_definition name files arrival :
  let ms := concat (map (fun f => searchFile f name) arrival) in
  let sym := resolved (resolve name files arrival) in
  TotalRefs (resolve name files arrival) = Z.of_nat (length (References sym))
  /\ ((List.Forall (fun m => isDef m = false) ms
       /\ Definition_ sym = None /\ References sym = map loc ms)
      \/ exists ms1 m ms2,
           ms = ms1 ++ m :: ms2
           /\ List.Forall (fun m => isDef m = false) ms1 /\ isDef m = true
           /\ Definition_ sym = Some (loc m)
           /\ References sym = map loc ms1 ++ map loc ms2).
Proof.
  intros ms sym. subst ms sym. unfold Resolver.resolve, resolved.
  cbn [Symbols TotalRefs nth]. split; [reflexivity|].
  rewrite foldl_concat.
  apply (gather_first_definition _
           {| Name := name; Type_ := ""; Definition_ := None; References := [] |}
           eq_refl).
Qed.

Lemma resolver_collectFiles_kept dir extensions tree :
  collectFiles dir extensions tree
  = map (fun file => fst (fst file))
      (List.filter (kept (parseExtensions extensions))
         (GoPath.allFiles dir (GoPath.Base dir) tree [])).
Proof.
  unfold Resolver.collectFiles. set (extFilter := parseExtensions extensions).
  rewrite (Walk_fold _ skippedDir
             (fun p info files =>
                if extensionKept ToLower extFilter p
                   && negb (String.eqb (getLang p) "")
                then files ++ [p] else files)).
  - rewrite (foldl_append_kept
               (fun file =>
                  extensionKept ToLower extFilter (fst (fst file))
                  && negb (String.eqb (getLang (fst (fst file))) ""))
               (fun file => fst (fst file))).
    cbn [app]. rewrite filter_filter_andb. f_equal.
    apply List.filter_ext. intros file. unfold Resolver.kept.
    now rewrite andb_assoc.
  - intros p info st Hd. unfold Resolver.visit, skippedDir. rewrite Hd.
    cbn [snd]. now destruct (skippedName _).
  - intros p info st Hd. unfold Resolver.visit. rewrite Hd.
    destruct (extensionKept _ _ _); [|reflexivity].
    now destruct (String.eqb _ "").
Qed.

(** X11: [resolve] looks into the files that its walk keeps, and nowhere else.
    [FilesCount] is the number of files of the tree under no hidden or
    skipped directory, with an extension that passes the filter and in a
    language that the resolver knows; and the definition and every reference
    of the result lie in such a file. *)
Theorem resolveDir_files name dir extensions tree :
  (forall l, Permutation (deliver l) l) ->
  let sym := resolved (resolveDir name dir extensions tree) in
  let keptFiles :=
    List.filter (kept (parseExtensions extensions))
      (GoPath.allFiles dir (GoPath.Base dir) tree []) in
  FilesCount (resolveDir name dir extensions tree) = Z.of_nat (length keptFiles)
  /\ forall l,
       Definition_ sym = Some l \/ In l (References sym) ->
       exists file, In file keptFiles /\ fst (fst file) = File l.
Proof.
  intros Hperm sym keptFiles. subst sym keptFiles. unfold Resolver.resolveDir.
  split.
  - unfold Resolver.resolve. cbn [FilesCount].
    now rewrite resolver_collectFiles_kept, length_map.
  - intros l Hl.
    assert (Hm : exists m,
               In m (concat (map (fun f => searchFile f name)
                               (deliver (collectFiles dir extensions tree))))
               /\ loc m = l).
    { unfold Resolver.resolve, resolved in Hl. cbn [Symbols nth] in Hl.
      rewrite foldl_concat in Hl.
      destruct (gather_first_definition
                  (concat (map (fun f => searchFile f name)
                             (deliver (collectFiles dir extensions tree))))
                  {| Name := name; Type_ := ""; Definition_ := None;
                     References := [] |} eq_refl)
        as [(_ & Hd & Hr)|(ms1 & m & ms2 & Hms & _ & _ & Hd & Hr)];
        cbn [References app] in Hr.
      - destruct Hl as [Hl|Hl]; [rewrite Hd in Hl; discriminate|].
        rewrite Hr in Hl. apply in_map_iff in Hl as (m & <- & Hin). now exists m.
      - rewrite Hms. destruct Hl as [Hl|Hl].
        + rewrite Hd in Hl. injection Hl as <-. exists m. split; [|reflexivity].
          apply in_or_app. right. now left.
        + rewrite Hr in Hl. apply in_app_or in Hl as [Hl|Hl];
            apply in_map_iff in Hl as (m' & <- & Hin); exists m';
            (split; [|reflexivity]); apply in_or_app; [now left|right; now right]. }
    destruct Hm as (m & Hin & <-).
    apply in_concat in Hin as (found & Hfound & Hin).
    apply in_map_iff in Hfound as (path & <- & Hpath).
    destruct (searchFile_locations FindStringSubmatch MatchString QuoteMeta ToLower
                TrimSpace readLines path name) as [Hloc _].
    rewrite List.Forall_forall in Hloc. rewrite (Hloc m Hin).
    apply (Permutation_in _ (Hperm _)) in Hpath.
    rewrite resolver_collectFiles_kept in Hpath.
    apply in_map_iff in Hpath as (file & <- & Hfile). now exists file.
Qed.

End ResolveProps.

Lemma searchFile_matches_witness :
  Resolver.searchFile sampleSubmatch sampleMatch (fun s => s) asciiLower
    (fun s => s) twoPyFiles "a.py" "foo"
  = [ {| Resolver.loc :=
           {| Resolver.File := "a.py"; Resolver.Line := 1; Resolver.Column := 5;
              Resolver.Text := "def foo(): pass" |};
         Resolver.isDef := true |} ].
Proof.
  rewrite (searchFile_matches sampleSubmatch sampleMatch (fun s => s) asciiLower
             (fun s => s) twoPyFiles "a.py" "foo"
             ("def foo(): pass" +:+ Diff.newline)).
  - vm_compute. reflexivity.
  - vm_compute. reflexivity.
Defined.

Lemma resolveDir_files_witness : Resolver.FilesCount resolveFooDir = 2.
Proof.
  unfold resolveFooDir.
  rewrite (proj1 (resolveDir_files sampleSubmatch sampleMatch (fun s => s)
                    asciiLower (fun s => s) twoPyFiles (@rev _)
                    "foo" "." "" sampleTree
                    (fun l => Permutation_sym (Permutation_rev l)))).
  vm_compute. reflexivity.
Defined.

(** ** DiffEngine *)

Section DiffProps.
Import Diff.

Lemma wrap_small x : - 2 ^ 63 <= x < 2 ^ 63 -> wrap x = x.
Proof. intros H. unfold wrap. rewrite Z.mod_small; lia. Qed.

Lemma skipn_nth {A} (d : A) (l : list A) (i : nat) :
  (i < length l)%nat -> skipn i l = nth i l d :: skipn (S i) l.
Proof.
  revert i. induction l as [|x l IH]; intros [|i] H; simpl in *; try lia.
  - reflexivity.
  - rewrite IH by lia. reflexivity.
Qed.

Lemma commonPrefix_le_l a b : (commonPrefix a b <= length a)%nat.
Proof.
  revert b. induction a as [|x a IH]; intros [|y b]; simpl; try lia.
  destruct (String.eqb x y); [specialize (IH b)|]; lia.
Qed.

Lemma commonPrefix_le_r a b : (commonPrefix a b <= length b)%nat.
Proof.
  revert b. induction a as [|x a IH]; intros [|y b]; simpl; try lia.
  destruct (String.eqb x y); [specialize (IH b)|]; lia.
Qed.

Lemma commonPrefix_firstn a b (c : nat) :
  (c <= commonPrefix a b)%nat -> firstn c a = firstn c b.
Proof.
  revert a b. induction c as [|c IH]; intros a b H; [reflexivity|].
  destruct a as [|x a], b as [|y b]; simpl in H; try lia.
  destruct (String.eqb_spec x y) as [->|]; [|lia].
  simpl. f_equal. apply IH. lia.
Qed.

Lemma commonPrefix_skipn a b (c : nat) :
  (c <= commonPrefix a b)%nat ->
  commonPrefix (skipn c a) (skipn c b) = (commonPrefix a b - c)%nat.
Proof.
  revert a b. induction c as [|c IH]; intros a b H.
  - cbn [skipn]. now rewrite Nat.sub_0_r.
  - destruct a as [|x a], b as [|y b]; simpl in H; try lia.
    cbn [skipn commonPrefix]. destruct (String.eqb_spec x y) as [->|]; [|lia].
    rewrite IH by lia. reflexivity.
Qed.

Lemma firstn_firstn_skipn {A} (a b : nat) (l : list A) :
  firstn a l ++ firstn b (skipn a l) = firstn (a + b) l.
Proof.
  revert l. induction a as [|a IH]; intros [|x l]; cbn [firstn skipn app Nat.add];
    rewrite ?firstn_nil; try reflexivity.
  now rewrite IH.
Qed.

Lemma oldTagged_app l1 l2 : oldTagged (l1 ++ l2) = oldTagged l1 + oldTagged l2.
Proof. unfold oldTagged. rewrite List.filter_app, length_app. lia. Qed.

Lemma newTagged_app l1 l2 : newTagged (l1 ++ l2) = newTagged l1 + newTagged l2.
Proof. unfold newTagged. rewrite List.filter_app, length_app. lia. Qed.

Lemma tagged_context xs :
  oldTagged (map (String " ") xs) = Z.of_nat (length xs)
  /\ newTagged (map (String " ") xs) = Z.of_nat (length xs).
Proof.
  unfold oldTagged, newTagged.
  induction xs as [|x xs [IHo IHn]]; [split; reflexivity|].
  cbn [map List.filter hasTag]. change (Ascii.eqb " " " ") with true.
  cbn [orb length]. lia.
Qed.

Lemma map_nth_seq {A B} (f : A -> B) (d : A) (l : list A) (s k : nat) :
  (s + k <= length l)%nat ->
  map (fun i => f (nth i l d)) (seq s k) = map f (firstn k (skipn s l)).
Proof.
  revert s. induction k as [|k IH]; intros s H; [reflexivity|].
  cbn [seq map]. rewrite (skipn_nth d l s) by lia. cbn [firstn map].
  now rewrite IH by lia.
Qed.

Variables old new : list string.
Variable ctx : Z.

Let cp (i j : nat) : nat := commonPrefix (skipn i old) (skipn j new).

Lemma cp_le_old i j : (i <= length old)%nat -> (i + cp i j <= length old)%nat.
Proof.
  intros H. unfold cp. pose proof (commonPrefix_le_l (skipn i old) (skipn j new)).
  rewrite length_skipn in *. lia.
Qed.

Lemma cp_le_new i j : (j <= length new)%nat -> (j + cp i j <= length new)%nat.
Proof.
  intros H. unfold cp. pose proof (commonPrefix_le_r (skipn i old) (skipn j new)).
  rewrite length_skipn in *. lia.
Qed.

Lemma sameAt_true i j :
  sameAt old new i j = true ->
  skipn i old = nth i old "" :: skipn (S i) old
  /\ skipn j new = nth i old "" :: skipn (S j) new
  /\ cp i j = S (cp (S i) (S j)).
Proof.
  unfold sameAt. intros H.
  apply andb_prop in H as [H He]. apply andb_prop in H as [Hi Hj].
  apply Nat.ltb_lt in Hi, Hj. apply String.eqb_eq in He.
  pose proof (skipn_nth "" old i Hi) as E1.
  pose proof (skipn_nth "" new j Hj) as E2. rewrite <- He in E2.
  repeat split; try assumption.
  unfold cp. rewrite E1, E2. cbn [commonPrefix]. now rewrite String.eqb_refl.
Qed.

Lemma sameAt_false i j : sameAt old new i j = false -> cp i j = O.
Proof.
  unfold sameAt, cp. intros H.
  destruct (Nat.ltb_spec i (length old)) as [Hi|Hi].
  - destruct (Nat.ltb_spec j (length new)) as [Hj|Hj].
    + simpl in H. rewrite (skipn_nth "" old i Hi), (skipn_nth "" new j Hj).
      simpl. now rewrite H.
    + rewrite (skipn_all2 new) by lia. now destruct (skipn i old).
  - rewrite (skipn_all2 old) by lia. reflexivity.
Qed.

Lemma cp_shift i j (c : nat) :
  (c <= cp i j)%nat -> cp (i + c) (j + c) = (cp i j - c)%nat.
Proof.
  intros H. unfold cp in *.
  rewrite (Nat.add_comm i c), (Nat.add_comm j c), <- !skipn_skipn.
  now apply commonPrefix_skipn.
Qed.

(** The three small loops return, given fuel beyond the run they walk. *)
Lemma skipEqual_cp fuel i j :
  (cp i j < fuel)%nat ->
  skipEqual old new fuel i j = Some ((i + cp i j)%nat, (j + cp i j)%nat).
Proof.
  revert i j. induction fuel as [|fuel IH]; intros i j Hf; [lia|].
  cbn [skipEqual]. destruct (sameAt old new i j) eqn:Hs.
  - apply sameAt_true in Hs as (_ & _ & Hc). rewrite IH by lia.
    rewrite Hc. do 2 f_equal; lia.
  - apply sameAt_false in Hs. rewrite Hs. do 2 f_equal; lia.
Qed.

Lemma countMatch_cp fuel i j k :
  (cp (i + k) (j + k) < fuel)%nat ->
  countMatch old new fuel i j k = Some (k + cp (i + k) (j + k))%nat.
Proof.
  revert k. induction fuel as [|fuel IH]; intros k Hf; [lia|].
  cbn [countMatch]. destruct (sameAt old new (i + k) (j + k)) eqn:Hs.
  - apply sameAt_true in Hs as (_ & _ & Hc).
    rewrite <- !Nat.add_succ_r in Hc. rewrite IH by lia.
    rewrite Hc. f_equal; lia.
  - apply sameAt_false in Hs. rewrite Hs. f_equal; lia.
Qed.

Lemma trailing_context fuel k lines i j :
  0 <= k <= ctx ->
  (i + Z.to_nat (ctx - k) <= length old)%nat ->
  (Z.to_nat (ctx - k) < fuel)%nat ->
  trailing old ctx fuel k lines i j
  = Some (lines ++ map (String " ") (firstn (Z.to_nat (ctx - k)) (skipn i old)),
          (i + Z.to_nat (ctx - k))%nat, (j + Z.to_nat (ctx - k))%nat).
Proof.
  revert k lines i j. induction fuel as [|fuel IH]; intros k lines i j Hk Hi Hf; [lia|].
  cbn [trailing]. destruct (Z.ltb_spec k ctx) as [Hlt|Hge].
  - destruct (Nat.ltb_spec i (length old)) as [Hio|Hio]; [|lia].
    cbn [andb]. rewrite IH by lia.
    replace (Z.to_nat (ctx - k)) with (S (Z.to_nat (ctx - (k + 1)))) by lia.
    rewrite (skipn_nth "" old i Hio). cbn [firstn map].
    rewrite <- app_assoc. cbn [app String.append].
    f_equal. f_equal; [|lia]. f_equal. lia.
  - cbn [andb]. replace (Z.to_nat (ctx - k)) with O by lia.
    cbn [firstn map]. now rewrite app_nil_r, !Nat.add_0_r.
Qed.

Lemma countMatch_cp0 fuel i j :
  (cp i j < fuel)%nat -> countMatch old new fuel i j 0 = Some (cp i j).
Proof.
  intros H. rewrite countMatch_cp; rewrite !Nat.add_0_r; [reflexivity|assumption].
Qed.

Lemma applyLines_context xs rest :
  applyLines (map (String " ") xs) (xs ++ rest) = Some (xs, rest).
Proof.
  induction xs as [|x xs IH]; [reflexivity|].
  cbn [map app applyLines]. change (Ascii.eqb " " " ") with true. cbn iota.
  now rewrite String.eqb_refl, IH.
Qed.

Lemma applyLines_app l1 l2 rest :
  applyLines (l1 ++ l2) rest
  = match applyLines l1 rest with
    | Some (o1, r1) =>
        match applyLines l2 r1 with
        | Some (o2, r2) => Some (o1 ++ o2, r2)
        | None => None
        end
    | None => None
    end.
Proof.
  revert rest. induction l1 as [|[|tag text] l1 IH]; intros rest.
  - cbn [app applyLines]. now destruct (applyLines l2 rest) as [[o2 r2]|].
  - reflexivity.
  - cbn [app applyLines].
    destruct (Ascii.eqb tag " "); [|destruct (Ascii.eqb tag "-");
                                      [|destruct (Ascii.eqb tag "+"); [|reflexivity]]].
    + destruct rest as [|r rest]; [reflexivity|].
      destruct (String.eqb r text); [|reflexivity]. rewrite IH.
      destruct (applyLines l1 rest) as [[o1 r1]|]; [|reflexivity].
      now destruct (applyLines l2 r1) as [[o2 r2]|].
    + destruct rest as [|r rest]; [reflexivity|].
      destruct (String.eqb r text); [|reflexivity]. apply IH.
    + rewrite IH. destruct (applyLines l1 rest) as [[o1 r1]|]; [|reflexivity].
      now destruct (applyLines l2 r1) as [[o2 r2]|].
Qed.

(** The inner loop returns, and its lines edit the old lines from [i] into
    the new lines from [j]; it stops at the end of both files or in front of
    a run of more than [ctx] identical lines. *)
Lemma changes_spec loopFuel fuel lines i j :
  0 <= ctx < 2 ^ 62 ->
  (length old + length new < loopFuel)%nat ->
  (i <= length old)%nat -> (j <= length new)%nat ->
  ((length old - i) + (length new - j) < fuel)%nat ->
  exists lines' i' j' out,
    changes old new ctx loopFuel fuel lines i j = Some (lines ++ lines', i', j')
    /\ (i <= i' <= length old)%nat /\ (j <= j' <= length new)%nat
    /\ applyLines lines' (skipn i old) = Some (out, skipn i' old)
    /\ skipn j new = out ++ skipn j' new
    /\ ((i' = length old /\ j' = length new) \/ ctx <= Z.of_nat (cp i' j'))
    /\ (cp i j = O -> (i < length old \/ j < length new)%nat ->
        lines' <> [] /\ (i + j < i' + j')%nat)
    /\ oldTagged lines' = Z.of_nat (i' - i)
    /\ newTagged lines' = Z.of_nat (j' - j).
Proof.
  intros Hctx HF. revert lines i j.
  induction fuel as [|fuel IH]; intros lines i j Hi Hj Hf; [lia|].
  cbn [changes].
  destruct ((i <? length old)%nat || (j <? length new)%nat) eqn:Hcond.
  - destruct (sameAt old new i j) eqn:Hs.
    + pose proof (cp_le_old i j Hi) as Hco. pose proof (cp_le_new i j Hj) as Hcn.
      apply sameAt_true in Hs as (E1 & E2 & Hc).
      rewrite countMatch_cp0 by lia.
      rewrite wrap_small by lia.
      destruct (Z.gtb_spec (Z.of_nat (cp i j)) (ctx * 2)) as [Hgt|Hle].
      * rewrite trailing_context by lia. rewrite Z.sub_0_r.
        set (t := Z.to_nat ctx).
        assert (Ht : (t <= cp i j)%nat) by lia.
        assert (Hlen : length (firstn t (skipn i old)) = t)
          by (rewrite length_firstn, length_skipn; lia).
        destruct (tagged_context (firstn t (skipn i old))) as [Hot Hnt].
        exists (map (String " ") (firstn t (skipn i old))), (i + t)%nat, (j + t)%nat,
          (firstn t (skipn i old)).
        split; [reflexivity|]. split; [lia|]. split; [lia|].
        split; [|split; [|split; [|split; [|split]]]].
        -- rewrite <- (firstn_skipn t (skipn i old)) at 2.
           rewrite applyLines_context, skipn_skipn. do 3 f_equal. lia.
        -- rewrite (commonPrefix_firstn _ _ _ Ht).
           rewrite <- (firstn_skipn t (skipn j new)) at 1.
           rewrite skipn_skipn. do 2 f_equal. lia.
        -- right. rewrite cp_shift by assumption. lia.
        -- intros Hz. lia.
        -- rewrite Hot, Hlen. lia.
        -- rewrite Hnt, Hlen. lia.
      * destruct (IH (lines ++ [" " +:+ nth i old ""]) (S i) (S j))
          as (lines' & i' & j' & out & Hch & Hi' & Hj' & Ha & Hn & Hend & _ & Hot & Hnt);
          [lia..|].
        exists (String " " (nth i old "") :: lines'), i', j', (nth i old "" :: out).
        split; [rewrite Hch, <- app_assoc; reflexivity|].
        split; [lia|]. split; [lia|].
        split; [|split; [|split; [|split; [|split]]]].
        -- rewrite E1. cbn [applyLines]. change (Ascii.eqb " " " ") with true.
           cbn iota. now rewrite String.eqb_refl, Ha.
        -- rewrite E2, Hn. reflexivity.
        -- exact Hend.
        -- intros Hz. lia.
        -- unfold oldTagged in *. simpl. lia.
        -- unfold newTagged in *. simpl. lia.
    + pose proof (sameAt_false _ _ Hs) as Hz.
      destruct (Nat.ltb_spec i (length old)) as [Hio|Hio].
      * destruct (IH (lines ++ ["-" +:+ nth i old ""]) (S i) j)
          as (lines' & i' & j' & out & Hch & Hi' & Hj' & Ha & Hn & Hend & _ & Hot & Hnt);
          [lia..|].
        exists (String "-" (nth i old "") :: lines'), i', j', out.
        split; [rewrite Hch, <- app_assoc; reflexivity|].
        split; [lia|]. split; [lia|].
        split; [|split; [|split; [|split; [|split]]]].
        -- rewrite (skipn_nth "" old i Hio). cbn [applyLines].
           change (Ascii.eqb "-" " ") with false. change (Ascii.eqb "-" "-") with true.
           cbn iota. now rewrite String.eqb_refl.
        -- exact Hn.
        -- exact Hend.
        -- intros _ _. split; [discriminate|lia].
        -- unfold oldTagged in *. simpl. lia.
        -- unfold newTagged in *. simpl. lia.
      * destruct (Nat.ltb_spec j (length new)) as [Hjn|Hjn]; [|discriminate].
        destruct (IH (lines ++ ["+" +:+ nth j new ""]) i (S j))
          as (lines' & i' & j' & out & Hch & Hi' & Hj' & Ha & Hn & Hend & _ & Hot & Hnt);
          [lia..|].
        exists (String "+" (nth j new "") :: lines'), i', j', (nth j new "" :: out).
        split; [rewrite Hch, <- app_assoc; reflexivity|].
        split; [lia|]. split; [lia|].
        split; [|split; [|split; [|split; [|split]]]].
        -- cbn [applyLines].
           change (Ascii.eqb "+" " ") with false. change (Ascii.eqb "+" "-") with false.
           change (Ascii.eqb "+" "+") with true. cbn iota. now rewrite Ha.
        -- rewrite (skipn_nth "" new j Hjn), Hn. reflexivity.
        -- exact Hend.
        -- intros _ _. split; [discriminate|lia].
        -- unfold oldTagged in *. simpl. lia.
        -- unfold newTagged in *. simpl. lia.
  - apply orb_false_elim in Hcond as [Hio Hjn].
    apply Nat.ltb_ge in Hio, Hjn.
    exists [], i, j, []. rewrite app_nil_r.
    split; [reflexivity|]. split; [lia|]. split; [lia|].
    split; [reflexivity|]. split; [reflexivity|]. split; [left; lia|].
    split; [intros _ [?|?]; lia|].
    unfold oldTagged, newTagged. simpl. lia.
Qed.

Lemma leading_context start (i : nat) :
  0 <= start <= Z.of_nat i -> (i <= length old)%nat ->
  leading old start i
  = map (String " ") (firstn (i - Z.to_nat start) (skipn (Z.to_nat start) old)).
Proof.
  intros Hs Hi. unfold leading.
  replace (Z.to_nat (Z.of_nat i - start)) with (i - Z.to_nat start)%nat by lia.
  apply (map_nth_seq (String " ")). lia.
Qed.

(** The outer loop returns, and the hunks it adds turn the old lines from
    [i] into the new lines from [j]; their old counts are right, and the new
    count of the first of them is off by the distance between [j] and
    [i]. *)
Lemma hunksLoop_spec loopFuel fuel hunks i j :
  0 <= ctx < 2 ^ 62 ->
  Z.of_nat (length old) < 2 ^ 62 ->
  (length old + length new < loopFuel)%nat ->
  (i <= length old)%nat -> (j <= length new)%nat ->
  ((length old - i) + (length new - j) < fuel)%nat ->
  (i = O \/ ctx <= Z.of_nat (cp i j) \/ (i = length old /\ j = length new)) ->
  exists hs,
    hunksLoop old new ctx loopFuel fuel hunks i j = Some (hunks ++ hs)
    /\ applyHunks hs (Z.of_nat i) (skipn i old) = Some (skipn j new)
    /\ List.Forall (fun h => OldCount h = oldTagged (Lines h)) hs
    /\ (Z.of_nat (length new) < 2 ^ 62 ->
        forall h rest, hs = h :: rest ->
          NewCount h = newTagged (Lines h) + (Z.of_nat j - Z.of_nat i)).
Proof.
  intros Hctx Hlen HF. revert hunks i j.
  induction fuel as [|fuel IH]; intros hunks i j Hi Hj Hf Hpre; [lia|].
  cbn [hunksLoop].
  destruct ((i <? length old)%nat || (j <? length new)%nat) eqn:Hcond.
  2:{ apply orb_false_elim in Hcond as [Hio Hjn].
      apply Nat.ltb_ge in Hio, Hjn.
      exists []. rewrite app_nil_r. split; [reflexivity|].
      split; [cbn [applyHunks]; now rewrite !skipn_all2 by lia|].
      split; [constructor|discriminate]. }
  pose proof (cp_le_old i j Hi) as Hco. pose proof (cp_le_new i j Hj) as Hcn.
  rewrite skipEqual_cp by lia.
  set (c := cp i j) in *. set (i1 := (i + c)%nat). set (j1 := (j + c)%nat).
  assert (Hold : skipn i old = firstn c (skipn i old) ++ skipn i1 old).
  { rewrite <- (firstn_skipn c (skipn i old)) at 1. rewrite skipn_skipn.
    do 2 f_equal. lia. }
  assert (Hnew : skipn j new = firstn c (skipn i old) ++ skipn j1 new).
  { rewrite (commonPrefix_firstn (skipn i old) (skipn j new) c) by reflexivity.
    rewrite <- (firstn_skipn c (skipn j new)) at 1. rewrite skipn_skipn.
    do 2 f_equal. lia. }
  destruct ((length old <=? i1)%nat && (length new <=? j1)%nat) eqn:Hend.
  { apply andb_prop in Hend as [Hio Hjn]. apply Nat.leb_le in Hio, Hjn.
    exists []. rewrite app_nil_r. split; [reflexivity|].
    split; [|split; [constructor|discriminate]].
    cbn [applyHunks]. rewrite Hold, Hnew.
    rewrite (skipn_all2 old (n := i1)), (skipn_all2 new (n := j1)) by lia.
    reflexivity. }
  assert (Hmore : (i1 < length old \/ j1 < length new)%nat).
  { apply andb_false_elim in Hend as [H|H]; apply Nat.leb_gt in H; lia. }
  assert (Hcond1 : (i < length old \/ j < length new)%nat) by lia.
  assert (Hz : cp i1 j1 = O).
  { unfold i1, j1. rewrite cp_shift by reflexivity. fold c. lia. }
  rewrite (wrap_small (Z.of_nat i1 - ctx)) by lia.
  set (start := max 0 (Z.of_nat i1 - ctx)).
  assert (Hstart : Z.of_nat i <= start <= Z.of_nat i1).
  { unfold start, max. destruct (Z.gtb_spec 0 (Z.of_nat i1 - ctx)); lia. }
  destruct (changes_spec loopFuel loopFuel (leading old start i1) i1 j1)
    as (lines' & i' & j' & out & Hch & Hi' & Hj' & Ha & Hn & Hstop & Hprog
        & Hot & Hnt);
    [assumption|assumption|lia..|].
  destruct (Hprog Hz Hmore) as [Hne Hadv].
  rewrite Hch.
  replace (0 <? length (leading old start i1 ++ lines'))%nat with true.
  2:{ symmetry. apply Nat.ltb_lt. rewrite length_app.
      destruct lines'; [contradiction|]. simpl. lia. }
  rewrite (wrap_small (start + 1)) by lia.
  match goal with
  | |- context [hunksLoop _ _ _ _ _ (hunks ++ [?h]) _ _] => set (hunk := h)
  end.
  destruct (IH (hunks ++ [hunk]) i' j') as (hs & Hloop & Happly & Hcounts & _);
    [lia|lia|lia| |].
  { destruct Hstop as [He|Hc]; [right; right; exact He|right; left; exact Hc]. }
  exists (hunk :: hs). split; [rewrite Hloop, <- app_assoc; reflexivity|].
  assert (Hlead : oldTagged (leading old start i1) = Z.of_nat i1 - start
                  /\ newTagged (leading old start i1) = Z.of_nat i1 - start).
  { rewrite leading_context by lia.
    destruct (tagged_context
                (firstn (i1 - Z.to_nat start) (skipn (Z.to_nat start) old)))
      as [-> ->].
    rewrite length_firstn, length_skipn. lia. }
  destruct Hlead as [Hlo Hln].
  assert (Hcount : OldCount hunk = oldTagged (Lines hunk)).
  { change (OldCount hunk) with (wrap (Z.of_nat i' - start)).
    change (Lines hunk) with (leading old start i1 ++ lines').
    rewrite wrap_small, oldTagged_app, Hlo, Hot by lia. lia. }
  split; [|split].
  2:{ constructor; [exact Hcount|exact Hcounts]. }
  2:{ intros Hnewlen h rest Heq. injection Heq as <- _.
      change (NewCount hunk) with (wrap (Z.of_nat j' - start)).
      change (Lines hunk) with (leading old start i1 ++ lines').
      rewrite wrap_small, newTagged_app, Hln, Hnt by lia. lia. }
  cbn [applyHunks]. rewrite Hcount, Z.eqb_refl. cbn [negb]. rewrite orb_false_r.
  change (OldStart hunk) with (start + 1).
  change (Lines hunk) with (leading old start i1 ++ lines').
  replace (start + 1 - 1 - Z.of_nat i) with (start - Z.of_nat i) by lia.
  replace ((start - Z.of_nat i <? 0)
           || (Z.of_nat (length (skipn i old)) <? start - Z.of_nat i)) with false.
  2:{ symmetry. apply orb_false_intro; apply Z.ltb_ge; rewrite ?length_skipn; lia. }
  rewrite skipn_skipn.
  replace (Z.to_nat (start - Z.of_nat i) + i)%nat with (Z.to_nat start) by lia.
  rewrite applyLines_app, leading_context by lia.
  rewrite <- (firstn_skipn (i1 - Z.to_nat start) (skipn (Z.to_nat start) old)) at 2.
  rewrite applyLines_context, skipn_skipn.
  replace (i1 - Z.to_nat start + Z.to_nat start)%nat with i1 by lia.
  rewrite Ha.
  replace (Z.of_nat i + (Z.of_nat (length (skipn i old))
                         - Z.of_nat (length (skipn i' old))))
    with (Z.of_nat i') by (rewrite !length_skipn; lia).
  rewrite Happly. f_equal.
  rewrite Hnew, Hn, !app_assoc. do 2 f_equal.
  replace (skipn (Z.to_nat start) old)
    with (skipn (Z.to_nat (start - Z.of_nat i)) (skipn i old))
    by (rewrite skipn_skipn; f_equal; lia).
  rewrite firstn_firstn_skipn. f_equal. lia.
Qed.

(** What holds of the lines of the hunks, whatever their headers say of the
    new file.  For a context width that is not negative (and below 2^62, so
    that twice the width is still an [int]) and an old sequence of fewer
    than 2^62 lines (any Go slice is shorter), the diff of two line
    sequences is computed, and applying every line of its hunks to the old
    sequence, each hunk at its old start, gives the new sequence.  A reader
    that goes by the counts of the headers does not apply every line. *)
Lemma computeDiff_old_side_round_trip :
  0 <= ctx < 2 ^ 62 ->
  Z.of_nat (length old) < 2 ^ 62 ->
  exists hunks,
    computeDiff old new ctx = Some hunks /\ applyPatch hunks old = Some new.
Proof.
  intros Hctx Hlen. unfold computeDiff, applyPatch.
  destruct (hunksLoop_spec (S (length old + length new))
              (S (length old + length new)) [] O O)
    as (hs & Hloop & Happly & _);
    [assumption|assumption|lia|lia|lia|lia|left; reflexivity|].
  exists hs. split; [exact Hloop|exact Happly].
Qed.

(** What is right in the hunk headers: the old count of every hunk is the
    number of its context and removed lines, and the new count of the first
    hunk is the number of its context and added lines. *)
Lemma computeDiff_counts :
  0 <= ctx < 2 ^ 62 ->
  Z.of_nat (length old) < 2 ^ 62 -> Z.of_nat (length new) < 2 ^ 62 ->
  exists hunks,
    computeDiff old new ctx = Some hunks
    /\ List.Forall (fun h => OldCount h = oldTagged (Lines h)) hunks
    /\ (forall h rest, hunks = h :: rest -> NewCount h = newTagged (Lines h)).
Proof.
  intros Hctx Hlen Hnewlen. unfold computeDiff.
  destruct (hunksLoop_spec (S (length old + length new))
              (S (length old + length new)) [] O O)
    as (hs & Hloop & _ & Hold & Hnew);
    [assumption|assumption|lia|lia|lia|lia|left; reflexivity|].
  exists hs. split; [exact Hloop|]. split; [exact Hold|].
  intros h rest Heq. rewrite (Hnew Hnewlen h rest Heq). lia.
Qed.

End DiffProps.

(** Empty files, and files that differ only in trailing lines. *)
Example roundTrip_empty_old : Diff.roundTrip [] ["x"] 3 = Some ["x"].
Proof. reflexivity. Qed.

Example roundTrip_empty_new : Diff.roundTrip ["x"] [] 3 = Some [].
Proof. reflexivity. Qed.

Example roundTrip_both_empty : Diff.roundTrip [] [] 3 = Some [].
Proof. reflexivity. Qed.

Example roundTrip_trailing : Diff.roundTrip ["a"; "b"; "c"] ["a"] 3 = Some ["a"].
Proof. reflexivity. Qed.

(** With a negative context width the hunk is placed one line too far, and
    its removed line does not match the old file. *)
Example roundTrip_negative_context :
  Diff.computeDiff ["a"; "b"] ["b"] (-1)
  = Some [{| Diff.OldStart := 2; Diff.OldCount := 0; Diff.NewStart := 2;
             Diff.NewCount := -1; Diff.Lines := ["-a"] |}]
  /\ Diff.roundTrip ["a"; "b"] ["b"] (-1) <> Some ["b"].
Proof. split; [reflexivity|]. vm_compute. discriminate. Qed.

(** With a context width of 2^62, twice the width wraps around to a negative
    number: every run of identical lines closes the hunk, and the trailing
    context then takes old lines without comparing them. *)
Example roundTrip_context_overflow :
  Diff.roundTrip ["a"; "b"; "c"] ["b"; "d"] (2 ^ 62) = Some ["b"; "c"].
Proof. vm_compute. reflexivity. Qed.

(** The patch of the sample diff, as [generatePatch] prints it. *)
Example generatePatch_sample :
  option_map (Diff.generatePatch "a" "b") (Diff.computeDiff oldNine newEight 3)
  = Some (GoStrings.joinWith Diff.newline
            ["--- a"; "+++ b";
             "@@ -1,4 +1,3 @@"; "-x"; " 1"; " 2"; " 3";
             "@@ -6,4 +6,3 @@"; " 5"; " 6"; " 7"; "-c"; "+d"; ""]).
Proof. vm_compute. reflexivity. Qed.

(** C1 (the code against the claim).  The patch of this diff, computed with
    the default context of 3, does not give back the new file.  The first
    hunk removes a line, so the second hunk, which has four lines of the new
    file, says [+6,3] in its header (see C6).  A reader of the unified
    format takes the body of that hunk to end when it has seen the four old
    lines and the three new lines of the header, which is after [-c]: the
    added line [+d] is left out, and applying the patch to the old file
    gives the lines 1 to 7 where the new file has [d] as its last line. *)
Theorem computeDiff_patch_round_trip_fails :
  exists h1 h2,
    Diff.computeDiff oldNine newEight 3 = Some [h1; h2]
    /\ Diff.generatePatch "a" "b" [h1; h2]
       = GoStrings.joinWith Diff.newline
           ["--- a"; "+++ b";
            "@@ -1,4 +1,3 @@"; "-x"; " 1"; " 2"; " 3";
            "@@ -6,4 +6,3 @@"; " 5"; " 6"; " 7"; "-c"; "+d"; ""]
    /\ Diff.hunkBody (Diff.OldCount h1) (Diff.NewCount h1) (Diff.Lines h1)
       = Some (Diff.Lines h1)
    /\ Diff.Lines h2 = [" 5"; " 6"; " 7"; "-c"; "+d"]
    /\ Diff.hunkBody (Diff.OldCount h2) (Diff.NewCount h2) (Diff.Lines h2)
       = Some [" 5"; " 6"; " 7"; "-c"]
    /\ Diff.applyUnified [h1; h2] oldNine
       = Some ["1"; "2"; "3"; "4"; "5"; "6"; "7"]
    /\ Diff.unifiedRoundTrip oldNine newEight 3 <> Some newEight.
Proof.
  do 2 eexists. split; [vm_compute; reflexivity|].
  vm_compute. repeat split. discriminate.
Qed.

(** When the counts of a header are those of the lines of its hunk, the
    body that the header delimits is the whole hunk. *)
Example hunkBody_sample :
  Diff.hunkBody 2 3 [" a"; "-b"; "+c"; "+d"] = Some [" a"; "-b"; "+c"; "+d"]
  /\ Diff.hunkBody 2 2 [" a"; "-b"; "+c"; "+d"] = Some [" a"; "-b"; "+c"]
  /\ Diff.hunkBody 2 4 [" a"; "-b"; "+c"; "+d"] = None.
Proof. vm_compute. repeat split. Qed.

(** C6 (the code against the claim).  The second hunk of this diff, computed
    with the default context of 3, carries five lines of which four belong
    to the new file (three of context, one added), and its new count is 3:
    [NewCount] is [j - start], where [start] is an index into the old file
    and [j] an index into the new file, and the first hunk removed a line.
    The old count of both hunks and the new count of the first are right. *)
Theorem computeDiff_new_count_mismatch :
  exists h1 h2,
    Diff.computeDiff oldNine newEight 3 = Some [h1; h2]
    /\ Diff.OldCount h1 = Diff.oldTagged (Diff.Lines h1)
    /\ Diff.NewCount h1 = Diff.newTagged (Diff.Lines h1)
    /\ Diff.OldCount h2 = Diff.oldTagged (Diff.Lines h2)
    /\ Diff.Lines h2 = [" 5"; " 6"; " 7"; "-c"; "+d"]
    /\ Diff.NewCount h2 = 3
    /\ Diff.newTagged (Diff.Lines h2) = 4.
Proof. do 2 eexists. vm_compute. repeat split. Qed.

(** *** The hunk headers *)

(** X12: what is right in the hunk headers: the old count of every hunk is
    the number of its context and removed lines, and the new count of the
    first hunk is the number of its context and added lines. *)
Theorem computeDiff_header_counts old new ctx :
  0 <= ctx < 2 ^ 62 ->
  Z.of_nat (length old) < 2 ^ 62 -> Z.of_nat (length new) < 2 ^ 62 ->
  exists hunks,
    Diff.computeDiff old new ctx = Some hunks
    /\ List.Forall (fun h => Diff.OldCount h = Diff.oldTagged (Diff.Lines h)) hunks
    /\ (forall h rest,
          hunks = h :: rest -> Diff.NewCount h = Diff.newTagged (Diff.Lines h)).
Proof. exact (computeDiff_counts old new ctx). Qed.

Lemma computeDiff_header_counts_witness :
  exists hunks,
    Diff.computeDiff oldNine newEight 3 = Some hunks
    /\ List.Forall (fun h => Diff.OldCount h = Diff.oldTagged (Diff.Lines h)) hunks.
Proof.
  destruct (computeDiff_header_counts oldNine newEight 3)
    as (hunks & E & Hold & _); [lia|cbn; lia|cbn; lia|].
  exists hunks. split; [exact E|exact Hold].
Defined.

(** *** DiffEngine: termination, identical files, and the shape of the hunks *)

Section DiffTotal.
Import Diff.

Lemma commonPrefix_same l : commonPrefix l l = length l.
Proof.
  induction l as [|x l IH]; [reflexivity|]. cbn. now rewrite String.eqb_refl, IH.
Qed.

Variables old new : list string.
Variable ctx : Z.

(** The lines still ahead in the two files. *)
Local Abbreviation ahead :=
  (fun i j : nat => (length old - i + (length new - j))%nat).

Lemma trailing_total fuel :
  forall k lines (i j : nat),
    (i <= length old)%nat -> (length old - i < fuel)%nat ->
    exists lines' (i' j' : nat),
      trailing old ctx fuel k lines i j = Some (lines', i', j')
      /\ (i <= i' <= length old)%nat /\ (j <= j')%nat.
Proof.
  induction fuel as [|fuel IH]; intros k lines i j Hi Hfuel; [lia|].
  cbn [trailing]. destruct ((k <? ctx) && (i <? length old)%nat) eqn:Hc.
  - apply andb_true_iff in Hc as [_ Hlt]. apply Nat.ltb_lt in Hlt.
    destruct (IH (k + 1) (lines ++ [" " +:+ nth i old ""]) (S i) (S j))
      as (lines' & i' & j' & -> & Hi' & Hj'); [lia|lia|].
    exists lines', i', j'. repeat split; lia.
  - exists lines, i, j. repeat split; lia.
Qed.

Lemma changes_total loopFuel fuel :
  (length old < loopFuel)%nat ->
  forall lines (i j : nat),
    (i <= length old)%nat -> (ahead i j < fuel)%nat ->
    exists lines' (i' j' : nat),
      changes old new ctx loopFuel fuel lines i j = Some (lines', i', j')
      /\ (i <= i' <= length old)%nat /\ (j <= j')%nat
      /\ (sameAt old new i j = false ->
          (i < length old \/ j < length new)%nat ->
          (ahead i' j' < ahead i j)%nat).
Proof.
  intros Hloop. induction fuel as [|fuel IH]; intros lines i j Hi Hfuel; [lia|].
  cbn [changes].
  destruct ((i <? length old)%nat || (j <? length new)%nat) eqn:Hmore.
  2:{ apply orb_false_iff in Hmore as [H1 H2].
      apply Nat.ltb_ge in H1. apply Nat.ltb_ge in H2.
      exists lines, i, j. repeat split; lia. }
  destruct (sameAt old new i j) eqn:Hsame.
  - assert (Hin : (i < length old)%nat /\ (j < length new)%nat).
    { unfold sameAt in Hsame. apply andb_true_iff in Hsame as [Hsame _].
      apply andb_true_iff in Hsame as [H1 H2].
      apply Nat.ltb_lt in H1. apply Nat.ltb_lt in H2. now split. }
    rewrite countMatch_cp0.
    2:{ pose proof (cp_le_old old new i j Hi). lia. }
    destruct (Z.of_nat _ >? wrap (ctx * 2)).
    + destruct (trailing_total loopFuel 0 lines i j Hi)
        as (lines' & i' & j' & -> & Hi' & Hj'); [lia|].
      exists lines', i', j'. repeat split; try lia; try discriminate.
    + destruct (IH (lines ++ [" " +:+ nth i old ""]) (S i) (S j))
        as (lines' & i' & j' & -> & Hi' & Hj' & _); [lia|lia|].
      exists lines', i', j'. repeat split; try lia; try discriminate.
  - destruct (i <? length old)%nat eqn:Hio.
    + apply Nat.ltb_lt in Hio.
      destruct (IH (lines ++ ["-" +:+ nth i old ""]) (S i) j)
        as (lines' & i' & j' & -> & Hi' & Hj' & _); [lia|lia|].
      exists lines', i', j'. repeat split; try lia.
    + apply Nat.ltb_ge in Hio. cbn [orb] in Hmore. rewrite Hmore.
      apply Nat.ltb_lt in Hmore.
      destruct (IH (lines ++ ["+" +:+ nth j new ""]) i (S j))
        as (lines' & i' & j' & -> & Hi' & Hj' & _); [lia|lia|].
      exists lines', i', j'. repeat split; try lia.
Qed.

Lemma hunksLoop_total loopFuel fuel :
  (length old + length new < loopFuel)%nat ->
  forall hunks (i j : nat),
    (i <= length old)%nat -> (ahead i j < fuel)%nat ->
    exists hs, hunksLoop old new ctx loopFuel fuel hunks i j = Some hs.
Proof.
  intros Hloop. induction fuel as [|fuel IH]; intros hunks i j Hi Hfuel; [lia|].
  cbn [hunksLoop].
  destruct ((i <? length old)%nat || (j <? length new)%nat); [|now eexists].
  pose proof (cp_le_old old new i j Hi) as Hcp.
  rewrite skipEqual_cp by lia.
  set (c := commonPrefix (skipn i old) (skipn j new)) in *.
  destruct ((length old <=? i + c)%nat && (length new <=? j + c)%nat) eqn:Hend;
    [now eexists|].
  assert (Hstop : sameAt old new (i + c) (j + c) = false).
  { destruct (sameAt old new (i + c) (j + c)) eqn:E; [|reflexivity].
    apply sameAt_true in E as (_ & _ & E).
    rewrite (cp_shift old new i j c) in E by (subst c; lia). fold c in E. lia. }
  assert (Hl : (length old < loopFuel)%nat) by lia.
  assert (Hic : (i + c <= length old)%nat) by lia.
  assert (Ha : (length old - (i + c) + (length new - (j + c)) < loopFuel)%nat) by lia.
  destruct (changes_total loopFuel loopFuel Hl
              (leading old (max 0 (wrap (Z.of_nat (i + c) - ctx))) (i + c))
              (i + c)%nat (j + c)%nat Hic Ha)
    as (lines & i' & j' & -> & Hi' & Hj' & Hless).
  cbn beta in Hless.
  assert (Hmore : (i + c < length old \/ j + c < length new)%nat).
  { apply andb_false_iff in Hend as [H|H]; apply Nat.leb_gt in H; lia. }
  specialize (Hless Hstop Hmore).
  apply IH; [lia|]. cbn beta in Hfuel. lia.
Qed.

(** X13: [computeDiff] terminates, whatever the two files and the number of
    context lines, negative numbers and numbers whose double overflows
    included. *)
Theorem computeDiff_total : exists hunks, computeDiff old new ctx = Some hunks.
Proof.
  unfold computeDiff. apply hunksLoop_total; lia.
Qed.

End DiffTotal.

Section DiffShape.
Import Diff.

(** A line of a hunk is a context line, a removed line or an added line. *)
Local Abbreviation tagged :=
  (fun l : string => hasTag " " l || hasTag "-" l || hasTag "+" l).

Lemma applyLines_shape lines :
  forall rest out remaining,
    applyLines lines rest = Some (out, remaining) ->
    List.Forall (fun l => tagged l = true) lines
    /\ Z.of_nat (length rest) = oldTagged lines + Z.of_nat (length remaining).
Proof.
  unfold oldTagged.
  induction lines as [|[|tag text] lines IH]; intros rest out remaining H;
    cbn [applyLines] in H.
  - injection H as _ <-. split; [constructor|]. cbn. lia.
  - discriminate.
  - cbn [List.filter hasTag].
    destruct (Ascii.eqb tag " ") eqn:Hsp.
    + destruct rest as [|r rest]; [discriminate|].
      destruct (String.eqb r text); [|discriminate].
      destruct (applyLines lines rest) as [[o rem]|] eqn:E; [|discriminate].
      injection H as _ <-. destruct (IH _ _ _ E) as [Hall Hlen].
      split; [constructor; [cbn [hasTag]; now rewrite Hsp|exact Hall]|].
      cbn [orb length]. lia.
    + destruct (Ascii.eqb tag "-") eqn:Hmi.
      * destruct rest as [|r rest]; [discriminate|].
        destruct (String.eqb r text); [|discriminate].
        destruct (IH _ _ _ H) as [Hall Hlen].
        split; [constructor; [cbn [hasTag]; now rewrite Hsp, Hmi|exact Hall]|].
        cbn [orb length]. lia.
      * destruct (Ascii.eqb tag "+") eqn:Hpl; [|discriminate].
        destruct (applyLines lines rest) as [[o rem]|] eqn:E; [|discriminate].
        injection H as _ <-. destruct (IH _ _ _ E) as [Hall Hlen].
        split; [constructor; [cbn [hasTag]; now rewrite Hsp, Hmi, Hpl|exact Hall]|].
        cbn [orb]. lia.
Qed.

(** Hunks that apply lie in the old file one behind the other. *)
Lemma applyHunks_shape hunks :
  forall pos rest out,
    applyHunks hunks pos rest = Some out ->
    List.Forall
      (fun h =>
         pos + 1 <= OldStart h
         /\ OldStart h - 1 + OldCount h <= pos + Z.of_nat (length rest)
         /\ 0 <= OldCount h
         /\ List.Forall (fun l => tagged l = true) (Lines h))
      hunks
    /\ StronglySorted (fun a b => OldStart a + OldCount a <= OldStart b) hunks.
Proof.
  induction hunks as [|h hunks IH]; intros pos rest out H; cbn [applyHunks] in H.
  - split; constructor.
  - destruct ((OldStart h - 1 - pos <? 0)
              || (Z.of_nat (length rest) <? OldStart h - 1 - pos)
              || negb (OldCount h =? oldTagged (Lines h))) eqn:Hc; [discriminate|].
    apply orb_false_iff in Hc as [Hc Hcount].
    apply orb_false_iff in Hc as [Hgap Hlen].
    apply Z.ltb_ge in Hgap. apply Z.ltb_ge in Hlen.
    apply negb_false_iff, Z.eqb_eq in Hcount.
    destruct (applyLines (Lines h) (skipn (Z.to_nat (OldStart h - 1 - pos)) rest))
      as [[o remaining]|] eqn:E; [|discriminate].
    destruct (applyHunks hunks _ remaining) as [tail|] eqn:Etail; [|discriminate].
    destruct (applyLines_shape _ _ _ _ E) as [Htags Hconsumed].
    rewrite length_skipn in Hconsumed.
    assert (Hold : 0 <= oldTagged (Lines h)) by (unfold oldTagged; lia).
    destruct (IH _ _ _ Etail) as [Hall Hsorted].
    assert (Hnext : List.Forall
              (fun h' =>
                 OldStart h + OldCount h <= OldStart h'
                 /\ OldStart h' - 1 + OldCount h' <= pos + Z.of_nat (length rest)
                 /\ 0 <= OldCount h'
                 /\ List.Forall (fun l => tagged l = true) (Lines h'))
              hunks).
    { eapply List.Forall_impl; [|exact Hall]. intros h' (H1 & H2 & H3 & H4).
      repeat split; [lia|lia|exact H3|exact H4]. }
    split.
    + constructor.
      * repeat split; [lia|lia|lia|exact Htags].
      * eapply List.Forall_impl; [|exact Hnext]. intros h' (H1 & H2 & H3 & H4).
        repeat split; [lia|exact H2|exact H3|exact H4].
    + constructor; [exact Hsorted|].
      eapply List.Forall_impl; [|exact Hnext]. now intros h' (H1 & _).
Qed.

Variables old new : list string.
Variable ctx : Z.

(** X14: the hunks lie in the old file one behind the other: each starts at a
    line from 1 on and ends within the file, none starts before the one
    before it has ended, and every line of a hunk carries one of the three
    tags. *)
Theorem computeDiff_hunks_in_order :
  0 <= ctx < 2 ^ 62 ->
  Z.of_nat (length old) < 2 ^ 62 ->
  exists hunks,
    computeDiff old new ctx = Some hunks
    /\ StronglySorted (fun a b => OldStart a + OldCount a <= OldStart b) hunks
    /\ List.Forall
         (fun h =>
            1 <= OldStart h
            /\ OldStart h - 1 + OldCount h <= Z.of_nat (length old)
            /\ 0 <= OldCount h
            /\ List.Forall (fun l => tagged l = true) (Lines h))
         hunks.
Proof.
  intros Hctx Hold. unfold computeDiff.
  destruct (hunksLoop_spec old new ctx (S (length old + length new))
              (S (length old + length new)) [] 0 0 Hctx Hold)
    as (hs & -> & Happly & _); [lia|lia|lia|lia|now left|].
  exists hs. split; [reflexivity|]. cbn [skipn] in Happly.
  destruct (applyHunks_shape hs _ _ _ Happly) as [Hall Hsorted].
  split; [exact Hsorted|].
  eapply List.Forall_impl; [|exact Hall]. intros h (H1 & H2 & H3 & H4).
  change (skipn 0 old) with old in H2. repeat split; [lia|lia|exact H3|exact H4].
Qed.

(** X15: there is no hunk exactly when the two files have the same lines. *)
Theorem computeDiff_no_hunks_iff :
  0 <= ctx < 2 ^ 62 ->
  Z.of_nat (length old) < 2 ^ 62 ->
  computeDiff old new ctx = Some [] <-> old = new.
Proof.
  intros Hctx Hold. split.
  - unfold computeDiff. intros Hnone.
    destruct (hunksLoop_spec old new ctx (S (length old + length new))
                (S (length old + length new)) [] 0 0 Hctx Hold)
      as (hs & E & Happly & _); [lia|lia|lia|lia|now left|].
    rewrite E in Hnone. injection Hnone as ->. cbn in Happly. now injection Happly.
  - intros <-. unfold computeDiff. cbn [hunksLoop].
    destruct ((0 <? length old)%nat || (0 <? length old)%nat); [|reflexivity].
    rewrite skipEqual_cp; change (skipn 0 old) with old;
      rewrite commonPrefix_same; [|lia].
    cbn [Nat.add]. now rewrite Nat.leb_refl.
Qed.

End DiffShape.

Section GenerateDiffProps.
Import Diff.

Variable readLines : string -> list string + string.

(** X16: two files with the same lines give a successful result with no hunk
    and a patch that is the two header lines, whatever the number of context
    lines. *)
Theorem generateDiff_same_lines oldPath newPath lines contextLines :
  readLines oldPath = inl lines ->
  readLines newPath = inl lines ->
  generateDiff readLines oldPath newPath contextLines
  = Some {| Success := true;
            Diff_ := {| OldFile := oldPath; NewFile := newPath; Hunks := [] |};
            Patch := "--- " +:+ oldPath +:+ newline
                     +:+ "+++ " +:+ newPath +:+ newline;
            Error := "" |}.
Proof.
  intros Hold Hnew. unfold generateDiff. rewrite Hold, Hnew.
  assert (E : computeDiff lines lines contextLines = Some []).
  { unfold computeDiff. cbn [hunksLoop].
    destruct ((0 <? length lines)%nat || (0 <? length lines)%nat); [|reflexivity].
    rewrite skipEqual_cp; change (skipn 0 lines) with lines;
      rewrite commonPrefix_same; [|lia].
    cbn [Nat.add]. now rewrite Nat.leb_refl. }
  rewrite E. reflexivity.
Qed.

(** X17: the [diff] mode returns for every input.  Without both [-old] and
    [-new] it fails with a message that says so.  Otherwise it succeeds
    exactly when both files can be read, with the hunks of [computeDiff] and
    the patch that [generatePatch] makes of them; when one cannot, the
    result carries the error of the first file that cannot be read, and no
    hunk. *)
Theorem diffMode_returns oldFile newFile context :
  exists result,
    diffMode readLines oldFile newFile context = Some result
    /\ if String.eqb oldFile "" || String.eqb newFile ""
       then result = failure "-old and -new required"
       else
         match readLines oldFile, readLines newFile with
         | inl oldLines, inl newLines =>
             Success result = true /\ Error result = ""
             /\ computeDiff oldLines newLines context
                = Some (Hunks (Diff_ result))
             /\ Patch result = generatePatch oldFile newFile (Hunks (Diff_ result))
         | inr err, _ | inl _, inr err => result = failure err
         end.
Proof.
  unfold diffMode.
  destruct (String.eqb oldFile ""); [now eexists|].
  destruct (String.eqb newFile ""); [now eexists|].
  cbn [negb andb orb]. unfold generateDiff.
  destruct (readLines oldFile) as [oldLines|err]; [|now eexists].
  destruct (readLines newFile) as [newLines|err]; [|now eexists].
  unfold computeDiff.
  destruct (hunksLoop_total oldLines newLines context
              (S (length oldLines + length newLines))
              (S (length oldLines + length newLines))
              (Nat.lt_succ_diag_r _) [] 0%nat 0%nat (Nat.le_0_l _)) as (hunks & E).
  { cbn beta. lia. }
  rewrite E. eexists. split; [reflexivity|]. cbn. repeat split.
Qed.

End GenerateDiffProps.

Lemma computeDiff_hunks_in_order_witness :
  exists hunks,
    Diff.computeDiff oldNine newEight 3 = Some hunks
    /\ StronglySorted
         (fun a b => Diff.OldStart a + Diff.OldCount a <= Diff.OldStart b) hunks.
Proof.
  destruct (computeDiff_hunks_in_order oldNine newEight 3)
    as (hunks & E & Hsorted & _); [lia|cbn; lia|].
  exists hunks. split; [exact E|exact Hsorted].
Defined.

Lemma computeDiff_no_hunks_iff_witness :
  Diff.computeDiff oldNine oldNine 3 = Some [] <-> oldNine = oldNine.
Proof.
  apply computeDiff_no_hunks_iff; [lia|cbn; lia].
Defined.

Lemma generateDiff_same_lines_witness :
  option_map Diff.Patch
    (Diff.generateDiff (fun _ => inl oldNine) "a" "b" 3)
  = Some (GoStrings.joinWith Diff.newline ["--- a"; "+++ b"; ""]).
Proof.
  now rewrite (generateDiff_same_lines (fun _ => inl oldNine) "a" "b" oldNine 3
                 eq_refl eq_refl).
Defined.

(** ** DiffEngine: single-file replace *)

Section ReplaceProps.
Import GoStrings Replace.

Lemma Index_lower s substr : -1 <= Index s substr.
Proof.
  induction s as [|c s IH]; cbn [Index].
  - destruct (HasPrefix _ _); lia.
  - destruct (HasPrefix _ _); [lia|].
    destruct (Z.ltb_spec (Index s substr) 0); lia.
Qed.

Lemma Contains_occurrences s substr :
  Contains s substr = true <-> (0 < occurrences s substr)%nat.
Proof.
  unfold Contains. rewrite Z.leb_le.
  induction s as [|c s IH]; cbn [Index occurrences].
  - destruct (HasPrefix _ _); lia.
  - destruct (HasPrefix _ _); [lia|].
    pose proof (Index_lower s substr).
    destruct (Z.ltb_spec (Index s substr) 0); lia.
Qed.

Lemma countSkip_bounds skip s substr :
  0 <= countSkip skip s substr <= Z.of_nat (occurrences s substr).
Proof.
  revert skip. induction s as [|c s IH]; intros skip; cbn [countSkip occurrences].
  - lia.
  - destruct skip as [|k].
    + destruct (HasPrefix _ _).
      * specialize (IH (len substr - 1)%nat). lia.
      * specialize (IH O). lia.
    + specialize (IH k). lia.
Qed.

Lemma countSkip_found s substr :
  substr <> "" -> (0 < occurrences s substr)%nat -> 0 < countSkip 0 s substr.
Proof.
  intros Hne. induction s as [|c s IH]; cbn [countSkip occurrences].
  - destruct substr; [contradiction|]. simpl. lia.
  - destruct (HasPrefix _ _).
    + pose proof (countSkip_bounds (len substr - 1) s substr). lia.
    + intros H. apply IH. lia.
Qed.

(** For a non-empty text, [strings.Count] is positive exactly when the text
    occurs, and never more than the number of places where it occurs. *)
Lemma Count_occurrences s substr :
  substr <> "" ->
  0 <= Count s substr <= Z.of_nat (occurrences s substr)
  /\ (0 < Count s substr <-> (0 < occurrences s substr)%nat).
Proof.
  intros Hne. unfold Count.
  destruct (String.eqb_spec substr ""); [contradiction|].
  pose proof (countSkip_bounds 0 s substr).
  pose proof (countSkip_found s substr Hne). split; [lia|]. split; lia.
Qed.

Variable fs : FileSystem.
Variables path oldText newText s : string.
Hypothesis Hread : contents fs !! path = Some s.
Hypothesis Hold : oldText <> "".

(** The text does not occur: both modes report it and leave the files. *)
Lemma applyReplace_absent preview :
  occurrences s oldText = O ->
  applyReplace fs path oldText newText preview
  = ({| Success := false; FilePath := ""; Content := "";
        Error := "Text not found" |}, fs).
Proof.
  intros Hocc. unfold applyReplace, ReadFile. rewrite Hread.
  destruct (Contains s oldText) eqn:Hc; [|reflexivity].
  apply Contains_occurrences in Hc. lia.
Qed.

(** [strings.Count] finds more than one instance: both modes fail and leave
    the files. *)
Lemma applyReplace_ambiguous preview :
  1 < Count s oldText ->
  Success (fst (applyReplace fs path oldText newText preview)) = false
  /\ Error (fst (applyReplace fs path oldText newText preview)) <> ""
  /\ snd (applyReplace fs path oldText newText preview) = fs.
Proof.
  intros Hc. unfold applyReplace, ReadFile. rewrite Hread.
  destruct (Contains s oldText); cbn [negb];
    [|repeat split; simpl; discriminate].
  destruct (Z.gtb_spec (Count s oldText) 1); [|lia].
  repeat split; simpl; discriminate.
Qed.

(** The text occurs at exactly one place: preview returns the new content,
    apply writes it when the file can be written. *)
Lemma applyReplace_unique :
  occurrences s oldText = 1%nat ->
  applyReplace fs path oldText newText true
  = ({| Success := true; FilePath := path;
        Content := GoStrings.Replace s oldText newText 1; Error := "" |}, fs)
  /\ (path ∉ readOnly fs ->
      applyReplace fs path oldText newText false
      = ({| Success := true; FilePath := path; Content := ""; Error := "" |},
         {| contents := <[path := GoStrings.Replace s oldText newText 1]> (contents fs);
            readOnly := readOnly fs |})).
Proof.
  intros Hocc. unfold applyReplace, ReadFile, WriteFile. rewrite Hread.
  destruct (Count_occurrences s oldText Hold) as [Hb Hp].
  replace (Contains s oldText) with true
    by (symmetry; apply Contains_occurrences; lia).
  cbn [negb]. destruct (Z.gtb_spec (Count s oldText) 1); [lia|].
  split; [reflexivity|]. intros Hw. destruct (decide _); [contradiction|reflexivity].
Qed.

(** The exact criterion of the code: a mode succeeds when [strings.Count]
    finds one instance (and, for apply, the file can be written). *)
Lemma applyReplace_succeeds_iff preview :
  Success (fst (applyReplace fs path oldText newText preview)) = true
  <-> Count s oldText = 1 /\ (preview = true \/ path ∉ readOnly fs).
Proof.
  unfold applyReplace, ReadFile, WriteFile. rewrite Hread.
  destruct (Count_occurrences s oldText Hold) as [Hb Hp].
  pose proof (Contains_occurrences s oldText) as Hc.
  destruct (Contains s oldText); cbn [negb].
  - destruct (Z.gtb_spec (Count s oldText) 1) as [Hgt|Hle]; cbn [fst Success].
    + split; [discriminate|lia].
    + assert (Hone : Count s oldText = 1) by (destruct Hc as [Hc _]; lia).
      destruct preview; cbn [fst Success]; [tauto|].
      destruct (decide (path ∈ readOnly fs)); cbn [fst Success].
      * split; [discriminate|]. intros [_ [?|?]]; [discriminate|contradiction].
      * tauto.
  - cbn [fst Success]. split; [discriminate|].
    intros [Hone _]. apply Hc. lia.
Qed.

End ReplaceProps.

(** C2 (the code against the claim).  In the file "aaa" the text "aa"
    occurs at two places, offsets 0 and 1.  [strings.Count] counts instances
    that do not overlap and finds one, so both modes succeed: preview
    returns "ba", and apply writes "ba" to the file. *)
Theorem replaceMode_overlapping_text :
  GoStrings.occurrences "aaa" "aa" = 2%nat
  /\ GoStrings.Count "aaa" "aa" = 1
  /\ fst (Replace.replaceMode true tripleA "f.txt" "aa" "b")
     = {| Replace.Success := true; Replace.FilePath := "f.txt";
          Replace.Content := "ba"; Replace.Error := "" |}
  /\ Replace.Success (fst (Replace.replaceMode false tripleA "f.txt" "aa" "b")) = true
  /\ Replace.contents (snd (Replace.replaceMode false tripleA "f.txt" "aa" "b"))
     !! "f.txt" = Some "ba".
Proof. repeat split; vm_compute; reflexivity. Qed.

(** *** DiffEngine: what a replacement does to the files *)

Section ReplaceModeProps.
Import GoStrings Replace.

Lemma HasPrefix_split s prefix :
  HasPrefix s prefix = true -> s = prefix +:+ drop (len prefix) s.
Proof.
  revert s. induction prefix as [|c prefix IH]; intros s H; [reflexivity|].
  destruct s as [|d s]; [discriminate|]. cbn [HasPrefix] in H.
  apply andb_true_iff in H as [Hc H]. apply Ascii.eqb_eq in Hc. subst c.
  exact (f_equal (String d) (IH s H)).
Qed.

(** [Index] finds an instance: the string is what stands before it, the
    instance, and what follows. *)
Lemma Index_split s substr :
  0 <= Index s substr ->
  s = take (Z.to_nat (Index s substr)) s +:+ substr
      +:+ drop (Z.to_nat (Index s substr) + len substr) s
  /\ Z.of_nat (String.length (take (Z.to_nat (Index s substr)) s))
     = Index s substr.
Proof.
  induction s as [|c s IH]; cbn [Index].
  - destruct (HasPrefix "" substr) eqn:Hp; [|lia]. intros _.
    split; [|reflexivity]. now apply HasPrefix_split in Hp.
  - destruct (HasPrefix (String c s) substr) eqn:Hp.
    + intros _. split; [|reflexivity]. now apply HasPrefix_split in Hp.
    + cbn zeta. destruct (Z.ltb_spec (Index s substr) 0) as [|Hge]; [lia|].
      intros _. destruct (IH Hge) as [Hs Hl].
      replace (Z.to_nat (Index s substr + 1)) with (S (Z.to_nat (Index s substr)))
        by lia.
      cbn [take drop Nat.add String.length]. split; [|lia].
      exact (f_equal (String c) Hs).
Qed.

(** Replacing the one instance that [Count] finds. *)
Lemma Replace_once s old new :
  old <> "" -> Count s old = 1 -> 0 <= Index s old ->
  Replace s old new 1
  = take (Z.to_nat (Index s old)) s +:+ new
    +:+ drop (Z.to_nat (Index s old) + len old) s.
Proof.
  intros Hold Hcount Hidx. unfold Replace.
  destruct (String.eqb_spec old new) as [<-|Hne].
  - cbn [orb]. exact (proj1 (Index_split s old Hidx)).
  - cbn [orb]. rewrite Hcount.
    change (replaceLoop 1 true s old new
            = take (Z.to_nat (Index s old)) s +:+ new
              +:+ drop (Z.to_nat (Index s old) + len old) s).
    cbn [replaceLoop]. now destruct (String.eqb_spec old "").
Qed.

(** X18: [apply] and [preview] succeed exactly when a target and an old text
    are given, the target can be read, [strings.Count] finds the old text in
    it once, and, for [apply], the target can be written. *)
Theorem replaceMode_succeeds_iff preview fs targetFile oldText newText :
  Success (fst (replaceMode preview fs targetFile oldText newText)) = true
  <-> targetFile <> "" /\ oldText <> ""
      /\ (exists s, contents fs !! targetFile = Some s /\ Count s oldText = 1)
      /\ (preview = true \/ targetFile ∉ readOnly fs).
Proof.
  unfold replaceMode.
  destruct (String.eqb_spec targetFile "") as [->|Htarget].
  { cbn. split; [discriminate|]. now intros [[] _]. }
  destruct (String.eqb_spec oldText "") as [->|Hold].
  { cbn. split; [discriminate|]. now intros (_ & [] & _). }
  cbn [negb andb].
  destruct (contents fs !! targetFile) as [s|] eqn:Hread.
  - rewrite (applyReplace_succeeds_iff fs targetFile oldText newText s Hread Hold).
    split.
    + intros [Hc Hw]. repeat split; [exact Htarget|exact Hold| |exact Hw].
      now exists s.
    + intros (_ & _ & (s' & [= <-] & Hc) & Hw). now split.
  - unfold applyReplace, ReadFile. rewrite Hread. cbn. split; [discriminate|].
    now intros (_ & _ & (s & [=] & _) & _).
Qed.

(** X19: a preview leaves the files as they are, and so does a replacement
    that is refused before anything is written: one without a target or an
    old text, one whose target cannot be read, and one whose old text
    [strings.Count] does not find exactly once in the target.  One that
    succeeds cuts the target at the first instance of the old text and puts
    the new text in its place: a preview returns that content, [apply]
    writes it to the target, and no other file changes.  Nothing is said of
    the files after a write that failed. *)
Theorem replaceMode_effect preview fs targetFile oldText newText :
  let result := fst (replaceMode preview fs targetFile oldText newText) in
  let after := snd (replaceMode preview fs targetFile oldText newText) in
  (preview = true -> after = fs)
  /\ (targetFile = "" \/ oldText = "" \/ contents fs !! targetFile = None
      \/ (exists s, contents fs !! targetFile = Some s /\ Count s oldText <> 1) ->
      Success result = false /\ after = fs)
  /\ (Success result = true ->
      exists s before behind,
        contents fs !! targetFile = Some s
        /\ s = before +:+ oldText +:+ behind
        /\ Z.of_nat (String.length before) = Index s oldText
        /\ if preview
           then Content result = before +:+ newText +:+ behind /\ after = fs
           else after
                = {| contents :=
                       <[targetFile := before +:+ newText +:+ behind]> (contents fs);
                     readOnly := readOnly fs |}).
Proof.
  intros result after. split; [|split].
  - intros ->. subst result after. unfold replaceMode.
    destruct (negb _ && negb _); [|reflexivity].
    unfold applyReplace. destruct (ReadFile fs targetFile) as [s|err];
      [|reflexivity].
    destruct (negb (Contains s oldText)); [reflexivity|].
    now destruct (Count s oldText >? 1).
  - subst result after. unfold replaceMode.
    destruct (String.eqb_spec targetFile "") as [|Htarget];
      [intros _; now split|].
    destruct (String.eqb_spec oldText "") as [|Hold]; [intros _; now split|].
    cbn [negb andb]. unfold applyReplace, ReadFile.
    intros [E|[E|[E|(s & Hread & Hcount)]]];
      [contradiction|contradiction|rewrite E; now split|].
    rewrite Hread.
    destruct (Contains s oldText) eqn:Hc; cbn [negb]; [|now split].
    destruct (Z.gtb_spec (Count s oldText) 1) as [|Hle]; [now split|].
    exfalso. apply Hcount.
    destruct (Count_occurrences s oldText Hold) as [_ Hpos].
    apply Contains_occurrences in Hc. apply Hpos in Hc. lia.
  - intros Hok. subst result after. unfold replaceMode in *.
    destruct (String.eqb_spec targetFile "") as [|Htarget]; [discriminate Hok|].
    destruct (String.eqb_spec oldText "") as [|Hold]; [discriminate Hok|].
    cbn [negb andb] in *.
    destruct (contents fs !! targetFile) as [s|] eqn:Hread;
      [|unfold applyReplace, ReadFile in Hok; rewrite Hread in Hok;
        discriminate Hok].
    pose proof Hok as Hiff.
    apply (applyReplace_succeeds_iff fs targetFile oldText newText s Hread Hold)
      in Hiff as [Hcount Hw].
    assert (Hidx : 0 <= Index s oldText).
    { destruct (Count_occurrences s oldText Hold) as [_ Hpos].
      apply Z.leb_le. apply (Contains_occurrences s oldText). apply Hpos. lia. }
    destruct (Index_split s oldText Hidx) as [Hsplit Hlen].
    exists s, (take (Z.to_nat (Index s oldText)) s),
      (drop (Z.to_nat (Index s oldText) + len oldText) s).
    repeat split; [exact Hsplit|exact Hlen|].
    unfold applyReplace, ReadFile in *. rewrite Hread in *.
    assert (Hc : Contains s oldText = true) by now apply Z.leb_le.
    rewrite Hc in *. cbn [negb] in *. rewrite Hcount in *.
    change (1 >? 1) with false in *. cbn iota in *.
    rewrite (Replace_once s oldText newText Hold Hcount Hidx) in *.
    destruct preview.
    + now split.
    + unfold WriteFile in *. destruct (decide (targetFile ∈ readOnly fs)).
      * discriminate Hok.
      * reflexivity.
Qed.

End ReplaceModeProps.

(** ** ChangeWatcher *)

Section WatcherProps.
Import Watcher.

Lemma oldStep_app now new events entry :
  oldStep now new events entry = events ++ oldStep now new [] entry.
Proof.
  destruct entry as [p os]. unfold oldStep.
  destruct (new !! p) as [ns|]; [destruct (decide _)|];
    simpl; rewrite ?app_nil_r; reflexivity.
Qed.

Lemma newStep_app old events entry :
  newStep old events entry = events ++ newStep old [] entry.
Proof.
  destruct entry as [p s]. unfold newStep.
  destruct (old !! p); simpl; rewrite ?app_nil_r; reflexivity.
Qed.

Lemma foldl_step_flat {A B} (f : list B -> A -> list B)
    (Happ : forall acc a, f acc a = acc ++ f [] a) (l : list A) (acc : list B) :
  foldl f acc l = acc ++ flat_map (f []) l.
Proof.
  revert acc. induction l as [|a l IH]; intros acc; simpl.
  - now rewrite app_nil_r.
  - rewrite IH, Happ, <- app_assoc. reflexivity.
Qed.

Lemma compareStates_flat now old new :
  compareStates now old new =
  flat_map (oldStep now new []) (map_to_list old)
  ++ flat_map (newStep old []) (map_to_list new).
Proof.
  unfold compareStates.
  rewrite (foldl_step_flat (newStep old) (newStep_app old)).
  rewrite (foldl_step_flat (oldStep now new) (oldStep_app now new)).
  reflexivity.
Qed.

Lemma In_map_to_list (m : gmap string FileState) p s :
  In (p, s) (map_to_list m) <-> m !! p = Some s.
Proof. rewrite <- list_elem_of_In. apply elem_of_map_to_list. Qed.

(** Which paths are reported, and as what. *)
Lemma reports_compareStates now old new p k :
  reports (compareStates now old new) p k <->
  (k = "deleted" /\ is_Some (old !! p) /\ new !! p = None) \/
  (k = "modified" /\ exists os ns, old !! p = Some os /\ new !! p = Some ns
                                   /\ ModTime ns <> ModTime os) \/
  (k = "created" /\ old !! p = None /\ is_Some (new !! p)).
Proof.
  unfold reports. rewrite compareStates_flat. split.
  - intros (e & Hin & Hp & Hk). apply in_app_or in Hin as [Hin|Hin];
      apply in_flat_map in Hin as ([q s] & Hq & He); apply In_map_to_list in Hq.
    + unfold oldStep in He. destruct (new !! q) as [ns|] eqn:Hn.
      * destruct (decide _) as [Hne|]; simpl in He; [|tauto].
        destruct He as [<-|[]]. simpl in *. subst. right; left. eauto 10.
      * destruct He as [<-|[]]. simpl in *. subst. left. eauto.
    + unfold newStep in He. destruct (old !! q) eqn:Ho; simpl in He; [tauto|].
      destruct He as [<-|[]]. simpl in *. subst. right; right. eauto.
  - intros [(-> & [os Ho] & Hn)|[(-> & os & ns & Ho & Hn & Hne)|(-> & Ho & [s Hn])]].
    + eexists. split; [apply in_or_app; left; apply in_flat_map|].
      * exists (p, os). split; [now apply In_map_to_list|].
        unfold oldStep. rewrite Hn. left. reflexivity.
      * split; reflexivity.
    + eexists. split; [apply in_or_app; left; apply in_flat_map|].
      * exists (p, os). split; [now apply In_map_to_list|].
        unfold oldStep. rewrite Hn. destruct (decide _); [|tauto]. left. reflexivity.
      * split; reflexivity.
    + eexists. split; [apply in_or_app; right; apply in_flat_map|].
      * exists (p, s). split; [now apply In_map_to_list|].
        unfold newStep. rewrite Ho. left. reflexivity.
      * split; reflexivity.
Qed.

Lemma compareStates_self now (S : gmap string FileState) :
  compareStates now S S = [].
Proof.
  destruct (compareStates now S S) as [|e evs] eqn:E; [reflexivity|exfalso].
  assert (Hr : reports (compareStates now S S) (Path e) (Type_ e)).
  { exists e. rewrite E. simpl. auto. }
  apply reports_compareStates in Hr.
  destruct Hr as [(_ & [os Ho] & Hn)|[(_ & os & ns & Ho & Hn & Hne)|(_ & Ho & [s Hn])]];
    congruence.
Qed.

Lemma swapKind_inv k k' : swapKind k = k' -> k = swapKind k'.
Proof.
  intros <-. unfold swapKind.
  destruct (String.eqb_spec k "created") as [E|Hc]; [now rewrite E|].
  destruct (String.eqb_spec k "deleted") as [E|Hd]; [now rewrite E|].
  destruct (String.eqb_spec k "created"); [contradiction|].
  destruct (String.eqb_spec k "deleted"); [contradiction|reflexivity].
Qed.

(** C8 (the code against the claim).  Comparing a snapshot with itself
    yields no event, and comparing S1 with S2 and S2 with S1 reports the
    same paths, created and deleted swapped and modified kept.  A path
    present in both snapshots is reported by no event when its two
    modified-times are the same [time.Time] value, word for word, whatever
    the sizes are.  But [compareStates] compares the values with [!=], and
    the location is one of their words: two modified-times that are the same
    instant at different locations give a "modified" event.  So it is for a
    file that has not changed when its state comes from a snapshot written
    and decoded on a machine whose zone is UTC: the decoded time has the
    location UTC, the time of [os.Lstat] the location [time.Local]. *)
Theorem compareStates_same_instant_modified (now now' : GoTime.Time)
    (S1 S2 : gmap string FileState) :
  compareStates now S1 S1 = []
  /\ (forall p k, reports (compareStates now S1 S2) p k
                  <-> reports (compareStates now' S2 S1) p (swapKind k))
  /\ (forall p a b, S1 !! p = Some a -> S2 !! p = Some b ->
        ModTime a = ModTime b ->
        forall e, In e (compareStates now S1 S2) -> Path e <> p)
  /\ (forall p a b, S1 !! p = Some a -> S2 !! p = Some b ->
        GoTime.Equal (ModTime a) (ModTime b) = true ->
        GoTime.loc (ModTime a) <> GoTime.loc (ModTime b) ->
        In {| Type_ := "modified"; Path := p; Timestamp := ModTime b;
              EvSize := Size b |}
           (compareStates now S1 S2))
  /\ GoTime.Equal decodedTime statTime = true
  /\ compareStates now
       {[ "a.py" := {| ModTime := decodedTime; Size := 10 |} ]}
       {[ "a.py" := {| ModTime := statTime; Size := 10 |} ]}
     = [ {| Type_ := "modified"; Path := "a.py"; Timestamp := statTime;
            EvSize := 10 |} ].
Proof.
  split; [apply compareStates_self|]. split; [|split; [|split; [|split]]].
  - intros p k. rewrite !reports_compareStates. split.
    + intros [(-> & H1 & H2)|[(-> & os & ns & Ho & Hn & Hne)|(-> & H1 & H2)]]; simpl.
      * right; right. auto.
      * right; left. split; [reflexivity|]. exists ns, os. auto.
      * left. auto.
    + intros [(Hk & H1 & H2)|[(Hk & os & ns & Ho & Hn & Hne)|(Hk & H1 & H2)]];
        apply swapKind_inv in Hk; simpl in Hk.
      * right; right. auto.
      * right; left. split; [assumption|]. exists ns, os. auto.
      * left. auto.
  - intros p a b Ha Hb Heq e Hin Hp.
    assert (Hr : reports (compareStates now S1 S2) p (Type_ e)) by (exists e; auto).
    apply reports_compareStates in Hr.
    destruct Hr as [(_ & _ & Hn)|[(_ & os & ns & Ho & Hn & Hne)|(_ & Ho & _)]];
      congruence.
  - intros p a b Ha Hb _ Hloc. rewrite compareStates_flat.
    apply in_or_app. left. apply in_flat_map. exists (p, a).
    split; [now apply In_map_to_list|]. unfold oldStep. rewrite Hb.
    destruct (decide (ModTime b <> ModTime a)) as [_|Heq]; [now left|].
    exfalso. apply Hloc. apply dec_stable in Heq. now rewrite Heq.
  - reflexivity.
  - vm_compute. reflexivity.
Qed.

End WatcherProps.

(** *** ChangeWatcher: collecting and watching *)

Lemma foldl_filter_if {A St} (keep : A -> bool) (g : St -> A -> St)
    (l : list A) (st : St) :
  foldl (fun st x => if keep x then g st x else st) st l
  = foldl g st (List.filter keep l).
Proof.
  revert st. induction l as [|x l IH]; intros st; [reflexivity|].
  cbn [foldl List.filter]. rewrite IH. now destruct (keep x).
Qed.

(** What a sequence of insertions leaves at a key. *)
Lemma foldl_insert_sound {A V} (key : A -> string) (val : A -> V) (l : list A)
    (m : gmap string V) p v :
  foldl (fun m x => <[key x := val x]> m) m l !! p = Some v ->
  m !! p = Some v \/ exists x, In x l /\ key x = p /\ val x = v.
Proof.
  revert m. induction l as [|x l IH]; intros m H; [now left|].
  cbn [foldl] in H. apply IH in H as [H|(y & Hy & Hk & Hv)].
  - destruct (decide (key x = p)) as [E|E].
    + rewrite <- E, lookup_insert_eq in H. injection H as H.
      right. exists x. repeat split; [now left|exact E|exact H].
    + rewrite lookup_insert_ne in H by exact E. now left.
  - right. exists y. repeat split; [now right|exact Hk|exact Hv].
Qed.

Lemma foldl_insert_kept {A V} (key : A -> string) (val : A -> V) (l : list A)
    (m : gmap string V) p :
  is_Some (m !! p) ->
  is_Some (foldl (fun m x => <[key x := val x]> m) m l !! p).
Proof.
  revert m. induction l as [|x l IH]; intros m H; [exact H|].
  cbn [foldl]. apply IH. destruct (decide (key x = p)) as [E|E].
  - rewrite <- E, lookup_insert_eq. eauto.
  - now rewrite lookup_insert_ne.
Qed.

Lemma foldl_insert_complete {A V} (key : A -> string) (val : A -> V) (l : list A)
    (m : gmap string V) x :
  In x l -> is_Some (foldl (fun m x => <[key x := val x]> m) m l !! key x).
Proof.
  revert m. induction l as [|y l IH]; intros m Hin; [destruct Hin|].
  cbn [foldl]. destruct Hin as [->|Hin].
  - apply foldl_insert_kept. rewrite lookup_insert_eq. eauto.
  - now apply IH.
Qed.

Section CollectProps.
Import Watcher.

Variable ToLower : string -> string.
Variable extFilter : option (gset string).
Variable excludeMap : gset string.

Local Abbreviation collectState := (collectState ToLower extFilter excludeMap).
Local Abbreviation tracked := (tracked ToLower extFilter excludeMap).
Local Abbreviation watchLoop := (watchLoop ToLower extFilter excludeMap).
Local Abbreviation watchFor := (watchFor ToLower extFilter excludeMap).

(** The state of a file, as the callback records it. *)
Local Abbreviation stateOf :=
  (fun file : string * GoPath.FileInfo * list (string * GoPath.FileInfo) =>
     {| ModTime := GoPath.ModTime (snd (fst file));
        Size := GoPath.Size (snd (fst file)) |}).

Lemma collectState_fold dir tree :
  collectState dir tree
  = foldl (fun m file => <[fst (fst file) := stateOf file]> m) ∅
      (List.filter tracked (GoPath.allFiles dir (GoPath.Base dir) tree [])).
Proof.
  unfold Watcher.collectState.
  rewrite (Walk_fold _ (skippedDir excludeMap)
             (fun p info st =>
                if extensionKept ToLower extFilter p
                then <[p := {| ModTime := GoPath.ModTime info;
                               Size := GoPath.Size info |}]> st
                else st)).
  - rewrite (foldl_filter_if
               (fun file => extensionKept ToLower extFilter (fst (fst file)))
               (fun m file => <[fst (fst file) := stateOf file]> m)).
    now rewrite filter_filter_andb.
  - intros path info st Hd. unfold visit, skippedDir. rewrite Hd. cbn [snd].
    now destruct (excludedName _ _).
  - intros path info st Hd. unfold visit. rewrite Hd.
    now destruct (extensionKept _ _ _).
Qed.

(** X20: the state that [collectState] returns holds the tracked files, and
    nothing else.  An entry of the state is the modification time and size of
    a file of the tree with that path, under no excluded or hidden directory
    and with an extension that passes the filter; and every such file has an
    entry under its path. *)
Theorem collectState_tracked dir tree :
  (forall p s,
      collectState dir tree !! p = Some s ->
      exists file,
        In file (GoPath.allFiles dir (GoPath.Base dir) tree [])
        /\ tracked file = true /\ fst (fst file) = p /\ stateOf file = s)
  /\ (forall file,
        In file (GoPath.allFiles dir (GoPath.Base dir) tree []) ->
        tracked file = true ->
        is_Some (collectState dir tree !! fst (fst file))).
Proof.
  rewrite collectState_fold. split.
  - intros p s H.
    apply (foldl_insert_sound (fun file => fst (fst file)) stateOf) in H
      as [H|(file & Hin & Hk & Hv)]; [now rewrite lookup_empty in H|].
    apply filter_In in Hin as [Hin Ht]. now exists file.
  - intros file Hin Ht.
    apply (foldl_insert_complete (fun file => fst (fst file)) stateOf).
    apply filter_In. now split.
Qed.

End CollectProps.

Lemma flat_map_none {A B} (f : A -> list B) (l : list A) :
  (forall x, In x l -> f x = []) -> flat_map f l = [].
Proof.
  induction l as [|x l IH]; intros H; [reflexivity|].
  cbn [flat_map]. rewrite (H x) by now left.
  apply IH. intros y Hy. apply H. now right.
Qed.

Section WatchProps.
Import Watcher.

(** Two states with the same paths and the same modification times give no
    event. *)
Lemma compareStates_same_times now (old new : gmap string FileState) :
  (forall p, ModTime <$> old !! p = ModTime <$> new !! p) ->
  compareStates now old new = [].
Proof.
  intros Hsame. rewrite compareStates_flat.
  assert (H1 : flat_map (oldStep now new []) (map_to_list old) = []).
  { apply flat_map_none. intros [p os] Hin. apply In_map_to_list in Hin.
    unfold oldStep. specialize (Hsame p). rewrite Hin in Hsame. cbn in Hsame.
    destruct (new !! p) as [ns|]; [|discriminate]. cbn in Hsame.
    injection Hsame as Hsame. destruct (decide _) as [Hne|]; [|reflexivity].
    now rewrite Hsame in Hne. }
  assert (H2 : flat_map (newStep old []) (map_to_list new) = []).
  { apply flat_map_none. intros [p s] Hin. apply In_map_to_list in Hin.
    unfold newStep. specialize (Hsame p). rewrite Hin in Hsame.
    destruct (old !! p); [reflexivity|discriminate]. }
  now rewrite H1, H2.
Qed.

(** Two states that differ at a path, in its presence or in its modification
    time, give an event for the path. *)
Lemma compareStates_differ now (old new : gmap string FileState) p :
  ModTime <$> old !! p <> ModTime <$> new !! p ->
  exists e, In e (compareStates now old new) /\ Path e = p.
Proof.
  intros Hne.
  assert (exists k, reports (compareStates now old new) p k) as (k & e & He & Hp & _).
  { destruct (old !! p) as [os|] eqn:Ho, (new !! p) as [ns|] eqn:Hn.
    - exists "modified". apply reports_compareStates. right; left.
      split; [reflexivity|]. exists os, ns. repeat split; try assumption.
      intros E. apply Hne. cbn. now rewrite E.
    - exists "deleted". apply reports_compareStates. left. eauto.
    - exists "created". apply reports_compareStates. right; right. eauto.
    - now destruct Hne. }
  now exists e.
Qed.

Variable ToLower : string -> string.
Variable extFilter : option (gset string).
Variable excludeMap : gset string.

Local Abbreviation collectState := (collectState ToLower extFilter excludeMap).
Local Abbreviation watchStep := (watchStep ToLower extFilter excludeMap).
Local Abbreviation watchLoop := (watchLoop ToLower extFilter excludeMap).
Local Abbreviation watchFor := (watchFor ToLower extFilter excludeMap).

Lemma foldl_watchStep_quiet dir ticks state events :
  List.Forall (fun tick =>
                 ModTime <$> collectState dir (snd tick) = ModTime <$> state)
    ticks ->
  snd (foldl (watchStep dir) (state, events) ticks) = events.
Proof.
  revert state events. induction ticks as [|tick ticks IH]; intros state events H;
    [reflexivity|].
  inversion H as [|? ? Htick Hrest]; subst. cbn [foldl]. unfold Watcher.watchStep at 2.
  cbn [fst snd]. rewrite IH.
  - rewrite compareStates_same_times; [apply app_nil_r|].
    intros p. now rewrite <- !lookup_fmap, Htick.
  - eapply List.Forall_impl; [|exact Hrest]. intros t Ht. cbn beta in Ht.
    now rewrite Ht, Htick.
Qed.

(** X21: a watch during which no tracked file appears, disappears or gets
    another modification time reports nothing, whatever happens to the sizes
    of the files and to the files that are not tracked. *)
Theorem watchFor_quiet dir tree ticks :
  List.Forall (fun tick =>
                 ModTime <$> collectState dir (snd tick)
                 = ModTime <$> collectState dir tree) ticks ->
  Events (watchFor dir tree ticks) = [] /\ Count (watchFor dir tree ticks) = 0.
Proof.
  intros H. unfold Watcher.watchFor, Watcher.watchLoop. cbn [Events Count].
  rewrite (foldl_watchStep_quiet dir ticks _ [] H). now split.
Qed.

Lemma foldl_watchStep_events dir ticks state events :
  exists more, snd (foldl (watchStep dir) (state, events) ticks) = events ++ more.
Proof.
  revert state events. induction ticks as [|tick ticks IH]; intros state events.
  - exists []. cbn. now rewrite app_nil_r.
  - cbn [foldl]. unfold Watcher.watchStep at 2. cbn [fst snd].
    destruct (IH (collectState dir (snd tick))
                 (events ++ compareStates (fst tick) state (collectState dir (snd tick))))
      as (more & ->).
    eexists. now rewrite <- app_assoc.
Qed.

Lemma foldl_watchStep_change dir ticks state events p :
  ModTime <$> state !! p
  <> ModTime <$> fst (foldl (watchStep dir) (state, events) ticks) !! p ->
  exists e, In e (snd (foldl (watchStep dir) (state, events) ticks)) /\ Path e = p.
Proof.
  revert state events. induction ticks as [|tick ticks IH]; intros state events Hne.
  - now destruct Hne.
  - cbn [foldl] in *. unfold Watcher.watchStep at 2 in Hne.
    unfold Watcher.watchStep at 2. cbn [fst snd] in *.
    set (next := collectState dir (snd tick)) in *.
    destruct (decide (ModTime <$> state !! p = ModTime <$> next !! p)) as [E|E].
    + apply IH. now rewrite <- E.
    + destruct (compareStates_differ (fst tick) state next p E) as (e & He & Hp).
      exists e. split; [|exact Hp].
      destruct (foldl_watchStep_events dir ticks next
                  (events ++ compareStates (fst tick) state next)) as (more & ->).
      apply in_or_app. left. apply in_or_app. now right.
Qed.

(** X22: no net change escapes a watch.  A path that is tracked at the start
    and not at the end, or the other way round, or whose modification time
    at the end is another than at the start, has an event among those that
    [watchFor] returns. *)
Theorem watchFor_reports_change dir tree ticks p :
  ModTime <$> collectState dir tree !! p
  <> ModTime <$> fst (watchLoop dir tree ticks) !! p ->
  exists e, In e (Events (watchFor dir tree ticks)) /\ Path e = p.
Proof.
  intros Hne. unfold Watcher.watchFor. cbn [Events].
  now apply foldl_watchStep_change.
Qed.

End WatchProps.

(** The sample tree a second later: [a.py] has grown, nothing else has
    happened. *)
Lemma watchFor_quiet_witness :
  Watcher.Events (sampleWatch [(epoch, grownTree)]) = []
  /\ Watcher.Count (sampleWatch [(epoch, grownTree)]) = 0.
Proof.
  apply watchFor_quiet. repeat constructor.
Defined.

Lemma watchFor_reports_change_witness :
  exists e,
    In e (Watcher.Events (sampleWatch [(epoch, grownTree); (epoch, prunedTree)]))
    /\ Watcher.Path e = "d/a.py".
Proof.
  apply watchFor_reports_change. vm_compute. discriminate.
Defined.

Section SnapshotProps.
Import Watcher.

Lemma foldl_insert_size {A V} (key : A -> string) (val : A -> V) (l : list A) :
  forall m : gmap string V,
    List.NoDup (map key l) ->
    (forall x, In x l -> m !! key x = None) ->
    size (foldl (fun m x => <[key x := val x]> m) m l) = (size m + length l)%nat.
Proof.
  induction l as [|x l IH]; intros m Hnd Hnew; cbn [foldl length]; [lia|].
  cbn [map] in Hnd. inversion Hnd as [|? ? Hx Hl]; subst.
  rewrite IH; [|exact Hl|].
  - rewrite map_size_insert_None by (apply Hnew; now left). lia.
  - intros y Hy. rewrite lookup_insert_ne.
    + apply Hnew. now right.
    + intros E. apply Hx. rewrite E. now apply in_map.
Qed.

Variable ToLower : string -> string.
Variable extFilter : option (gset string).
Variable excludeMap : gset string.

Local Abbreviation collectState := (collectState ToLower extFilter excludeMap).
Local Abbreviation takeSnapshot := (takeSnapshot ToLower extFilter excludeMap).
Local Abbreviation tracked := (tracked ToLower extFilter excludeMap).

(** X23: in a tree whose files have paths of their own, the count of a
    snapshot is the number of the tracked files of the tree. *)
Theorem takeSnapshot_count dir tree :
  List.NoDup (map (fun file => fst (fst file))
                (GoPath.allFiles dir (GoPath.Base dir) tree [])) ->
  SnapshotCount (takeSnapshot dir tree)
  = Z.of_nat (length (List.filter tracked
                        (GoPath.allFiles dir (GoPath.Base dir) tree []))).
Proof.
  intros Hnd. unfold Watcher.takeSnapshot. cbn [SnapshotCount]. f_equal.
  rewrite collectState_fold.
  rewrite (foldl_insert_size (fun file => fst (fst file))).
  - now rewrite map_size_empty.
  - revert Hnd. generalize (GoPath.allFiles dir (GoPath.Base dir) tree []).
    intros l. induction l as [|x l IH]; intros Hnd; [constructor|].
    cbn [map] in Hnd. inversion Hnd as [|? ? Hx Hl]; subst.
    cbn [List.filter]. destruct (tracked x); [|now apply IH].
    cbn [map]. constructor; [|now apply IH].
    intros Hin. apply Hx. apply in_map_iff in Hin as (y & E & Hy).
    apply filter_In in Hy as [Hy _]. apply in_map_iff. now exists y.
  - intros x _. apply lookup_empty.
Qed.

End SnapshotProps.

Section FilterCase.
Import Watcher.

Variable ToLower : string -> string.
Variable excludeMap : gset string.

(** X24: the extension filter of the watcher is matched against the lowered
    extension of a file, and its own entries are kept as they are given.  So
    a filter whose entries all hold an upper-case letter matches no file:
    the state is empty, whatever the tree. *)
Theorem collectState_upper_case_filter (filter : gset string) dir tree :
  (forall s, ToLower (ToLower s) = ToLower s) ->
  (forall e, e ∈ filter -> ToLower e <> e) ->
  collectState ToLower (Some filter) excludeMap dir tree = ∅.
Proof.
  intros Hidem Hupper. rewrite collectState_fold.
  rewrite filter_none; [reflexivity|].
  intros file _. unfold tracked, extensionKept.
  apply andb_false_iff. right. apply bool_decide_eq_false. intros Hin.
  now apply (Hupper _ Hin).
Qed.

End FilterCase.

Section OneEventPerPath.
Import Watcher.

Lemma NoDup_flat_map_keys {A B} (key : A -> string) (path : B -> string)
    (f : A -> list B) (l : list A) :
  List.NoDup (map key l) ->
  (forall x, In x l -> f x = [] \/ exists e, f x = [e] /\ path e = key x) ->
  List.NoDup (map path (flat_map f l))
  /\ forall p, In p (map path (flat_map f l)) -> In p (map key l).
Proof.
  induction l as [|x l IH]; intros Hnd Hf; cbn [flat_map map].
  - split; [constructor|intros p []].
  - cbn [map] in Hnd. inversion Hnd as [|? ? Hx Hl]; subst.
    destruct (IH Hl (fun y Hy => Hf y (or_intror Hy))) as [IHnd IHin].
    destruct (Hf x (or_introl eq_refl)) as [->|(e & -> & He)]; cbn [app map].
    + split; [exact IHnd|]. intros p Hp. right. now apply IHin.
    + split.
      * constructor; [|exact IHnd]. rewrite He. intros Hin. apply Hx.
        now apply IHin.
      * intros p [<-|Hp]; [now left|right; now apply IHin].
Qed.

(** X25: a comparison gives at most one event for a path: a path of the old
    state is deleted or modified or neither, a path of the new state alone is
    created. *)
Theorem compareStates_one_event_per_path now (old new : gmap string FileState) :
  List.NoDup (map Path (compareStates now old new)).
Proof.
  rewrite compareStates_flat, map_app.
  destruct (NoDup_flat_map_keys fst Path (oldStep now new []) (map_to_list old))
    as [Hold Holdin].
  { apply NoDup_ListNoDup, NoDup_fst_map_to_list. }
  { intros [p os] _. unfold oldStep. cbn [fst].
    destruct (new !! p) as [ns|]; [|right; eexists; split; reflexivity].
    destruct (decide _); [right; eexists; split; reflexivity|now left]. }
  destruct (NoDup_flat_map_keys fst Path (newStep old []) (map_to_list new))
    as [Hnew Hnewin].
  { apply NoDup_ListNoDup, NoDup_fst_map_to_list. }
  { intros [p s] _. unfold newStep. cbn [fst].
    destruct (old !! p); [now left|right; eexists; split; reflexivity]. }
  apply List.NoDup_app; [exact Hold|exact Hnew|].
  intros p Hp1 Hp2. apply Holdin in Hp1.
  apply in_map_iff in Hp1 as ([p' os] & <- & Hos). cbn [fst] in *.
  apply In_map_to_list in Hos.
  apply in_map_iff in Hp2 as (e & He & Hin).
  apply in_flat_map in Hin as ([q s] & _ & Hin). unfold newStep in Hin.
  destruct (old !! q) eqn:Hq; [destruct Hin|].
  destruct Hin as [<-|[]]. cbn [Path] in He. subst q. congruence.
Qed.

End OneEventPerPath.

Lemma takeSnapshot_count_witness :
  Watcher.SnapshotCount
    (Watcher.takeSnapshot asciiLower None
       (Watcher.parseExclude (fun s => s) ".git,node_modules,__pycache__")
       "." sampleTree)
  = 2.
Proof.
  rewrite takeSnapshot_count.
  - vm_compute. reflexivity.
  - vm_compute. repeat constructor; simpl; intuition discriminate.
Defined.

Lemma collectState_upper_case_filter_witness :
  Watcher.collectState asciiLower (Watcher.parseExts (fun s => s) "PY")
    (Watcher.parseExclude (fun s => s) ".git,node_modules,__pycache__")
    "." sampleTree
  = ∅.
Proof.
  assert (Hidem : forall s, asciiLower (asciiLower s) = asciiLower s).
  { induction s as [|c s IH]; [reflexivity|]. cbn [asciiLower]. f_equal; [|exact IH].
    destruct ((65 <=? nat_of_ascii c)%nat && (nat_of_ascii c <=? 90)%nat) eqn:Hc.
    - apply andb_true_iff in Hc as [H1 H2].
      apply Nat.leb_le in H1. apply Nat.leb_le in H2.
      rewrite nat_ascii_embedding by lia.
      destruct (Nat.leb_spec (nat_of_ascii c + 32) 90); [lia|].
      now rewrite andb_false_r.
    - now rewrite Hc. }
  change (Watcher.parseExts (fun s => s) "PY")
    with (Some (list_to_set [".PY"] : gset string)).
  apply (collectState_upper_case_filter asciiLower _ _ "." sampleTree Hidem).
  intros e He. apply elem_of_list_to_set, list_elem_of_singleton in He. subst e.
  discriminate.
Defined.

Section CompareSnapshotProps.
Import Watcher.

Variable ToLower : string -> string.
Variable extFilter : option (gset string).
Variable excludeMap : gset string.

Local Abbreviation collectState := (collectState ToLower extFilter excludeMap).
Local Abbreviation compareSnapshot := (compareSnapshot ToLower extFilter excludeMap).
Local Abbreviation tracked := (tracked ToLower extFilter excludeMap).

(** The tree has a tracked file with this path. *)
Local Abbreviation trackedAt :=
  (fun (dir : string) (tree : GoPath.Node) (p : string) =>
     exists file,
       In file (GoPath.allFiles dir (GoPath.Base dir) tree [])
       /\ tracked file = true /\ fst (fst file) = p).

Lemma collectState_is_Some dir tree p :
  is_Some (collectState dir tree !! p) <-> trackedAt dir tree p.
Proof.
  rewrite collectState_fold. split.
  - intros [s H].
    apply (foldl_insert_sound (fun file => fst (fst file))) in H
      as [H|(file & Hin & Hk & _)]; [now rewrite lookup_empty in H|].
    apply filter_In in Hin as [Hin Ht]. now exists file.
  - intros (file & Hin & Ht & <-).
    apply (foldl_insert_complete (fun file => fst (fst file))).
    apply filter_In. now split.
Qed.

(** X26: against a snapshot that could be loaded, a path is reported as
    deleted exactly when the snapshot has it and the tree has no tracked
    file with that path any more (the file is gone, or it is excluded or
    filtered out now), and as created exactly when the tree has a tracked
    file with that path and the snapshot has not.  The count is the number
    of the events. *)
Theorem compareSnapshot_events dir (old : gmap string FileState) tree now p :
  let result := compareSnapshot dir (inl old) tree now in
  (reports (Events result) p "deleted"
   <-> is_Some (old !! p) /\ ~ trackedAt dir tree p)
  /\ (reports (Events result) p "created"
      <-> old !! p = None /\ trackedAt dir tree p)
  /\ Success result = true
  /\ Count result = Z.of_nat (length (Events result)).
Proof.
  intros result. subst result. unfold Watcher.compareSnapshot.
  cbn [Events Count Success]. rewrite !reports_compareStates.
  split; [|split; [|split; reflexivity]]; split.
  - intros [(_ & Hold & Hnew)|[(Hk & _)|(Hk & _)]]; try discriminate Hk.
    split; [exact Hold|]. intros Ht. apply collectState_is_Some in Ht.
    rewrite Hnew in Ht. now destruct Ht.
  - intros [Hold Ht]. left. split; [reflexivity|]. split; [exact Hold|].
    destruct (collectState dir tree !! p) eqn:E; [|reflexivity].
    destruct Ht. apply collectState_is_Some. rewrite E. eauto.
  - intros [(Hk & _)|[(Hk & _)|(_ & Hold & Hnew)]]; try discriminate Hk.
    split; [exact Hold|]. now apply collectState_is_Some.
  - intros [Hold Ht]. right; right. split; [reflexivity|]. split; [exact Hold|].
    now apply collectState_is_Some.
Qed.

End CompareSnapshotProps.

(** ** TaskRunner *)

Section RunnerProps.
Import Runner.

Variable exec : Exec.
Variable tasks : list Task.
Variables (timeout : Z) (defaultDir : string).

Let step := workerStep exec tasks timeout defaultDir.

Lemma runTask_identity task :
  rID (runTask exec task timeout defaultDir) = ID task
  /\ rCommand (runTask exec task timeout defaultDir) = Command task.
Proof.
  unfold runTask.
  destruct (outErr _); [| |destruct (deadlineExceeded _)]; simpl; auto.
Qed.

Lemma workerStep_length result idx :
  length (Results (step result idx)) = length (Results result).
Proof.
  unfold step, workerStep. destruct (tasks !! idx); simpl; [|reflexivity].
  apply length_insert.
Qed.

Lemma foldl_step_length schedule result :
  length (Results (foldl step result schedule)) = length (Results result).
Proof.
  revert result. induction schedule as [|idx l IH]; intros result; simpl.
  - reflexivity.
  - rewrite IH. apply workerStep_length.
Qed.

Lemma foldl_step_untouched schedule result (i : nat) :
  ~ In i schedule ->
  Results (foldl step result schedule) !! i = Results result !! i.
Proof.
  revert result. induction schedule as [|idx l IH]; intros result Hni; simpl.
  - reflexivity.
  - rewrite IH by (intros H; apply Hni; now right).
    unfold step, workerStep. destruct (tasks !! idx); simpl; [|reflexivity].
    apply list_lookup_insert_ne. intros ->. apply Hni. now left.
Qed.

(** Every index of the schedule ends up holding the result of its own task,
    whatever else was scheduled before or after it. *)
Lemma foldl_step_stored schedule result (i : nat) task :
  In i schedule -> tasks !! i = Some task ->
  (i < length (Results result))%nat ->
  Results (foldl step result schedule) !! i
  = Some (runTask exec task timeout defaultDir).
Proof.
  revert result. induction schedule as [|idx l IH]; intros result Hin Ht Hlen.
  - destruct Hin.
  - simpl. destruct (in_dec Nat.eq_dec i l) as [Hl|Hl].
    + apply IH; auto. fold step. now rewrite workerStep_length.
    + rewrite foldl_step_untouched by assumption.
      destruct Hin as [->|Hin]; [|contradiction].
      unfold step, workerStep. rewrite Ht. simpl.
      now apply list_lookup_insert_eq.
Qed.

Lemma foldl_step_counts schedule result :
  Forall (fun idx => (idx < length tasks)%nat) schedule ->
  SuccessCount (foldl step result schedule) + FailCount (foldl step result schedule)
  = SuccessCount result + FailCount result + Z.of_nat (length schedule)
  /\ TotalTasks (foldl step result schedule) = TotalTasks result.
Proof.
  revert result. induction schedule as [|idx l IH]; intros result Hall.
  - simpl. lia.
  - inversion Hall as [|? ? Hidx Hl]; subst. cbn [foldl].
    destruct (IH (step result idx) Hl) as [-> ->].
    apply lookup_lt_is_Some_2 in Hidx as [task Ht].
    unfold step, workerStep. rewrite Ht. cbn [SuccessCount FailCount TotalTasks].
    destruct (Success _); rewrite length_cons; lia.
Qed.

Lemma fairSchedule_all schedule :
  fairSchedule (length tasks) schedule ->
  Forall (fun idx => (idx < length tasks)%nat) schedule
  /\ length schedule = length tasks
  /\ forall i, (i < length tasks)%nat -> In i schedule.
Proof.
  unfold fairSchedule. intros Hp. repeat split.
  - apply List.Forall_forall. intros i Hi.
    apply (Permutation_in _ Hp), in_seq in Hi. lia.
  - rewrite (Permutation_length Hp). apply length_seq.
  - intros i Hi. apply (Permutation_in _ (Permutation_sym Hp)), in_seq. lia.
Qed.

(** Each slot of the result is the run of its own task alone. *)
Lemma runTasks_slot maxWorkers schedule wallMs (i : nat) task :
  fairSchedule (length tasks) schedule -> tasks !! i = Some task ->
  Results (runTasks exec tasks maxWorkers timeout defaultDir schedule wallMs) !! i
  = Some (runTask exec task timeout defaultDir).
Proof.
  intros Hs Ht. destruct (fairSchedule_all _ Hs) as (_ & _ & Hin).
  pose proof (lookup_lt_Some _ _ _ Ht) as Hlt.
  unfold runTasks. cbn [Results]. apply foldl_step_stored; auto.
  cbn [Results]. now rewrite repeat_length.
Qed.

(** C10. The results slice has one entry per input task, entry [i] carries
    the ID and the command of task [i] whatever the order in which the
    workers finished, and the two counters add up to the number of tasks. *)
Theorem runTasks_order_and_counts maxWorkers schedule wallMs :
  fairSchedule (length tasks) schedule ->
  length (Results (runTasks exec tasks maxWorkers timeout defaultDir schedule wallMs))
  = length tasks
  /\ (forall (i : nat) task, tasks !! i = Some task ->
        exists tr,
          Results (runTasks exec tasks maxWorkers timeout defaultDir schedule wallMs) !! i
          = Some tr
          /\ rID tr = ID task /\ rCommand tr = Command task)
  /\ SuccessCount (runTasks exec tasks maxWorkers timeout defaultDir schedule wallMs)
     + FailCount (runTasks exec tasks maxWorkers timeout defaultDir schedule wallMs)
     = TotalTasks (runTasks exec tasks maxWorkers timeout defaultDir schedule wallMs)
  /\ TotalTasks (runTasks exec tasks maxWorkers timeout defaultDir schedule wallMs)
     = Z.of_nat (length tasks).
Proof.
  intros Hs. destruct (fairSchedule_all _ Hs) as (Hall & Hlen & _).
  split; [|split; [|split]].
  - unfold runTasks. cbn [Results]. fold step.
    rewrite foldl_step_length. cbn [Results]. apply repeat_length.
  - intros i task Ht. exists (runTask exec task timeout defaultDir).
    split; [now apply runTasks_slot|]. apply runTask_identity.
  - unfold runTasks. cbn [SuccessCount FailCount TotalTasks]. fold step.
    edestruct (foldl_step_counts schedule) as [-> ->]; [exact Hall|].
    cbn [SuccessCount FailCount TotalTasks]. lia.
  - unfold runTasks. cbn [TotalTasks]. fold step.
    edestruct (foldl_step_counts schedule) as [_ ->]; [exact Hall|].
    reflexivity.
Qed.

End RunnerProps.

Section RunTaskOutcomes.
Import Runner.

Variable exec : Exec.
Variables (task : Task) (timeout : Z) (defaultDir : string).

Let workDir := if String.eqb (Dir task) "" then defaultDir else Dir task.
Let outcome := exec workDir (Command task) timeout.

(** A task that runs to completion with a non-zero status records that
    status and the captured standard error. *)
Lemma runTask_nonzero_exit status stderr :
  outErr outcome = ExitError (Exited status) stderr ->
  ExitCode (runTask exec task timeout defaultDir) = status
  /\ Stderr (runTask exec task timeout defaultDir) = stderr
  /\ Success (runTask exec task timeout defaultDir) = false.
Proof.
  unfold runTask. fold workDir. fold outcome. intros ->. simpl. auto.
Qed.

(** The timeout branch is taken only when the error of [cmd.Output()] is not
    an [*exec.ExitError]. *)
Lemma runTask_deadline_other_error text :
  outErr outcome = OtherError text -> deadlineExceeded outcome = true ->
  Error (runTask exec task timeout defaultDir) = "timeout exceeded"
  /\ ExitCode (runTask exec task timeout defaultDir) = -1.
Proof.
  unfold runTask. fold workDir. fold outcome. intros -> ->. simpl. auto.
Qed.

(** C3 (the code against the claim).  When the deadline passes, the Go
    runtime kills the subprocess, and [cmd.Output()] then returns an
    [*exec.ExitError] whose state is "terminated by a signal".  [runTask]
    tests for [*exec.ExitError] first: the result carries exit code -1 and
    the captured standard error, its error field stays empty, and nothing in
    it tells the timeout from a process that a signal ended for another
    reason. *)
Theorem runTask_deadline_kill_unclassified signal stderr :
  outErr outcome = ExitError (Signaled signal) stderr ->
  deadlineExceeded outcome = true ->
  Error (runTask exec task timeout defaultDir) = ""
  /\ ExitCode (runTask exec task timeout defaultDir) = -1
  /\ Stderr (runTask exec task timeout defaultDir) = stderr
  /\ Success (runTask exec task timeout defaultDir) = false.
Proof.
  unfold runTask. fold workDir. fold outcome. intros -> _. simpl. auto.
Qed.

End RunTaskOutcomes.

(** The deadline flag changes nothing in the result of a killed subprocess. *)
Lemma runTask_kill_ignores_deadline task timeout defaultDir out signal stderr ms b1 b2 :
  Runner.runTask
    (fun _ _ _ => {| Runner.outStdout := out;
                     Runner.outErr := Runner.ExitError (Runner.Signaled signal) stderr;
                     Runner.deadlineExceeded := b1; Runner.elapsedMs := ms |})
    task timeout defaultDir
  = Runner.runTask
      (fun _ _ _ => {| Runner.outStdout := out;
                       Runner.outErr := Runner.ExitError (Runner.Signaled signal) stderr;
                       Runner.deadlineExceeded := b2; Runner.elapsedMs := ms |})
      task timeout defaultDir.
Proof. reflexivity. Qed.

Lemma runTask_deadline_kill_unclassified_witness :
  Runner.Error (Runner.runTask killedExec sleepTask 1 ".") = ""
  /\ Runner.ExitCode (Runner.runTask killedExec sleepTask 1 ".") = -1
  /\ Runner.Stderr (Runner.runTask killedExec sleepTask 1 ".") = ""
  /\ Runner.Success (Runner.runTask killedExec sleepTask 1 ".") = false.
Proof.
  apply (runTask_deadline_kill_unclassified killedExec sleepTask 1 "." 9 "");
    reflexivity.
Defined.

Lemma runTasks_order_and_counts_witness :
  length (Runner.Results (Runner.runTasks echoExec twoTasks 0 60 "." [1; 0]%nat 3))
  = length twoTasks
  /\ (forall (i : nat) task, twoTasks !! i = Some task ->
        exists tr,
          Runner.Results (Runner.runTasks echoExec twoTasks 0 60 "." [1; 0]%nat 3) !! i
          = Some tr
          /\ Runner.rID tr = Runner.ID task
          /\ Runner.rCommand tr = Runner.Command task)
  /\ Runner.SuccessCount (Runner.runTasks echoExec twoTasks 0 60 "." [1; 0]%nat 3)
     + Runner.FailCount (Runner.runTasks echoExec twoTasks 0 60 "." [1; 0]%nat 3)
     = Runner.TotalTasks (Runner.runTasks echoExec twoTasks 0 60 "." [1; 0]%nat 3)
  /\ Runner.TotalTasks (Runner.runTasks echoExec twoTasks 0 60 "." [1; 0]%nat 3)
     = Z.of_nat (length twoTasks).
Proof.
  apply (runTasks_order_and_counts echoExec twoTasks 60 "." 0 [1; 0]%nat 3).
  unfold Runner.fairSchedule. simpl. apply perm_swap.
Defined.

(** *** TaskRunner: where the tasks come from, and what a run returns *)

(** [%d] prints different integers differently. *)
Lemma Itoa_inj a b : GoStrings.Itoa a = GoStrings.Itoa b -> a = b.
Proof.
  assert (Hnil : forall n, Z.to_int n <> Decimal.Pos Decimal.Nil
                           /\ Z.to_int n <> Decimal.Neg Decimal.Nil).
  { intros n. split; intros E;
      (assert (H0 : n = 0)
         by (apply (f_equal Z.of_int) in E; now rewrite DecimalZ.of_to in E));
      subst n; discriminate E. }
  unfold GoStrings.Itoa. intros E.
  apply (f_equal NilZero.int_of_string) in E.
  rewrite !NilZero.isi in E by apply Hnil.
  injection E as E. now apply DecimalZ.to_int_inj.
Qed.

Section TaskSourceProps.
Import Runner.

Variable TrimSpace : string -> string.

Local Abbreviation stdinLoop := (stdinLoop TrimSpace).
Local Abbreviation loadTasksFromStdin := (loadTasksFromStdin TrimSpace).
Local Abbreviation generateLoop := (generateLoop TrimSpace).
Local Abbreviation generateTasks := (generateTasks TrimSpace).

(** A line of standard input that gives a task: not blank, and no
    comment. *)
Local Abbreviation isCommand :=
  (fun line : string =>
     negb (String.eqb line "") && negb (GoStrings.HasPrefix line "#")).

Lemma stdinLoop_imap workDir lines :
  forall id tasks,
    stdinLoop workDir id tasks lines
    = tasks
      ++ imap (fun (k : nat) line =>
                 {| ID := "task_" +:+ GoStrings.Itoa (id + Z.of_nat k);
                    Command := line; Dir := workDir |})
           (List.filter isCommand (map TrimSpace lines)).
Proof.
  induction lines as [|text lines IH]; intros id tasks;
    cbn [Runner.stdinLoop map List.filter]; cbn beta zeta.
  - cbn. now rewrite app_nil_r.
  - destruct (negb _ && negb _).
    + rewrite IH, <- app_assoc. cbn [app imap]. rewrite Z.add_0_r. do 2 f_equal.
      apply imap_ext. intros k line _. cbn. do 3 f_equal. lia.
    + apply IH.
Qed.

(** X27: the tasks read from standard input are the lines that the scanner
    yields of it, trimmed, without the blank ones and those that start with
    [#], in their order; they are numbered [task_1], [task_2], ... without a
    gap, and all run in the working directory given.  The scanner yields
    the lines before the first line of 64 KiB or more, and the lines after
    it give no task; when every line is shorter, the tasks are made of all
    the lines of standard input. *)
Theorem loadTasksFromStdin_numbered workDir stdin :
  loadTasksFromStdin workDir stdin
  = imap (fun (k : nat) line =>
            {| ID := "task_" +:+ GoStrings.Itoa (Z.of_nat k + 1);
               Command := line; Dir := workDir |})
      (List.filter isCommand
         (map TrimSpace
            (map GoBufio.dropCR (GoBufio.fitting (GoBufio.rawLines stdin)))))
  /\ (forallb GoBufio.fits (GoBufio.rawLines stdin) = true ->
      loadTasksFromStdin workDir stdin
      = imap (fun (k : nat) line =>
                {| ID := "task_" +:+ GoStrings.Itoa (Z.of_nat k + 1);
                   Command := line; Dir := workDir |})
          (List.filter isCommand
             (map TrimSpace (map GoBufio.dropCR (GoBufio.rawLines stdin))))).
Proof.
  assert (E : loadTasksFromStdin workDir stdin
              = imap (fun (k : nat) line =>
                        {| ID := "task_" +:+ GoStrings.Itoa (Z.of_nat k + 1);
                           Command := line; Dir := workDir |})
                  (List.filter isCommand (map TrimSpace (GoBufio.Scan stdin)))).
  { unfold Runner.loadTasksFromStdin. rewrite stdinLoop_imap. cbn [app].
    apply imap_ext. intros k line _. cbn. do 3 f_equal. lia. }
  split; [exact E|]. intros Hfit. rewrite E. unfold GoBufio.Scan.
  now rewrite fitting_all.
Qed.

(** A line of 65536 bytes ends the reading of standard input: the task
    before it is loaded, the task after it is not. *)
Example loadTasksFromStdin_long_line :
  Runner.loadTasksFromStdin (fun s => s) "."
    (GoStrings.joinWith Diff.newline ["ls"; longLine; "pwd"; ""])
  = [ {| Runner.ID := "task_1"; Runner.Command := "ls"; Runner.Dir := "." |} ].
Proof. vm_compute. reflexivity. Qed.

(** The task that [generateTasks] makes of the entry [k] (from 0) of the
    list of files. *)
Local Abbreviation taskOf :=
  (fun (commandTemplate workDir : string) (k : Z) (entry : string) =>
     {| ID := "task_" +:+ GoStrings.Itoa (k + 1);
        Command :=
          GoStrings.ReplaceAll
            (GoStrings.ReplaceAll commandTemplate "{file}" (TrimSpace entry))
            "{}" (TrimSpace entry);
        Dir := workDir |}).

Lemma generateLoop_In commandTemplate workDir files :
  forall i tasks task,
    In task (generateLoop commandTemplate workDir i tasks files)
    <-> In task tasks
        \/ exists (k : nat) entry,
             nth_error files k = Some entry /\ TrimSpace entry <> ""
             /\ task = taskOf commandTemplate workDir (i + Z.of_nat k) entry.
Proof.
  induction files as [|file files IH]; intros i tasks task;
    cbn [Runner.generateLoop].
  - split; [now left|]. intros [H|(k & e & Hk & _)]; [exact H|]. now destruct k.
  - destruct (String.eqb_spec (TrimSpace file) "") as [Hb|Hb]; rewrite IH; clear IH.
    + split.
      * intros [H|(k & e & Hk & Hne & ->)]; [now left|]. right.
        exists (S k), e. repeat split; [exact Hk|exact Hne|].
        do 3 f_equal. lia.
      * intros [H|(k & e & Hk & Hne & ->)]; [now left|].
        destruct k as [|k]; [injection Hk as <-; contradiction|].
        right. exists k, e. repeat split; [exact Hk|exact Hne|].
        do 3 f_equal. lia.
    + split.
      * intros [H|(k & e & Hk & Hne & ->)].
        -- apply in_app_or in H as [H|[<-|[]]]; [now left|]. right.
           exists O, file. repeat split; [exact Hb|]. do 3 f_equal. lia.
        -- right. exists (S k), e. repeat split; [exact Hk|exact Hne|].
           do 3 f_equal. lia.
      * intros [H|(k & e & Hk & Hne & ->)].
        -- left. apply in_or_app. now left.
        -- destruct k as [|k].
           ++ injection Hk as <-. left. apply in_or_app. right. left.
              do 3 f_equal. lia.
           ++ right. exists k, e. repeat split; [exact Hk|exact Hne|].
              do 3 f_equal. lia.
Qed.

Lemma generateLoop_NoDup commandTemplate workDir files :
  forall i tasks,
    List.NoDup (map ID tasks) ->
    (forall t, In t tasks -> exists j, j <= i /\ ID t = "task_" +:+ GoStrings.Itoa j) ->
    List.NoDup (map ID (generateLoop commandTemplate workDir i tasks files)).
Proof.
  induction files as [|file files IH]; intros i tasks Hnd Hids;
    cbn [Runner.generateLoop]; [exact Hnd|].
  destruct (String.eqb (TrimSpace file) "").
  - apply IH; [exact Hnd|]. intros t Ht. destruct (Hids t Ht) as (j & Hj & E).
    exists j. split; [lia|exact E].
  - apply IH.
    + rewrite map_app. cbn [map ID]. apply List.NoDup_app; [exact Hnd| |].
      * repeat constructor. intros [].
      * intros id Hin [<-|[]]. apply in_map_iff in Hin as (t & E & Ht).
        destruct (Hids t Ht) as (j & Hj & E'). rewrite E' in E.
        injection E as E. apply Itoa_inj in E. lia.
    + intros t Ht. apply in_app_or in Ht as [Ht|[<-|[]]].
      * destruct (Hids t Ht) as (j & Hj & E). exists j. split; [lia|exact E].
      * exists (i + 1). split; [lia|reflexivity].
Qed.

(** X28: [generateTasks] makes one task of every entry of the comma-separated
    list that is not blank: its command is the template with [{file}] and
    then [{}] replaced by the trimmed entry, and its number is the position
    of the entry in the list, counted from 1 with the blank entries.  No two
    tasks have the same ID. *)
Theorem generateTasks_tasks commandTemplate filesStr workDir :
  List.NoDup (map ID (generateTasks commandTemplate filesStr workDir))
  /\ forall task,
       In task (generateTasks commandTemplate filesStr workDir)
       <-> exists (k : nat) entry,
             nth_error (GoStrings.splitOn "," filesStr) k = Some entry
             /\ TrimSpace entry <> ""
             /\ task = taskOf commandTemplate workDir (Z.of_nat k) entry.
Proof.
  unfold Runner.generateTasks. split.
  - apply generateLoop_NoDup; [constructor|intros t []].
  - intros task. rewrite generateLoop_In. split.
    + intros [[]|H]. exact H.
    + intros H. right. exact H.
Qed.

End TaskSourceProps.

Section RunTasksResult.
Import Runner.

Variable exec : Exec.
Variable tasks : list Task.
Variables (timeout : Z) (defaultDir : string).

Local Abbreviation step := (workerStep exec tasks timeout defaultDir).
Local Abbreviation run := (fun task => runTask exec task timeout defaultDir).

(** Whether the task at an index succeeds, and whether it fails. *)
Local Abbreviation succeeds :=
  (fun idx : nat =>
     match tasks !! idx with Some task => Success (run task) | None => false end).
Local Abbreviation fails :=
  (fun idx : nat =>
     match tasks !! idx with Some task => negb (Success (run task)) | None => false end).

Lemma foldl_step_tally schedule :
  forall result,
    SuccessCount (foldl step result schedule)
    = SuccessCount result + Z.of_nat (length (List.filter succeeds schedule))
    /\ FailCount (foldl step result schedule)
       = FailCount result + Z.of_nat (length (List.filter fails schedule)).
Proof.
  induction schedule as [|idx schedule IH]; intros result; cbn [foldl List.filter].
  - cbn. lia.
  - destruct (IH (step result idx)) as [-> ->]. unfold workerStep.
    destruct (tasks !! idx) as [task|]; [|lia].
    cbn [SuccessCount FailCount].
    destruct (Success (runTask exec task timeout defaultDir)); cbn [negb length]; lia.
Qed.

Lemma length_filter_lookup {A} (f : A -> bool) (l : list A) :
  forall start,
    length (List.filter
              (fun idx : nat =>
                 match l !! (idx - start)%nat with Some x => f x | None => false end)
              (seq start (length l)))
    = length (List.filter f l).
Proof.
  induction l as [|x l IH]; intros start; [reflexivity|].
  cbn [length seq List.filter]. rewrite Nat.sub_diag. cbn [lookup list_lookup].
  assert (E : length (List.filter
                (fun idx : nat =>
                   match (x :: l) !! (idx - start)%nat with
                   | Some y => f y | None => false end)
                (seq (S start) (length l)))
              = length (List.filter f l)).
  { rewrite <- (IH (S start)). f_equal. apply List.filter_ext_in.
    intros idx Hin. apply in_seq in Hin.
    replace (idx - start)%nat with (S (idx - S start)) by lia. reflexivity. }
  destruct (f x); cbn [length]; now rewrite E.
Qed.

(** The record that a run returns, in terms of what the one execution of
    each task gave in that run. *)
Lemma runTasks_record maxWorkers schedule wallMs :
  fairSchedule (length tasks) schedule ->
  runTasks exec tasks maxWorkers timeout defaultDir schedule wallMs
  = {| Results := map run tasks;
       TotalTasks := Z.of_nat (length tasks);
       SuccessCount := Z.of_nat (length (List.filter Success (map run tasks)));
       FailCount :=
         Z.of_nat (length (List.filter (fun r => negb (Success r)) (map run tasks)));
       TotalDuration := wallMs |}.
Proof.
  intros Hfair. destruct (fairSchedule_all tasks schedule Hfair) as (Hidx & _ & _).
  unfold runTasks.
  destruct (foldl_step_tally schedule
              {| Results := repeat zeroResult (length tasks);
                 TotalTasks := Z.of_nat (length tasks);
                 SuccessCount := 0; FailCount := 0; TotalDuration := 0 |})
    as [Hs Hf].
  destruct (foldl_step_counts exec tasks timeout defaultDir schedule
              {| Results := repeat zeroResult (length tasks);
                 TotalTasks := Z.of_nat (length tasks);
                 SuccessCount := 0; FailCount := 0; TotalDuration := 0 |} Hidx)
    as [_ Ht].
  rewrite Hs, Hf, Ht. cbn [SuccessCount FailCount TotalTasks]. f_equal.
  - apply list_eq. intros i. rewrite list_lookup_fmap.
    destruct (tasks !! i) as [task|] eqn:Hi.
    + apply (runTasks_slot exec tasks timeout defaultDir maxWorkers schedule wallMs
               i task Hfair Hi).
    + cbn. apply lookup_ge_None.
      rewrite (foldl_step_length exec tasks timeout defaultDir). cbn [Results].
      rewrite repeat_length.
      now apply lookup_ge_None.
  - rewrite (length_filter_Permutation _ _ _ Hfair).
    rewrite <- (length_filter_lookup Success (map run tasks) 0), length_map.
    rewrite Z.add_0_l. do 2 f_equal. apply List.filter_ext. intros idx.
    rewrite Nat.sub_0_r, list_lookup_fmap. now destruct (tasks !! idx).
  - rewrite (length_filter_Permutation _ _ _ Hfair).
    rewrite <- (length_filter_lookup (fun r => negb (Success r)) (map run tasks) 0),
      length_map.
    rewrite Z.add_0_l. do 2 f_equal. apply List.filter_ext. intros idx.
    rewrite Nat.sub_0_r, list_lookup_fmap. now destruct (tasks !! idx).
Qed.

(** X29: the counters of a run agree with its results.  When every task has
    been taken once, in whatever order the workers finished: [SuccessCount]
    is the number of entries of [Results] that are a success, [FailCount]
    the number of the others, and [TotalTasks] the number of entries. *)
Theorem runTasks_counts_match_results maxWorkers schedule wallMs :
  fairSchedule (length tasks) schedule ->
  let result :=
    runTasks exec tasks maxWorkers timeout defaultDir schedule wallMs in
  SuccessCount result
  = Z.of_nat (length (List.filter Success (Results result)))
  /\ FailCount result
     = Z.of_nat (length (List.filter (fun r => negb (Success r)) (Results result)))
  /\ TotalTasks result = Z.of_nat (length (Results result)).
Proof.
  intros Hfair result. subst result.
  rewrite (runTasks_record maxWorkers schedule wallMs Hfair).
  cbn [SuccessCount FailCount TotalTasks Results]. rewrite length_map.
  repeat split.
Qed.

End RunTasksResult.

Section RunTaskSuccess.
Import Runner.

Variable exec : Exec.
Variables (task : Task) (timeout : Z) (defaultDir : string).

(** X30: the success flag tells the exit code.  An [*exec.ExitError] is the
    error of a process that did not end with status 0; with that, the result
    of a task is a success exactly when its exit code is 0, and a success
    carries neither an error text nor captured standard error. *)
Theorem runTask_success_exit_code :
  (forall stderr,
      outErr (exec (if String.eqb (Dir task) "" then defaultDir else Dir task)
                (Command task) timeout)
      <> ExitError (Exited 0) stderr) ->
  (Success (runTask exec task timeout defaultDir) = true
   <-> ExitCode (runTask exec task timeout defaultDir) = 0)
  /\ (Success (runTask exec task timeout defaultDir) = true ->
      Error (runTask exec task timeout defaultDir) = ""
      /\ Stderr (runTask exec task timeout defaultDir) = "").
Proof.
  intros Hexit. unfold runTask.
  destruct (outErr _) as [|[status|signal] stderr|text] eqn:E.
  - cbn. repeat split; reflexivity.
  - cbn. split; [split; [discriminate|]|discriminate].
    intros ->. now destruct (Hexit stderr).
  - cbn. split; [split|]; discriminate.
  - destruct (deadlineExceeded _); cbn; (split; [split|]); discriminate.
Qed.

End RunTaskSuccess.

Lemma runTasks_counts_match_results_witness :
  Runner.SuccessCount (Runner.runTasks echoExec twoTasks 0 60 "." [1; 0]%nat 3)
  = Z.of_nat
      (length
         (List.filter Runner.Success
            (Runner.Results
               (Runner.runTasks echoExec twoTasks 0 60 "." [1; 0]%nat 3)))).
Proof.
  assert (Hfair : Runner.fairSchedule (length twoTasks) [1; 0]%nat)
    by apply perm_swap.
  exact (proj1 (runTasks_counts_match_results echoExec twoTasks 60 "." 0
                  [1; 0]%nat 3 Hfair)).
Defined.

Lemma runTask_success_exit_code_witness :
  Runner.Success (Runner.runTask echoExec
                    {| Runner.ID := "b"; Runner.Command := "true";
                       Runner.Dir := "/tmp" |} 60 ".") = true
  <-> Runner.ExitCode (Runner.runTask echoExec
                         {| Runner.ID := "b"; Runner.Command := "true";
                            Runner.Dir := "/tmp" |} 60 ".") = 0.
Proof.
  apply (runTask_success_exit_code echoExec
           {| Runner.ID := "b"; Runner.Command := "true"; Runner.Dir := "/tmp" |}
           60 ".").
  intros stderr. discriminate.
Defined.
